(** * Dashboard cache and cascading-filter core: a shallow embedding

    The development follows the TypeScript/JavaScript sources:

    - [JSMap]          the insertion-ordered [Map] of the JS runtime;
    - [CacheManager]   server/services (performance module), class CacheManager;
    - [FrontendCache]  client/src/lib/cache.ts, class FrontendCache, together
                       with the timers it registers through [setTimeout];
    - [Debounce]       the two [debounce] utilities;
    - [Routes]         server/routes.ts, the getBusiness handler;
    - [Dashboard]      the two filter coordinators (useDashboardData and
                       IndexChairmanDaily) and their refresh actions.

    Conventions.  [Date.now()] is an explicit argument [now : Z] (epoch
    milliseconds; integers of that size are exact JS numbers, so [+], [-]
    and the comparisons on them are the integer ones).  A result of type
    [T | null] is an [option]; payloads that are [null] themselves are
    treated in [Nullable].  A timer is registered with the delay the source
    passes to [setTimeout], which is the delay the runtime waits for in the
    range of [Timer.as_given].  Counters are [nat]; the only genuinely
    fractional number of the sources, [hitRate], is computed on binary64
    floats. *)

From Stdlib Require Import ZArith Floats Uint63 Lia.
From stdpp Require Import gmap strings list pretty sorting.

Local Open Scope Z_scope.

(** ** The JS [Map]: keys in insertion order *)

Module JSMap.

(** [new Map()] holds its entries in insertion order; re-setting a key that
    is present keeps its position, deleting and setting again moves it to
    the end.  [keys().next().value] is the key of the first entry. *)
Abbreviation t V := (list (string * V)).

Section ops.
Context {V : Type}.
Implicit Types (m : t V) (k : string) (v : V).

Definition keys m : list string := m.*1.

Definition size m : nat := length m.

Fixpoint get m k : option V :=
  match m with
  | [] => None
  | (k', v) :: m' => if decide (k' = k) then Some v else get m' k
  end.

Definition has m k : bool := bool_decide (k ∈ keys m).

Fixpoint set m k v : t V :=
  match m with
  | [] => [(k, v)]
  | (k', v') :: m' =>
      if decide (k' = k) then (k, v) :: m' else (k', v') :: set m' k v
  end.

Definition delete m k : t V := filter (λ p, p.1 ≠ k) m.

(** [m.keys().next().value]: [None] stands for [undefined]. *)
Definition first_key m : option string := head (keys m).

End ops.
End JSMap.

(** ** The timers of the runtime *)

Module Timer.

(** [setTimeout(f, ms)] holds its delay in 32 bits.  For a delay from 1 to
    [2^31 - 1] milliseconds the callback runs [ms] milliseconds later, or
    later still; outside this range a runtime waits for a delay of its own
    (Node: 1 ms) and not for [ms].  The timers of the models below are
    registered with the delay the source passes, which is what the runtime
    does in this range; every statement on the instant a timer is due is
    made for such delays. *)
Definition TIMEOUT_MAX : Z := 2147483647.

Definition as_given (ms : Z) : Prop := 1 ≤ ms ∧ ms ≤ TIMEOUT_MAX.

End Timer.

(** ** Server side: class CacheManager *)

Module CacheManager.
Section defs.
Context {V : Type}.

(** [this.cache] and [this.ttl] are two [Map]s over the same keys; only
    the order of [this.cache] is ever observed (by [set]). *)
Record t := mk {
  cache : JSMap.t V;
  ttl : gmap string Z;
  defaultTTL : Z;
  maxSize : nat
}.

Definition constructor : t :=
  {| cache := []; ttl := ∅; defaultTTL := 5 * 60 * 1000; maxSize := 1000 |}.

(** [this.cache.delete(key); this.ttl.delete(key)] *)
Definition delete (st : t) (key : string) : t :=
  {| cache := JSMap.delete (cache st) key;
     ttl := base.delete key (ttl st);
     defaultTTL := defaultTTL st;
     maxSize := maxSize st |}.

(** The body of the capacity test of [set]: the first key of
    [this.cache] is removed from both maps ([delete(undefined)] on an
    empty map removes nothing). *)
Definition evict_first (st : t) : t :=
  match JSMap.first_key (cache st) with
  | Some firstKey => delete st firstKey
  | None => st
  end.

Definition set (st : t) (key : string) (value : V) (dur now : Z) : t :=
  let st1 :=
    if bool_decide (maxSize st ≤ JSMap.size (cache st))%nat
    then evict_first st else st in
  {| cache := JSMap.set (cache st1) key value;
     ttl := <[key := now + dur]> (ttl st1);
     defaultTTL := defaultTTL st1;
     maxSize := maxSize st1 |}.

(** [set(key, value)] with the default argument [ttl = this.defaultTTL]. *)
Definition set_default (st : t) (key : string) (value : V) (now : Z) : t :=
  set st key value (defaultTTL st) now.

(** [Date.now() > expiry]; a missing expiry is [undefined], and the
    comparison with [undefined] is false. *)
Definition expired (st : t) (key : string) (now : Z) : bool :=
  match ttl st !! key with
  | Some expiry => bool_decide (now > expiry)
  | None => false
  end.

Definition get (st : t) (key : string) (now : Z) : option V * t :=
  if negb (JSMap.has (cache st) key) then (None, st)
  else if expired st key now then (None, delete st key)
  else (JSMap.get (cache st) key, st).

(** [this.get(key) !== null] *)
Definition has (st : t) (key : string) (now : Z) : bool * t :=
  let '(r, st') := get st key now in (bool_decide (is_Some r), st').

Definition clear (st : t) : t :=
  {| cache := []; ttl := ∅; defaultTTL := defaultTTL st; maxSize := maxSize st |}.

(** The sweep run by [setInterval] every minute: a loop over
    [this.ttl.entries()]. *)
Definition cleanup (st : t) (now : Z) : t :=
  map_fold (λ key expiry acc,
              if bool_decide (now > expiry) then delete acc key else acc)
           st (ttl st).

(** Histories of a cache object: the calls made on it, each with the
    clock value it reads. *)
Inductive op :=
| Set_ (key : string) (value : V) (dur : Z)
| Get (key : string)
| Has (key : string)
| Delete (key : string)
| Clear
| Cleanup.

Definition step (st : t) (e : op * Z) : t :=
  match e with
  | (Set_ key value dur, now) => set st key value dur now
  | (Get key, now) => (get st key now).2
  | (Has key, now) => (has st key now).2
  | (Delete key, _) => delete st key
  | (Clear, _) => clear st
  | (Cleanup, now) => cleanup st now
  end.

Definition run (tr : list (op * Z)) (st : t) : t := foldl step st tr.

Definition sets_key (key : string) (e : op * Z) : Prop :=
  match e.1 with Set_ key' _ _ => key' = key | _ => False end.

(** What every history keeps true of the object. *)
Definition wf (st : t) : Prop :=
  NoDup (JSMap.keys (cache st)) ∧
  (JSMap.size (cache st) ≤ maxSize st)%nat ∧
  maxSize st = 1000%nat.

(** A history that fills an empty cache with [n] distinct keys. *)
Definition fill (value : V) (n : nat) : list (op * Z) :=
  (λ i : nat, (Set_ (pretty i) value 1000, Z.of_nat i)) <$> seq 0 n.

(** The entry of [key], if the cache holds one, expires at [expiry]. *)
Definition expires_at (key : string) (expiry : Z) (st : t) : Prop :=
  JSMap.has (cache st) key = true → ttl st !! key = Some expiry.

End defs.
Global Arguments t : clear implicits.
Global Arguments op : clear implicits.
End CacheManager.

(** ** Client side: class FrontendCache (lib/cache.ts) *)

Module FrontendCache.
Section defs.
Context {T : Type}.

Record CacheItem := mkItem { data : T; timestamp : Z; ttl : Z }.

Record t := mk {
  cache : gmap string CacheItem;
  hits : nat;
  misses : nat
}.

(** A callback registered by [setTimeout(() => this.cache.delete(key), ttl)]:
    the instant from which it may run, and the [key] it has captured.  The
    instant is [now + ttl] for a [ttl] the runtime takes as given
    ([Timer.as_given]). *)
Record Timer := mkTimer { due : Z; target : string }.

(** The cache object together with the timers of the page that are still
    to run. *)
Record world := mkWorld { self : t; timers : list Timer }.

Definition constructor : t := {| cache := ∅; hits := 0; misses := 0 |}.

Definition init : world := {| self := constructor; timers := [] |}.

Definition set (w : world) (key : string) (d : T) (dur now : Z) : world :=
  {| self := {| cache := <[key := mkItem d now dur]> (cache (self w));
                hits := hits (self w);
                misses := misses (self w) |};
     timers := timers w ++ [mkTimer (now + dur) key] |}.

(** [set(key, data)] with the default argument [ttl = 300000]. *)
Definition set_default (w : world) (key : string) (d : T) (now : Z) : world :=
  set w key d 300000 now.

Definition get (c : t) (key : string) (now : Z) : option T * t :=
  match cache c !! key with
  | None => (None, {| cache := cache c; hits := hits c; misses := S (misses c) |})
  | Some item =>
      if bool_decide (now - timestamp item > ttl item)
      then (None, {| cache := base.delete key (cache c);
                     hits := hits c; misses := S (misses c) |})
      else (Some (data item),
            {| cache := cache c; hits := S (hits c); misses := misses c |})
  end.

Definition has (c : t) (key : string) (now : Z) : bool * t :=
  match cache c !! key with
  | None => (false, c)
  | Some item =>
      if bool_decide (now - timestamp item > ttl item)
      then (false, {| cache := base.delete key (cache c);
                      hits := hits c; misses := misses c |})
      else (true, c)
  end.

Definition clear (c : t) : t := {| cache := ∅; hits := 0; misses := 0 |}.

(** JS numbers are binary64 floats; the counters are integers, and the
    conversion is exact for every count below 2^53. *)
Definition num (n : nat) : float := PrimFloat.of_uint63 (Uint63.of_Z (Z.of_nat n)).

Record Stats := mkStats {
  size : nat;
  stat_hits : nat;
  stat_misses : nat;
  hitRate : float
}.

Definition getStats (c : t) : Stats :=
  {| size := base.size (cache c);
     stat_hits := hits c;
     stat_misses := misses c;
     hitRate :=
       if bool_decide (0 < hits c + misses c)%nat
       then (num (hits c) / num (hits c + misses c) * 100)%float
       else 0%float |}.

(** The timer callback: [this.cache.delete(key)]. *)
Definition timer_callback (c : t) (tm : Timer) : t :=
  {| cache := base.delete (target tm) (cache c);
     hits := hits c; misses := misses c |}.

(** The event loop runs the [i]-th pending timer, which is possible from
    its due instant on. *)
Definition fire (w : world) (i : nat) (now : Z) : option world :=
  match timers w !! i with
  | Some tm =>
      if bool_decide (due tm ≤ now)
      then Some {| self := timer_callback (self w) tm;
                   timers := base.delete i (timers w) |}
      else None
  | None => None
  end.

Inductive event :=
| ESet (key : string) (d : T) (dur : Z)
| EGet (key : string)
| EHas (key : string)
| EClear
| EFire (i : nat).

Definition on_self (f : t → t) (w : world) : world :=
  {| self := f (self w); timers := timers w |}.

Definition step (w : world) (e : event * Z) : option world :=
  match e with
  | (ESet key d dur, now) => Some (set w key d dur now)
  | (EGet key, now) => Some (on_self (λ c, (get c key now).2) w)
  | (EHas key, now) => Some (on_self (λ c, (has c key now).2) w)
  | (EClear, _) => Some (on_self clear w)
  | (EFire i, now) => fire w i now
  end.

Fixpoint run (tr : list (event * Z)) (w : world) : option world :=
  match tr with
  | [] => Some w
  | e :: tr' => match step w e with Some w' => run tr' w' | None => None end
  end.

Definition sets_key (key : string) (e : event * Z) : Prop :=
  match e.1 with ESet key' _ _ => key' = key | _ => False end.

(** The entry of [key], if the cache holds one, was stored at [t0] with
    time to live [dur]. *)
Definition stamped (key : string) (t0 dur : Z) (c : t) : Prop :=
  ∀ item, cache c !! key = Some item → timestamp item = t0 ∧ ttl item = dur.

End defs.
Global Arguments CacheItem : clear implicits.
Global Arguments t : clear implicits.
Global Arguments world : clear implicits.
Global Arguments event : clear implicits.
End FrontendCache.

(** ** Payloads that can be [null] *)

Module Nullable.

(** [get<T>(key): T | null] returns [item.data] as it is.  When the payload
    type has the value [null] itself ([T] is [option X], [None] for [null]),
    a stored [null] and an absent entry reach the caller as the same value:
    [returned] is what the caller holds. *)
Definition returned {X : Type} (r : option (option X)) : option X :=
  match r with
  | Some (Some x) => Some x
  | Some None | None => None
  end.

End Nullable.

(** ** The debounce utilities *)

Module Debounce.
Section defs.
Context {A : Type}.

(** What one debounced function owns: the closure variable [timeout]
    ([None] for [undefined] and [null]), the callbacks registered with
    [setTimeout] that have neither run nor been cleared (handle, due
    instant, and the [args] captured by [later]), and the next handle the
    runtime hands out (handles are positive, hence truthy).  The due instant
    is [now + wait] for a [wait] the runtime takes as given
    ([Timer.as_given]). *)
Record state := mk {
  timeout : option nat;
  pending : gmap nat (Z * A);
  next_handle : nat
}.

Definition init : state := {| timeout := None; pending := ∅; next_handle := 1 |}.

Definition clearTimeout (h : option nat) (p : gmap nat (Z * A)) : gmap nat (Z * A) :=
  match h with Some i => base.delete i p | None => p end.

(** [debounce(func, wait)] of the dashboard component and of the server
    module.  A call of the returned function never calls [func]. *)
Definition executedFunction (wait : Z) (st : state) (args : A) (now : Z) : state :=
  let p := clearTimeout (timeout st) (pending st) in
  let h := next_handle st in
  {| timeout := Some h;
     pending := <[h := (now + wait, args)]> p;
     next_handle := S h |}.

(** [later]: [clearTimeout(timeout); func(...args)].  The call of [func]
    is the first component of the result. *)
Definition later (st : state) (args : A) : list A * state :=
  ([args],
   {| timeout := timeout st;
      pending := clearTimeout (timeout st) (pending st);
      next_handle := next_handle st |}).

(** The event loop runs the callback with handle [h], from its due
    instant on. *)
Definition fire (st : state) (h : nat) (now : Z) : option (list A * state) :=
  match pending st !! h with
  | Some (due, args) =>
      if bool_decide (due ≤ now)
      then Some (later {| timeout := timeout st;
                          pending := base.delete h (pending st);
                          next_handle := next_handle st |} args)
      else None
  | None => None
  end.

(** [debounce(func, wait, immediate)] of utils/performance.jsx. *)
Definition executedFunction_perf (immediate : bool) (wait : Z)
    (st : state) (args : A) (now : Z) : list A * state :=
  let callNow := immediate && bool_decide (timeout st = None) in
  let p := clearTimeout (timeout st) (pending st) in
  let h := next_handle st in
  (if callNow then [args] else [],
   {| timeout := Some h;
      pending := <[h := (now + wait, args)]> p;
      next_handle := S h |}).

(** [later] of that variant: [timeout = null; if (!immediate) func(...args)]. *)
Definition later_perf (immediate : bool) (st : state) (args : A) : list A * state :=
  (if immediate then [] else [args],
   {| timeout := None; pending := pending st; next_handle := next_handle st |}).

Definition fire_perf (immediate : bool) (st : state) (h : nat) (now : Z)
    : option (list A * state) :=
  match pending st !! h with
  | Some (due, args) =>
      if bool_decide (due ≤ now)
      then Some (later_perf immediate
                   {| timeout := timeout st;
                      pending := base.delete h (pending st);
                      next_handle := next_handle st |} args)
      else None
  | None => None
  end.

(** A history of one debounced function: calls of it and runs of its
    timers, each at an instant; the instants of a history never go back. *)
Inductive event :=
| Call (args : A)
| Fire (h : nat).

(** The two utilities as transition systems over the same state. *)
Inductive variant := Simple | Perf (immediate : bool).

Definition step (var : variant) (wait : Z) (st : state) (e : event) (now : Z)
    : option (list A * state) :=
  match var, e with
  | Simple, Call args => Some ([], executedFunction wait st args now)
  | Simple, Fire h => fire st h now
  | Perf immediate, Call args => Some (executedFunction_perf immediate wait st args now)
  | Perf immediate, Fire h => fire_perf immediate st h now
  end.

(** [run] returns the calls of [func] in the order they were made. *)
Fixpoint run (var : variant) (wait : Z) (tr : list (event * Z)) (clock : Z)
    (st : state) : option (list A * state) :=
  match tr with
  | [] => Some ([], st)
  | (e, now) :: tr' =>
      if bool_decide (clock ≤ now) then
        match step var wait st e now with
        | Some (out, st') =>
            match run var wait tr' now st' with
            | Some (outs, st'') => Some (out ++ outs, st'')
            | None => None
            end
        | None => None
        end
      else None
  end.

(** The calls of the debounced function in a history. *)
Fixpoint calls_of (tr : list (event * Z)) : list (A * Z) :=
  match tr with
  | [] => []
  | (Call args, now) :: tr' => (args, now) :: calls_of tr'
  | (Fire _, _) :: tr' => calls_of tr'
  end.

(** Every call comes less than [wait] after the previous one. *)
Fixpoint within_window (wait : Z) (prev : Z) (cs : list (A * Z)) : Prop :=
  match cs with
  | [] => True
  | (_, now) :: cs' => now < prev + wait ∧ within_window wait now cs'
  end.

Definition one_burst (wait : Z) (cs : list (A * Z)) : Prop :=
  match cs with
  | [] => True
  | (_, now) :: cs' => within_window wait now cs'
  end.

(** The variants that call [func] from the timer only. *)
Definition trailing (var : variant) : Prop :=
  match var with Simple => True | Perf immediate => immediate = false end.

(** One timer is registered, for the call [(args, now)], and [timeout]
    holds its handle. *)
Definition armed (wait : Z) (args : A) (now : Z) (st : state) : Prop :=
  ∃ h, timeout st = Some h ∧ pending st = {[h := (now + wait, args)]}.

End defs.
Global Arguments state : clear implicits.
Global Arguments event : clear implicits.
End Debounce.

(** ** Server side: the business-options route (server/routes.ts) *)

Module Routes.

(** Column values and the records of a recordset (JS objects keyed by
    column name). *)
Inductive value := VStr (s : string) | VInt (z : Z) | VNull.

#[global] Instance value_eq_dec : EqDecision value.
Proof. solve_decision. Defined.

Abbreviation row := (gmap string value).

(** [row.COLUMN]; a missing property reads as [undefined], which [join]
    prints like [null]. *)
Definition field (r : row) (column : string) : value := default VNull (r !! column).

(** The SQL texts built by the handler, by shape and interpolated values.
    [businessQueryScoped] carries the values whose [join(',')] is spliced
    into [BUID IN (...)]. *)
Inductive query :=
| groupQuery (bucketId : Z)
| businessQuery (vertical : string)
| buidQuery (userId : Z)
| businessQueryScoped (buidList : list value) (vertical : string).

(** The cache service imported from ./services/cache, by the two methods
    the handler calls, each with the clock value it reads. *)
Class CacheService (C : Type) := {
  svc_get : C → string → Z → option (list row) * C;
  svc_set : C → string → list row → Z → Z → C
}.

#[global] Instance CacheManager_service : CacheService (CacheManager.t (list row)) := {|
  svc_get := CacheManager.get;
  svc_set := CacheManager.set
|}.

Record FilterData := mkReq { bucketId : Z; userId : Z; vertical : string }.

Inductive body :=
| Data (data : list row) (cached : bool)
| Error (error : string).

Record response := mkRes { status : Z; json : body }.

Definition cacheKey (req : FilterData) : string :=
  "business_" +:+ pretty (bucketId req) +:+ "_" +:+ pretty (userId req)
    +:+ "_" +:+ vertical req.

(** [groupResult.length > 0 &&
     groupResult[0].ANALYTICS_GROUP_LEVEL_NAME === "GROUP SECURITY"] *)
Definition group_security (groupResult : list row) : bool :=
  match groupResult with
  | r :: _ => bool_decide (field r "ANALYTICS_GROUP_LEVEL_NAME" = VStr "GROUP SECURITY")
  | [] => false
  end.

Section handler.
Context {C : Type} `{!CacheService C}.
(** [databaseService.executeQuery]: [None] when it throws. *)
Context (executeQuery : query → option (list row)).

(** POST /api/dashboard/getBusiness.  [t_get] and [t_set] are the clock
    values read by [cacheService.get] and [cacheService.set]; the body of
    [try] runs in the option monad and [catch] answers 500. *)
Definition getBusiness (req : FilterData) (t_get t_set : Z) (c : C) : response * C :=
  let '(cachedData, c1) := svc_get c (cacheKey req) t_get in
  match cachedData with
  | Some d => (mkRes 200 (Data d true), c1)
  | None =>
      let store businessData :=
        (mkRes 200 (Data businessData false),
         svc_set c1 (cacheKey req) businessData 300000 t_set) in
      let try : option (response * C) :=
        groupResult ← executeQuery (groupQuery (bucketId req));
        if group_security groupResult then
          businessData ← executeQuery (businessQuery (vertical req));
          Some (store businessData)
        else
          buidResult ← executeQuery (buidQuery (userId req));
          if bool_decide (0 < length buidResult)%nat then
            let buidList := (λ r, field r "BUID") <$> buidResult in
            businessData ← executeQuery (businessQueryScoped buidList (vertical req));
            Some (store businessData)
          else
            Some (mkRes 404 (Error "No matching BUID found"), c1) in
      default (mkRes 500 (Error "Internal server error"), c1) try
  end.
End handler.

(** *** The relational store behind [executeQuery] *)

Record AnalyticsGroup := mkGroup {
  ANALYTICS_GROUP_ID : Z; ANALYTICS_GROUP_LEVEL_NAME : string }.
Record Vertical := mkVertical { V_VID : Z; VNAME : string; VSTATUS : string }.
Record Business := mkBusiness {
  B_BUID : Z; BUNAME : string; B_VID : Z; BUSTATUS : string }.
Record UserGroup := mkUserGroup { USERID : Z; UG_BUID : option Z }.
Record UserBusiness := mkUserBusiness { UB_USERID : Z; UB_BUID : Z }.

Record Database := mkDb {
  ANALYTICS_GROUPS : list AnalyticsGroup;
  VERTICAL : list Vertical;
  BUSINESS : list Business;
  USERGROUPS : list UserGroup;
  USERBUSINESS : list UserBusiness
}.

(** [SELECT DISTINCT name ... ORDER BY name ASC], one column. *)
Definition distinct_sorted (column : string) (names : list string) : list row :=
  (λ n, ({[ column := VStr n ]} : row))
    <$> merge_sort (λ a b, Is_true (String.leb a b)) (remove_dups names).

(** [FROM BUSINESS B JOIN VERTICAL V ON B.VID = V.VID
     WHERE V.VNAME = @vertical AND B.BUSTATUS = 'ACTIVE'] *)
Definition active_in_vertical (db : Database) (vertical : string) : list Business :=
  b ← BUSINESS db;
  v ← VERTICAL db;
  if bool_decide (B_VID b = V_VID v ∧ VNAME v = vertical ∧ BUSTATUS b = "ACTIVE")
  then [b] else [].

(** The values of an [IN (...)] list read back from the spliced text: the
    text is a list of integers only if every value was one. *)
Definition in_list (vs : list value) : option (list Z) :=
  match vs with
  | [] => None
  | _ => mapM (λ v, match v with VInt z => Some z | _ => None end) vs
  end.

Definition of_nullable (o : option Z) : value :=
  match o with Some z => VInt z | None => VNull end.

Definition run_query (db : Database) (q : query) : option (list row) :=
  match q with
  | groupQuery bucketId =>
      Some ((λ g, ({[ "ANALYTICS_GROUP_LEVEL_NAME" :=
                        VStr (ANALYTICS_GROUP_LEVEL_NAME g) ]} : row))
              <$> filter (λ g, ANALYTICS_GROUP_ID g = bucketId) (ANALYTICS_GROUPS db))
  | businessQuery vertical =>
      Some (distinct_sorted "BUNAME" (BUNAME <$> active_in_vertical db vertical))
  | buidQuery userId =>
      Some ((λ b, ({[ "BUID" := of_nullable b ]} : row))
              <$> remove_dups (UG_BUID <$> filter (λ u, USERID u = userId) (USERGROUPS db)))
  | businessQueryScoped buidList vertical =>
      ids ← in_list buidList;
      Some (distinct_sorted "BUNAME"
              (BUNAME <$> filter (λ b, B_BUID b ∈ ids) (active_in_vertical db vertical)))
  end.

(** Following the spec's words, for comparison with the handler: "the
    unrestricted full business list for the caller's authorization scope",
    that is the handler's own query of the path taken, without the
    restriction on the vertical name. *)
Definition active_joined (db : Database) : list Business :=
  b ← BUSINESS db;
  v ← VERTICAL db;
  if bool_decide (B_VID b = V_VID v ∧ BUSTATUS b = "ACTIVE") then [b] else [].

Definition spec_unrestricted_businesses (db : Database) (req : FilterData)
    : option (list row) :=
  groupResult ← run_query db (groupQuery (bucketId req));
  if group_security groupResult then
    Some (distinct_sorted "BUNAME" (BUNAME <$> active_joined db))
  else
    buidResult ← run_query db (buidQuery (userId req));
    ids ← in_list ((λ r, field r "BUID") <$> buidResult);
    Some (distinct_sorted "BUNAME"
            (BUNAME <$> filter (λ b, B_BUID b ∈ ids) (active_joined db))).

(** [optimizedQueries.getBusiness] of the server performance module:
    [WHERE UB.USERID = @userId AND (@vertical = 'All' OR B.VID IN
     (SELECT VID FROM VERTICAL WHERE VNAME = @vertical))]. *)
Definition optimized_getBusiness (db : Database) (userId : Z) (vertical : string)
    : list row :=
  distinct_sorted "BUNAME"
    (BUNAME <$>
      (b ← BUSINESS db;
       ub ← USERBUSINESS db;
       if bool_decide (B_BUID b = UB_BUID ub ∧ UB_USERID ub = userId ∧
            (vertical = "All" ∨
             B_VID b ∈ V_VID <$> filter (λ v, VNAME v = vertical) (VERTICAL db)))
       then [b] else [])).

(** A small store: bucket 1 is under group security, bucket 2 is not;
    user 7 is tied to two businesses, user 99 to none. *)
Definition example_db : Database :=
  {| ANALYTICS_GROUPS := [mkGroup 1 "GROUP SECURITY"; mkGroup 2 "USER LEVEL"];
     VERTICAL := [mkVertical 10 "Energy" "ACTIVE"; mkVertical 11 "Logistics" "ACTIVE"];
     BUSINESS := [mkBusiness 100 "Power Generation" 10 "ACTIVE";
                  mkBusiness 101 "Coal Mining" 10 "ACTIVE";
                  mkBusiness 102 "Ports" 11 "ACTIVE";
                  mkBusiness 103 "Old Mine" 10 "CLOSED"];
     USERGROUPS := [mkUserGroup 7 (Some 100); mkUserGroup 7 (Some 102)];
     USERBUSINESS := [mkUserBusiness 7 100; mkUserBusiness 7 102] |}.

Definition names (column : string) (l : list string) : list row :=
  (λ n, ({[ column := VStr n ]} : row)) <$> l.

End Routes.

(** ** Client side: the hook useDashboardData *)

Module UseDashboardData.

Record FilterState := mkFilters {
  vertical : string; business : string; site : string;
  year : string; month : string; date : string
}.

(** [keyof FilterState] *)
Inductive key := KVertical | KBusiness | KSite | KYear | KMonth | KDate.

Definition initialFilters : FilterState := mkFilters "" "" "" "" "" "".

(** The [queryKey]s of the five [useQuery] calls. *)
Inductive queryKey :=
| QVertical (bucketId userId : Z)
| QBusiness (bucketId userId : Z) (vertical : string)
| QSite (bucketId userId : Z) (business : string)
| QYears
| QMonths (year : string).

(** The functions handed to [debounce].  They are created once
    ([useCallback] with no dependencies), so the [filters] they read is
    the one of the first render; [prev] is the state [setFilters] passes
    to its updater. *)
Definition debouncedUpdateBusiness_body (filters : FilterState)
    (v : string) (prev : FilterState) : FilterState :=
  if decide (v ≠ vertical filters)
  then mkFilters v "" "" (year prev) (month prev) (date prev)
  else prev.

Definition debouncedUpdateSite_body (filters : FilterState)
    (b : string) (prev : FilterState) : FilterState :=
  if decide (b ≠ business filters)
  then mkFilters (vertical prev) b "" (year prev) (month prev) (date prev)
  else prev.

Definition debouncedUpdateMonth_body (filters : FilterState)
    (y : string) (prev : FilterState) : FilterState :=
  if decide (y ≠ year filters)
  then mkFilters (vertical prev) (business prev) (site prev) y "" ""
  else prev.

(** [setFilters(prev => ({ ...prev, [key]: value }))] *)
Definition setField (k : key) (value : string) (prev : FilterState) : FilterState :=
  match k with
  | KVertical => mkFilters value (business prev) (site prev) (year prev) (month prev) (date prev)
  | KBusiness => mkFilters (vertical prev) value (site prev) (year prev) (month prev) (date prev)
  | KSite => mkFilters (vertical prev) (business prev) value (year prev) (month prev) (date prev)
  | KYear => mkFilters (vertical prev) (business prev) (site prev) value (month prev) (date prev)
  | KMonth => mkFilters (vertical prev) (business prev) (site prev) (year prev) value (date prev)
  | KDate => mkFilters (vertical prev) (business prev) (site prev) (year prev) (month prev) value
  end.

Section hook.
(** [T]: what [frontendCache] stores; [D]: what a query resolves to. *)
Context {T D : Type}.

(** The state the hook works on: its [useState] cells, the page-wide
    [frontendCache], the results the query client holds per [queryKey],
    and the three debounced functions. *)
Record state := mk {
  filters : FilterState;
  bucketId : Z;
  userId : Z;
  frontendCache : FrontendCache.t T;
  queryCache : queryKey → option D;
  dBusiness : Debounce.state string;
  dSite : Debounce.state string;
  dMonth : Debounce.state string
}.

Definition with_filters (f : FilterState → FilterState) (st : state) : state :=
  mk (f (filters st)) (bucketId st) (userId st) (frontendCache st) (queryCache st)
     (dBusiness st) (dSite st) (dMonth st).

(** The keys and the [enabled] flags of the dependent queries. *)
Definition businessKey (st : state) : queryKey :=
  QBusiness (bucketId st) (userId st) (vertical (filters st)).
Definition siteKey (st : state) : queryKey :=
  QSite (bucketId st) (userId st) (business (filters st)).
Definition monthsKey (st : state) : queryKey := QMonths (year (filters st)).

Definition businessEnabled (st : state) : bool :=
  bool_decide (vertical (filters st) ≠ "") && bool_decide (vertical (filters st) ≠ "All").
Definition siteEnabled (st : state) : bool :=
  bool_decide (business (filters st) ≠ "") && bool_decide (business (filters st) ≠ "All").
Definition monthsEnabled (st : state) : bool :=
  bool_decide (year (filters st) ≠ "").

(** [data.business]: [businessData?.data || []] is read under the
    current key. *)
Definition businessData (st : state) : option D := queryCache st (businessKey st).
Definition siteData (st : state) : option D := queryCache st (siteKey st).

Definition updateFilter (k : key) (value : string) (now : Z) (st : state) : state :=
  match k with
  | KVertical =>
      mk (filters st) (bucketId st) (userId st) (frontendCache st) (queryCache st)
         (Debounce.executedFunction 300 (dBusiness st) value now) (dSite st) (dMonth st)
  | KBusiness =>
      mk (filters st) (bucketId st) (userId st) (frontendCache st) (queryCache st)
         (dBusiness st) (Debounce.executedFunction 300 (dSite st) value now) (dMonth st)
  | KYear =>
      mk (filters st) (bucketId st) (userId st) (frontendCache st) (queryCache st)
         (dBusiness st) (dSite st) (Debounce.executedFunction 300 (dMonth st) value now)
  | _ => with_filters (setField k value) st
  end.

(** A timer of the vertical debouncer runs: [later] calls the debounced
    body with the captured value. *)
Definition fireBusiness (h : nat) (now : Z) (st : state) : option state :=
  '(calls, d) ← Debounce.fire (dBusiness st) h now;
  Some (mk (foldl (λ f v, debouncedUpdateBusiness_body initialFilters v f)
                  (filters st) calls)
           (bucketId st) (userId st) (frontendCache st) (queryCache st)
           d (dSite st) (dMonth st)).

(** [refreshData]: the cache object is cleared and three queries are
    refetched. *)
Definition refreshData (st : state) : state * list queryKey :=
  (mk (filters st) (bucketId st) (userId st)
      (FrontendCache.clear (frontendCache st)) (queryCache st)
      (dBusiness st) (dSite st) (dMonth st),
   [businessKey st; siteKey st; monthsKey st]).

End hook.
Global Arguments state : clear implicits.
End UseDashboardData.

(** ** Client side: the component IndexChairmanDaily *)

Module IndexChairmanDaily.
Import Routes.

(** The module-level [cache] and its two accessors. *)
Record CachedEntry := mkEntry { entry_data : list row; timestamp : Z }.

Definition CACHE_DURATION : Z := 300000.

Definition getCachedData (cache : gmap string CachedEntry) (k : string) (now : Z)
    : option (list row) :=
  match cache !! k with
  | Some cached =>
      if bool_decide (now - timestamp cached < CACHE_DURATION)
      then Some (entry_data cached) else None
  | None => None
  end.

Definition setCachedData (cache : gmap string CachedEntry) (k : string)
    (d : list row) (now : Z) : gmap string CachedEntry :=
  <[k := mkEntry d now]> cache.

Record Metrics := mkMetrics {
  loadTime : Z; filterChanges : nat; cacheHits : nat; apiCalls : nat }.

(** The [useState] cells; each is a JS object with string keys. *)
Record state := mk {
  filters : gmap string string;
  data : gmap string (list row);
  loading : gmap string bool;
  cached : gmap string bool;
  metrics : Metrics
}.

Record world := mkWorld { component : state; cache : gmap string CachedEntry }.

(** The initial values of the [useState] calls. *)
Definition initial : state :=
  {| filters := list_to_map [("vertical", ""); ("business", ""); ("site", "");
                             ("year", "2024"); ("month", "1"); ("date", "")];
     data := list_to_map [("vertical", []); ("business", []); ("site", []);
                          ("years", []); ("months", [])];
     loading := list_to_map [("vertical", false); ("business", false); ("site", false);
                             ("years", false); ("months", false)];
     cached := list_to_map [("vertical", false); ("business", false); ("site", false);
                            ("years", false); ("months", false)];
     metrics := mkMetrics 0 0 0 0 |}.

(** A call [fetchData(type, ...args)]. *)
Record request := mkRequest { type : string; args : list value }.

(** How [await mockApiCalls[type](...args)] ends. *)
Inductive outcome :=
| Resolved (result : list row) (fromCache : bool)
| Rejected.

(** [fetchData] up to its [await]: [setLoading]. *)
Definition fetchData_start (st : state) (r : request) : state :=
  mk (filters st) (data st) (<[type r := true]> (loading st)) (cached st) (metrics st).

(** [fetchData] after its [await]: the [try] branch or the [catch] branch,
    then [finally]. *)
Definition fetchData_settle (st : state) (ro : request * outcome) : state :=
  match ro.2 with
  | Resolved result fromCache =>
      mk (filters st)
         (<[type ro.1 := result]> (data st))
         (<[type ro.1 := false]> (loading st))
         (<[type ro.1 := fromCache]> (cached st))
         (mkMetrics (loadTime (metrics st)) (filterChanges (metrics st))
            (if fromCache then S (cacheHits (metrics st)) else cacheHits (metrics st))
            (S (apiCalls (metrics st))))
  | Rejected =>
      mk (filters st)
         (<[type ro.1 := []]> (data st))
         (<[type ro.1 := false]> (loading st))
         (cached st) (metrics st)
  end.

(** [value && value !== 'All'] *)
Definition selectable (value : string) : bool :=
  bool_decide (value ≠ "") && bool_decide (value ≠ "All").

(** [filters.x && filters.x !== 'All'] on a property that may be missing. *)
Definition selected (filters : gmap string string) (k : string) : option string :=
  match filters !! k with
  | Some value => if selectable value then Some value else None
  | None => None
  end.

(** The function handed to [debounce] in [debouncedUpdateFilter], up to
    its first [await]: the new state and the fetch it starts. *)
Definition debouncedUpdateFilter_body (k value : string) (st : state)
    : state * option request :=
  let st1 :=
    mk (<[k := value]> (filters st)) (data st) (loading st) (cached st)
       (mkMetrics (loadTime (metrics st)) (S (filterChanges (metrics st)))
          (cacheHits (metrics st)) (apiCalls (metrics st))) in
  let start st r := (fetchData_start st r, Some r) in
  if decide (k = "vertical") then
    let st2 :=
      mk (<["site" := ""]> (<["business" := ""]> (filters st1)))
         (<["site" := []]> (<["business" := []]> (data st1)))
         (loading st1) (cached st1) (metrics st1) in
    if selectable value
    then start st2 (mkRequest "getBusiness" [VInt 1; VInt 1; VStr value])
    else (st2, None)
  else if decide (k = "business") then
    let st2 :=
      mk (<["site" := ""]> (filters st1)) (<["site" := []]> (data st1))
         (loading st1) (cached st1) (metrics st1) in
    if selectable value
    then start st2 (mkRequest "getSite" [VInt 1; VInt 1; VStr value])
    else (st2, None)
  else if decide (k = "year") then
    start st1 (mkRequest "getMonths" [VStr value])
  else (st1, None).

(** The whole body on the world: the module-level [cache] is not among
    the things it names. *)
Definition debouncedUpdateFilter (k value : string) (w : world)
    : world * option request :=
  let '(st, r) := debouncedUpdateFilter_body k value (component w) in
  (mkWorld st (cache w), r).

(** The fetches [refreshAllData] pushes on [refreshPromises]. *)
Definition refreshPromises (filters : gmap string string) : list request :=
  [mkRequest "getVertical" [VInt 1; VInt 1]; mkRequest "getYears" []]
  ++ match selected filters "vertical" with
     | Some v => [mkRequest "getBusiness" [VInt 1; VInt 1; VStr v]]
     | None => []
     end
  ++ match selected filters "business" with
     | Some b => [mkRequest "getSite" [VInt 1; VInt 1; VStr b]]
     | None => []
     end
  ++ match filters !! "year" with
     | Some y => if bool_decide (y ≠ "") then [mkRequest "getMonths" [VStr y]] else []
     | None => []
     end.

(** [refreshAllData] up to [await Promise.all]: the cache is emptied and
    every fetch is started. *)
Definition refreshAllData (w : world) : world * list request :=
  let rs := refreshPromises (filters (component w)) in
  (mkWorld (foldl fetchData_start (component w) rs) ∅, rs).

(** The fetches settle one by one, in whatever order the replies come. *)
Definition settle_all (st : state) (replies : list (request * outcome)) : state :=
  foldl fetchData_settle st replies.

End IndexChairmanDaily.

(** ** Both layers together *)

Module System.
Import Routes.

(** One browser page running the hook and the server process it talks to. *)
Record system := mk {
  client : UseDashboardData.state (list row) (list row);
  server : CacheManager.t (list row)
}.

(** The manual refresh followed by the server's answer to the business
    refetch it issues. *)
Definition refresh_business (executeQuery : query → option (list row))
    (now : Z) (sys : system) : response * list UseDashboardData.queryKey * system :=
  let '(cl, fetched) := UseDashboardData.refreshData (client sys) in
  let req := mkReq (UseDashboardData.bucketId cl) (UseDashboardData.userId cl)
                   (UseDashboardData.vertical (UseDashboardData.filters cl)) in
  let '(res, srv) := getBusiness executeQuery req now now (server sys) in
  (res, fetched, mk cl srv).

End System.

(** ** The throttle utilities (server performance module and utils/performance.jsx) *)

Module Throttle.
Section defs.
Context {A : Type}.

(** What one throttled function owns: the closure variable [inThrottle]
    ([undefined] reads as false) and the due instants of the callbacks
    [() => inThrottle = false] still to run; and, of the code that is running,
    the number of runs of [func] started by the throttled function that have
    not ended yet. *)
Record state := mk { inThrottle : bool; pending : list Z; running : nat }.

Definition init : state := {| inThrottle := false; pending := []; running := 0 |}.

(** The returned function up to [func.apply(this, args)]: with the flag up it
    returns at once; with the flag down [func] starts, the flag still
    down. *)
Definition call (st : state) (args : A) : list A * state :=
  if inThrottle st then ([], st)
  else ([args], {| inThrottle := inThrottle st; pending := pending st;
                   running := S (running st) |}).

(** [func] has returned: [inThrottle = true; setTimeout(..., limit)]. *)
Definition returned (limit : Z) (st : state) (now : Z) : option state :=
  match running st with
  | O => None
  | S n => Some {| inThrottle := true; pending := pending st ++ [now + limit];
                   running := n |}
  end.

(** [func] has thrown: the exception leaves the returned function, and the
    two statements after the call do not run. *)
Definition thrown (st : state) : option state :=
  match running st with
  | O => None
  | S n => Some {| inThrottle := inThrottle st; pending := pending st; running := n |}
  end.

(** The event loop runs the [i]-th pending callback, from its due instant
    on, and only when no code is running. *)
Definition fire (st : state) (i : nat) (now : Z) : option state :=
  match running st, pending st !! i with
  | O, Some due =>
      if bool_decide (due ≤ now)
      then Some {| inThrottle := false; pending := base.delete i (pending st);
                   running := 0 |}
      else None
  | _, _ => None
  end.

(** A history: calls of the throttled function (also from inside [func]),
    ends of runs of [func], innermost first, and runs of callbacks. *)
Inductive event :=
| Call (args : A)
| Return
| Throw
| Fire (i : nat).

Definition step (limit : Z) (st : state) (e : event) (now : Z)
    : option (list A * state) :=
  match e with
  | Call args => Some (call st args)
  | Return => st' ← returned limit st now; Some ([], st')
  | Throw => st' ← thrown st; Some ([], st')
  | Fire i => st' ← fire st i now; Some ([], st')
  end.

(** The clock of a history never goes back; the result lists the calls of
    [func] with the instants at which they were made. *)
Fixpoint run (limit : Z) (tr : list (event * Z)) (clock : Z) (st : state)
    : option (list (A * Z) * state) :=
  match tr with
  | [] => Some ([], st)
  | (e, now) :: tr' =>
      if bool_decide (clock ≤ now) then
        match step limit st e now with
        | Some (out, st1) =>
            match run limit tr' now st1 with
            | Some (outs, st2) => Some (((λ a, (a, now)) <$> out) ++ outs, st2)
            | None => None
            end
        | None => None
        end
      else None
  end.

Fixpoint calls_of (tr : list (event * Z)) : list (A * Z) :=
  match tr with
  | [] => []
  | (Call args, now) :: tr' => (args, now) :: calls_of tr'
  | (_, _) :: tr' => calls_of tr'
  end.

(** A history in which [func] always returns and never calls the throttled
    function itself: no [Throw], and no [Call] while a run of [func] is in
    progress. *)
Fixpoint orderly (limit : Z) (tr : list (event * Z)) (st : state) : Prop :=
  match tr with
  | [] => True
  | (e, now) :: tr' =>
      match e with
      | Call _ => running st = 0%nat
      | Throw => False
      | _ => True
      end ∧
      match step limit st e now with
      | Some (_, st') => orderly limit tr' st'
      | None => True
      end
  end.

(** No call of [func] before [lo], and at least [limit] between two calls. *)
Fixpoint spaced (limit : Z) (lo : Z) (outs : list (A * Z)) : Prop :=
  match outs with
  | [] => True
  | (_, t) :: outs' => lo ≤ t ∧ spaced limit (t + limit) outs'
  end.

(** The states of an orderly history: idle; [func] running, started no
    earlier than [lo - limit]; or the flag up with its one callback due at
    [lo] or later. *)
Definition inv (limit lo clock : Z) (st : state) : Prop :=
  (inThrottle st = false ∧ pending st = [] ∧ running st = 0%nat ∧ lo ≤ clock) ∨
  (inThrottle st = false ∧ pending st = [] ∧ running st = 1%nat ∧ lo ≤ clock + limit) ∨
  (∃ due, inThrottle st = true ∧ pending st = [due] ∧ running st = 0%nat ∧ lo ≤ due).

End defs.
Global Arguments state : clear implicits.
Global Arguments event : clear implicits.
End Throttle.

(** ** Server performance module: class PerformanceMonitor *)

Module PerformanceMonitor.
Section defs.
(** [N]: the numbers passed to [recordQueryTime]. *)
Context {N : Type}.

Record t := mk {
  apiCalls : nat;
  cacheHits : nat;
  cacheMisses : nat;
  queryTimes : list N;
  errors : nat
}.

Definition constructor : t := mk 0 0 0 [] 0.

Definition recordApiCall (m : t) : t :=
  mk (S (apiCalls m)) (cacheHits m) (cacheMisses m) (queryTimes m) (errors m).
Definition recordCacheHit (m : t) : t :=
  mk (apiCalls m) (S (cacheHits m)) (cacheMisses m) (queryTimes m) (errors m).
Definition recordCacheMiss (m : t) : t :=
  mk (apiCalls m) (cacheHits m) (S (cacheMisses m)) (queryTimes m) (errors m).
Definition recordError (m : t) : t :=
  mk (apiCalls m) (cacheHits m) (cacheMisses m) (queryTimes m) (S (errors m)).

(** [push(time)], then [shift()] when more than 100 are held. *)
Definition recordQueryTime (m : t) (time : N) : t :=
  let pushed := queryTimes m ++ [time] in
  mk (apiCalls m) (cacheHits m) (cacheMisses m)
     (if bool_decide (100 < length pushed)%nat then tail pushed else pushed)
     (errors m).

Definition reset (m : t) : t := constructor.

End defs.
Global Arguments t : clear implicits.
End PerformanceMonitor.

(** ** Counting the events of a history *)

Module History.
Section defs.
Context {T : Type}.

Definition is_get (e : FrontendCache.event T * Z) : bool :=
  match e.1 with FrontendCache.EGet _ => true | _ => false end.
Definition is_set (e : FrontendCache.event T * Z) : bool :=
  match e.1 with FrontendCache.ESet _ _ _ => true | _ => false end.
Definition is_fire (e : FrontendCache.event T * Z) : bool :=
  match e.1 with FrontendCache.EFire _ => true | _ => false end.
Definition is_clear (e : FrontendCache.event T * Z) : bool :=
  match e.1 with FrontendCache.EClear => true | _ => false end.

Definition count (p : FrontendCache.event T * Z → bool)
    (tr : list (FrontendCache.event T * Z)) : nat :=
  length (filter (λ e, p e = true) tr).

(** The timer registered for an entry when it was stored. *)
Definition timer_of (key : string) (item : FrontendCache.CacheItem T)
    : FrontendCache.Timer :=
  FrontendCache.mkTimer (FrontendCache.timestamp item + FrontendCache.ttl item) key.

(** Every entry still has the timer that was registered when it was stored. *)
Definition timed (w : FrontendCache.world T) : Prop :=
  ∀ k item, FrontendCache.cache (FrontendCache.self w) !! k = Some item →
            timer_of k item ∈ FrontendCache.timers w.

(** A call that leaves the entry of [key] in place when that entry lives
    until [bound]: a read made at [bound] or before, or a store under another
    key.  [clear()] and the runs of timers are not among them. *)
Definition leaves (key : string) (bound : Z) (e : FrontendCache.event T * Z) : Prop :=
  match e with
  | (FrontendCache.ESet k _ _, _) => k ≠ key
  | (FrontendCache.EGet _, t) | (FrontendCache.EHas _, t) => t ≤ bound
  | (FrontendCache.EClear, _) | (FrontendCache.EFire _, _) => False
  end.

(** Stores of [n] distinct keys, the decimal numerals from [s] on. *)
Definition fill (d : T) (s n : nat) : list (FrontendCache.event T * Z) :=
  (λ i : nat, (FrontendCache.ESet (pretty i) d 1000, Z.of_nat i)) <$> seq s n.

(** Every [set] of the history passes a delay that [setTimeout] takes as
    given. *)
Definition delays_as_given (tr : list (FrontendCache.event T * Z)) : Prop :=
  Forall (λ e, match e.1 with
               | FrontendCache.ESet _ _ dur => Timer.as_given dur
               | _ => True
               end) tr.

End defs.

(** A history of one page: two stores of "k", a read of it, a store of "j",
    the first timer, a read of "z". *)
Definition sample_history : list (FrontendCache.event nat * Z) :=
  [(FrontendCache.ESet "k" 1%nat 100, 0); (FrontendCache.ESet "k" 2%nat 1000, 50);
   (FrontendCache.EGet "k", 60); (FrontendCache.EHas "k", 70);
   (FrontendCache.ESet "j" 3%nat 500, 80); (FrontendCache.EFire 0, 100);
   (FrontendCache.EGet "z", 110)].

End History.

(** ** An invariant of CacheManager *)

Module CacheManagerInv.
Section defs.
Context {V : Type}.

(** The two maps hold the same keys. *)
Definition sync (st : CacheManager.t V) : Prop :=
  ∀ k, is_Some (JSMap.get (CacheManager.cache st) k) ↔ is_Some (CacheManager.ttl st !! k).

(** The keys that come after [key] in the order of the [Map]: the ones
    inserted later. *)
Fixpoint after (key : string) (ks : list string) : list string :=
  match ks with
  | [] => []
  | k :: ks' => if decide (k = key) then ks' else after key ks'
  end.

Definition is_set (e : CacheManager.op V * Z) : bool :=
  match e.1 with CacheManager.Set_ _ _ _ => true | _ => false end.


(** The cache holds [d] under [key] until [expiry], and at most [n] keys
    were inserted after it. *)
Definition holds (key : string) (d : V) (expiry : Z) (n : nat)
    (st : CacheManager.t V) : Prop :=
  CacheManager.wf st ∧
  JSMap.get (CacheManager.cache st) key = Some d ∧
  CacheManager.ttl st !! key = Some expiry ∧
  (length (after key (JSMap.keys (CacheManager.cache st))) ≤ n)%nat.

End defs.
End CacheManagerInv.

(** ** Histories of a debounced function *)

Module DebounceHistory.
Section defs.
Context {A : Type}.

(** What the timer of a call with arguments [a] passes to [func] when it
    runs: nothing with [immediate], [a] otherwise. *)
Definition timer_calls (var : Debounce.variant) (a : A) : list A :=
  match var with Debounce.Perf true => [] | _ => [a] end.

(** Calls [(a, t, t')] made at [t], each followed by the run of its own
    timer at [t']; [h] is the handle of the first timer. *)
Fixpoint spaced_history (h : nat) (cs : list (A * Z * Z)) : list (Debounce.event A * Z) :=
  match cs with
  | [] => []
  | (a, t, t') :: cs' =>
      (Debounce.Call a, t) :: (Debounce.Fire h, t') :: spaced_history (S h) cs'
  end.

(** Each timer runs when it is due or later, and before the next call. *)
Fixpoint well_spaced (wait : Z) (clock : Z) (cs : list (A * Z * Z)) : Prop :=
  match cs with
  | [] => True
  | (_, t, t') :: cs' => clock ≤ t ∧ t ≤ t' ∧ t + wait ≤ t' ∧ well_spaced wait t' cs'
  end.

(** Reading a history by its bursts: a burst is a run of calls ended by the
    run of a timer.  [settled last tr] lists, for every timer run of [tr], the
    call that was the latest before it, with the instant of that call and the
    instant of the run; [last] is the latest call not yet followed by a timer
    run when [tr] begins. *)
Fixpoint settled (last : option (A * Z)) (tr : list (Debounce.event A * Z))
    : list (A * Z * Z) :=
  match tr with
  | [] => []
  | (Debounce.Call a, now) :: tr' => settled (Some (a, now)) tr'
  | (Debounce.Fire _, now) :: tr' =>
      match last with
      | Some (a, t) => (a, t, now) :: settled None tr'
      | None => settled None tr'
      end
  end.

(** The latest call of [tr] that no timer run follows. *)
Fixpoint waiting (last : option (A * Z)) (tr : list (Debounce.event A * Z))
    : option (A * Z) :=
  match tr with
  | [] => last
  | (Debounce.Call a, now) :: tr' => waiting (Some (a, now)) tr'
  | (Debounce.Fire _, _) :: tr' => waiting None tr'
  end.

(** The state of a debounced function whose latest unsettled call is
    [last]: the timer of that call is the one registered, or none is. *)
Definition agrees (wait : Z) (last : option (A * Z)) (st : Debounce.state A) : Prop :=
  match last with
  | Some (a, t) => Debounce.armed wait a t st
  | None => Debounce.pending st = ∅
  end.

End defs.

(** Two bursts of five calls, each ended by its timer. *)
Definition two_bursts : list (Debounce.event string * Z) :=
  [(Debounce.Call "v1", 0); (Debounce.Call "v2", 50); (Debounce.Call "v3", 100);
   (Debounce.Call "v4", 150); (Debounce.Call "v5", 200); (Debounce.Fire 5, 500);
   (Debounce.Call "w1", 1000); (Debounce.Call "w2", 1100); (Debounce.Call "w3", 1200);
   (Debounce.Call "w4", 1300); (Debounce.Call "w5", 1400); (Debounce.Fire 10, 1700)].

End DebounceHistory.

(** ** Client side: class ClientCache (utils/performance.jsx) *)

Module ClientCache.
Section defs.
(** [V]: the cached values, JSON data that [JSON.stringify] and [JSON.parse]
    return unchanged. *)
Context {V : Type}.

(** What a [localStorage] item is to this class: the text written by [set];
    a text that parses to something without an [expiry]; a text on which
    [JSON.parse] or the destructuring throws; the empty text. *)
Inductive stored :=
| Entry (value : V) (expiry : Z)
| Foreign
| Malformed
| Blank.

(** [localStorage]: its items in [key(i)] order; [broken] when every access
    throws, [full] when [setItem] throws. *)
Record Storage := mkStorage { items : JSMap.t stored; broken : bool; full : bool }.

(** The methods of [localStorage]; [None] when the call throws. *)
Definition getItem (s : Storage) (k : string) : option (option stored) :=
  if broken s then None else Some (JSMap.get (items s) k).

Definition setItem (s : Storage) (k : string) (x : stored) : option Storage :=
  if broken s || full s then None
  else Some (mkStorage (JSMap.set (items s) k x) (broken s) (full s)).

Definition removeItem (s : Storage) (k : string) : option Storage :=
  if broken s then None
  else Some (mkStorage (JSMap.delete (items s) k) (broken s) (full s)).

Record t := mk {
  prefix : string;
  memoryCache : gmap string V;
  ttl : gmap string Z;
  defaultTTL : Z
}.

Definition generateKey (c : t) (key : string) : string := prefix c +:+ key.

(** [key && key.startsWith(this.prefix)] *)
Definition ours (c : t) (k : string) : bool :=
  bool_decide (k ≠ "") && String.prefix (prefix c) k.

Definition remember (c : t) (fullKey : string) (value : V) (expiry : Z) : t :=
  mk (prefix c) (<[fullKey := value]> (memoryCache c)) (<[fullKey := expiry]> (ttl c))
     (defaultTTL c).

Definition forget (c : t) (fullKey : string) : t :=
  mk (prefix c) (base.delete fullKey (memoryCache c)) (base.delete fullKey (ttl c))
     (defaultTTL c).

(** [try { localStorage.removeItem(k) } catch (e) { ... }] *)
Definition try_remove (s : Storage) (k : string) : Storage := default s (removeItem s k).

Definition set (c : t) (s : Storage) (key : string) (value : V) (dur now : Z)
    : t * Storage :=
  let fullKey := generateKey c key in
  let expiry := now + dur in
  (remember c fullKey value expiry,
   default s (setItem s fullKey (Entry value expiry))).

Definition delete (c : t) (s : Storage) (key : string) : t * Storage :=
  (forget c (generateKey c key), try_remove s (generateKey c key)).

(** [Date.now() <= expiry], false for a missing expiry. *)
Definition live (expiry : option Z) (now : Z) : bool :=
  match expiry with Some e => bool_decide (now ≤ e) | None => false end.

Definition get (c : t) (s : Storage) (key : string) (now : Z)
    : option V * (t * Storage) :=
  let fullKey := generateKey c key in
  match memoryCache c !! fullKey with
  | Some value =>
      if live (ttl c !! fullKey) now then (Some value, (c, s))
      else (None, delete c s key)
  | None =>
      match getItem s fullKey with
      | Some (Some (Entry value expiry)) =>
          if bool_decide (now ≤ expiry)
          then (Some value, (remember c fullKey value expiry, s))
          else (None, (c, try_remove s fullKey))
      | Some (Some Foreign) => (None, (c, try_remove s fullKey))
      | Some (Some Malformed) | Some (Some Blank) | Some None | None => (None, (c, s))
      end
  end.

(** [this.get(key) !== null] *)
Definition has (c : t) (s : Storage) (key : string) (now : Z) : bool * (t * Storage) :=
  let '(r, cs) := get c s key now in (bool_decide (is_Some r), cs).

Definition clear (c : t) (s : Storage) : t * Storage :=
  (mk (prefix c) ∅ ∅ (defaultTTL c),
   if broken s then s
   else
     let keysToRemove := filter (λ k, ours c k = true) (JSMap.keys (items s)) in
     foldl try_remove s keysToRemove).

Definition cleanup (c : t) (s : Storage) (now : Z) : t * Storage :=
  let expiredKeys := (map_to_list (filter (λ kv, now > kv.2) (ttl c))).*1 in
  foldl (λ cs k, (forget cs.1 k, try_remove cs.2 k)) (c, s) expiredKeys.

(** The loop of [restoreFromStorage] from index [i]; [fuel] bounds the
    iterations, and the number of items at the start is enough, as [i] grows
    and the number of items does not.  A throw ends the loop. *)
Fixpoint restore_loop (fuel i : nat) (c : t) (s : Storage) (now : Z) : t * Storage :=
  match fuel with
  | O => (c, s)
  | S fuel' =>
      match JSMap.keys (items s) !! i with
      | None => (c, s)
      | Some k =>
          if ours c k then
            match JSMap.get (items s) k with
            | Some (Entry value expiry) =>
                if bool_decide (now ≤ expiry)
                then restore_loop fuel' (S i) (remember c k value expiry) s now
                else restore_loop fuel' (S i) c (try_remove s k) now
            | Some Foreign => restore_loop fuel' (S i) c (try_remove s k) now
            | Some Malformed => (c, s)
            | Some Blank | None => restore_loop fuel' (S i) c s now
            end
          else restore_loop fuel' (S i) c s now
      end
  end.

Definition restoreFromStorage (c : t) (s : Storage) (now : Z) : t * Storage :=
  if broken s then (c, s)
  else restore_loop (length (items s)) 0 c s now.

(** [new ClientCache(prefix)] at instant [now], over the storage of the
    page. *)
Definition constructor (pre : string) (s : Storage) (now : Z) : t * Storage :=
  restoreFromStorage (mk pre ∅ ∅ (5 * 60 * 1000)) s now.

(** What holds between the memory and the storage while [restoreFromStorage]
    runs at [now]: every value in memory is live and is the one stored. *)
Definition restored (now : Z) (c : t) (s : Storage) : Prop :=
  ∀ k value, memoryCache c !! k = Some value →
    ∃ expiry, ttl c !! k = Some expiry ∧ now ≤ expiry ∧
              JSMap.get (items s) k = Some (Entry value expiry).

(** The item of [k] is the entry [(value, expiry)], or it has been removed
    after its expiry. *)
Definition kept (now : Z) (k : string) (value : V) (expiry : Z) (s : Storage) : Prop :=
  JSMap.get (items s) k = Some (Entry value expiry) ∨
  (now > expiry ∧ JSMap.get (items s) k = None).

End defs.
Global Arguments stored : clear implicits.
Global Arguments Storage : clear implicits.
Global Arguments t : clear implicits.
End ClientCache.

(** A page storage with an expired item of this cache, an item of someone
    else, and a live item of this cache. *)
Definition sample_storage : ClientCache.Storage nat :=
  ClientCache.mkStorage
    [("dashboard_cache_old", ClientCache.Entry 1%nat 10);
     ("theme", ClientCache.Foreign);
     ("dashboard_cache_live", ClientCache.Entry 2%nat 5000)]
    false false.

(** ** Server side: the other routes of server/routes.ts *)

Module Handlers.
Import Routes.

(** The SQL texts of the four other handlers, by shape and interpolated
    values. *)
Inductive query :=
| groupQuery (bucketId : Z)
| verticalQuery
| vidQuery (userId : Z)
| verticalQueryScoped (vidList : list value)
| siteQuery (Business : string)
| siidQuery (userId : Z)
| siteQueryScoped (siidList : list value) (Business : string)
| yearsQuery
| monthsQuery (year : string).

Record VerticalBody := mkVerticalBody { v_bucketId : Z; v_userId : Z }.
Record SiteBody := mkSiteBody { s_bucketId : Z; s_userId : Z; Business : string }.

Definition verticalKey (req : VerticalBody) : string :=
  "vertical_" +:+ pretty (v_bucketId req) +:+ "_" +:+ pretty (v_userId req).

Definition siteKey (req : SiteBody) : string :=
  "site_" +:+ pretty (s_bucketId req) +:+ "_" +:+ pretty (s_userId req)
    +:+ "_" +:+ Business req.

Definition yearsKey : string := "years_data".

Definition monthsKey (year : string) : string := "months_" +:+ year.

Definition internal_error : response := mkRes 500 (Error "Internal server error").

Section handlers.
Context {C : Type} `{!CacheService C}.
Context (executeQuery : query → option (list row)).

(** POST /api/dashboard/getVertical *)
Definition getVertical (req : VerticalBody) (t_get t_set : Z) (c : C) : response * C :=
  let '(cachedData, c1) := svc_get c (verticalKey req) t_get in
  match cachedData with
  | Some d => (mkRes 200 (Data d true), c1)
  | None =>
      let store verticalData :=
        (mkRes 200 (Data verticalData false),
         svc_set c1 (verticalKey req) verticalData 600000 t_set) in
      let try : option (response * C) :=
        groupResult ← executeQuery (groupQuery (v_bucketId req));
        if group_security groupResult then
          verticalData ← executeQuery verticalQuery;
          Some (store verticalData)
        else
          vidResult ← executeQuery (vidQuery (v_userId req));
          if bool_decide (0 < length vidResult)%nat then
            let vidList := (λ r, field r "VID") <$> vidResult in
            verticalData ← executeQuery (verticalQueryScoped vidList);
            Some (store verticalData)
          else
            Some (mkRes 404 (Error "No matching VID found"), c1) in
      default (internal_error, c1) try
  end.

(** POST /api/dashboard/getSite *)
Definition getSite (req : SiteBody) (t_get t_set : Z) (c : C) : response * C :=
  let '(cachedData, c1) := svc_get c (siteKey req) t_get in
  match cachedData with
  | Some d => (mkRes 200 (Data d true), c1)
  | None =>
      let store siteData :=
        (mkRes 200 (Data siteData false),
         svc_set c1 (siteKey req) siteData 300000 t_set) in
      let try : option (response * C) :=
        groupResult ← executeQuery (groupQuery (s_bucketId req));
        if group_security groupResult then
          siteData ← executeQuery (siteQuery (Business req));
          Some (store siteData)
        else
          siidResult ← executeQuery (siidQuery (s_userId req));
          if bool_decide (0 < length siidResult)%nat then
            let siidList := (λ r, field r "SIID") <$> siidResult in
            siteData ← executeQuery (siteQueryScoped siidList (Business req));
            Some (store siteData)
          else
            Some (mkRes 404 (Error "No matching SIID found"), c1) in
      default (internal_error, c1) try
  end.

(** GET /api/dashboard/getYearsFromSecAuto *)
Definition getYearsFromSecAuto (t_get t_set : Z) (c : C) : response * C :=
  let '(cachedData, c1) := svc_get c yearsKey t_get in
  match cachedData with
  | Some d => (mkRes 200 (Data d true), c1)
  | None =>
      match executeQuery yearsQuery with
      | Some yearData =>
          (mkRes 200 (Data yearData false), svc_set c1 yearsKey yearData 3600000 t_set)
      | None => (internal_error, c1)
      end
  end.

(** POST /api/dashboard/getMonthFromSecAuto *)
Definition getMonthFromSecAuto (year : string) (t_get t_set : Z) (c : C) : response * C :=
  let '(cachedData, c1) := svc_get c (monthsKey year) t_get in
  match cachedData with
  | Some d => (mkRes 200 (Data d true), c1)
  | None =>
      match executeQuery (monthsQuery year) with
      | Some monthData =>
          (mkRes 200 (Data monthData false),
           svc_set c1 (monthsKey year) monthData 3600000 t_set)
      | None => (internal_error, c1)
      end
  end.

End handlers.

(** What the five caching handlers have in common, for a handler result
    [r] on cache [c]: the key it works on and the time to live it stores
    with. *)
Definition stores_only_success {C : Type} `{!CacheService C}
    (key : string) (ttl : Z) (t_get t_set : Z) (c : C) (r : response * C) : Prop :=
  let c1 := (svc_get c key t_get).2 in
  (status r.1 ≠ 200 → r.2 = c1) ∧
  (∀ d, r.1 = mkRes 200 (Data d true) → r.2 = c1) ∧
  (∀ d, r.1 = mkRes 200 (Data d false) → r.2 = svc_set c1 key d ttl t_set) ∧
  (status r.1 = 200 ∨ status r.1 = 404 ∨ status r.1 = 500).





End Handlers.

(** ** The hook: the timers of the other two debounced updates *)

Module HookTimers.
Import UseDashboardData.

Section hook.
Context {T D : Type}.

(** A timer of the business debouncer runs. *)
Definition fireSite (h : nat) (now : Z) (st : state T D) : option (state T D) :=
  '(calls, d) ← Debounce.fire (dSite st) h now;
  Some (mk (foldl (λ f b, debouncedUpdateSite_body initialFilters b f)
                  (filters st) calls)
           (bucketId st) (userId st) (frontendCache st) (queryCache st)
           (dBusiness st) d (dMonth st)).

(** A timer of the year debouncer runs. *)
Definition fireMonth (h : nat) (now : Z) (st : state T D) : option (state T D) :=
  '(calls, d) ← Debounce.fire (dMonth st) h now;
  Some (mk (foldl (λ f y, debouncedUpdateMonth_body initialFilters y f)
                  (filters st) calls)
           (bucketId st) (userId st) (frontendCache st) (queryCache st)
           (dBusiness st) (dSite st) d).

End hook.
End HookTimers.

(** ** The component as it runs: effects, choices, refreshes and replies *)

Module ComponentRun.
Import Routes IndexChairmanDaily.

(** [loadInitialData]: the three fetches of the effect that runs on mount
    and whenever [filters.year] changes. *)
Definition loadInitialData (filters : gmap string string) : list request :=
  [mkRequest "getVertical" [VInt 1; VInt 1];
   mkRequest "getYears" [];
   mkRequest "getMonths" [match filters !! "year" with Some y => VStr y | None => VNull end]].

(** The component, the module-level cache, and the fetches that have been
    started and whose [await] has not returned yet. *)
Record page := mkPage { current : world; inflight : list request }.

Definition mount : page := mkPage (mkWorld initial ∅) [].

(** [setMetrics(prev => ({ ...prev, loadTime: Date.now() - loadStartTime }))] *)
Definition setLoadTime (st : state) (elapsed : Z) : state :=
  mk (filters st) (data st) (loading st) (cached st)
     (mkMetrics elapsed (filterChanges (metrics st)) (cacheHits (metrics st))
        (apiCalls (metrics st))).

Inductive event :=
| Load                          (* the initial-load effect runs *)
| Update (k value : string)     (* the timer of [debouncedUpdateFilter(k, value)] runs *)
| Refresh                       (* the refresh button *)
| Settle (i : nat) (o : outcome) (* the [i]-th fetch in flight returns *)
| Measured (elapsed : Z).       (* the timer of the performance effect runs *)

Definition step (p : page) (e : event) : option page :=
  let w := current p in
  match e with
  | Load =>
      let rs := loadInitialData (filters (component w)) in
      Some (mkPage (mkWorld (foldl fetchData_start (component w) rs) (cache w))
                   (inflight p ++ rs))
  | Update k value =>
      let '(w', r) := debouncedUpdateFilter k value w in
      Some (mkPage w' (inflight p ++ option_list r))
  | Refresh =>
      let '(w', rs) := refreshAllData w in
      Some (mkPage w' (inflight p ++ rs))
  | Settle i o =>
      r ← inflight p !! i;
      Some (mkPage (mkWorld (fetchData_settle (component w) (r, o)) (cache w))
                   (base.delete i (inflight p)))
  | Measured elapsed =>
      Some (mkPage (mkWorld (setLoadTime (component w) elapsed) (cache w)) (inflight p))
  end.

Fixpoint run (tr : list event) (p : page) : option page :=
  match tr with
  | [] => Some p
  | e :: tr => p' ← step p e; run tr p'
  end.

(** The property names the selects of the page read from [data], [loading]
    and [cached], and the names [fetchData] is called with. *)
Definition ui_keys : list string := ["vertical"; "business"; "site"; "years"; "months"].
Definition api_names : list string :=
  ["getVertical"; "getBusiness"; "getSite"; "getYears"; "getMonths"].

Definition untouched (st : state) (k : string) : Prop :=
  data st !! k = Some [] ∧ loading st !! k = Some false ∧ cached st !! k = Some false.

Definition inv (p : page) : Prop :=
  Forall (λ r, type r ∈ api_names) (inflight p) ∧
  ∀ k, k ∈ ui_keys → untouched (component (current p)) k.

(** Counting the events of a history. *)
Definition is_update (e : event) : bool :=
  match e with Update _ _ => true | _ => false end.
Definition is_resolved (e : event) : bool :=
  match e with Settle _ (Resolved _ _) => true | _ => false end.
Definition is_cache_hit (e : event) : bool :=
  match e with Settle _ (Resolved _ true) => true | _ => false end.
Definition count (f : event → bool) (tr : list event) : nat := length (filter f tr).

Definition sample_run : list event :=
  [Load; Settle 0 (Resolved [{["VNAME" := VStr "Energy"]}] true);
   Update "vertical" "Energy"; Settle 0 Rejected;
   Refresh; Settle 2 (Resolved [{["VNAME" := VStr "Energy"]}] false); Measured 2000].

End ComponentRun.

(** * Properties *)

(** ** The JS [Map] *)

Module JSMapFacts.
Import JSMap.

Section facts.
Context {V : Type}.
Implicit Types (m : JSMap.t V) (k : string) (v : V).

Lemma jsmap_get_None m k : get m k = None ↔ k ∉ keys m.
Proof.
induction m as [|[k' v'] m IH]; simpl.
- split; [intros _; apply not_elem_of_nil | done].
- case_decide as Hk; subst.
  + split; [done | intros []; left].
  + rewrite IH, not_elem_of_cons. split; [by intros ?; split | by intros [_ ?]].
Qed.

Lemma jsmap_get_is_Some m k : is_Some (get m k) ↔ k ∈ keys m.
Proof.
rewrite <- not_eq_None_Some, jsmap_get_None.
split; [apply dec_stable | auto].
Qed.

Lemma jsmap_has_true m k : has m k = true ↔ is_Some (get m k).
Proof. unfold has. rewrite bool_decide_eq_true. symmetry. apply jsmap_get_is_Some. Qed.

Lemma jsmap_has_false m k : has m k = false ↔ get m k = None.
Proof. unfold has. rewrite bool_decide_eq_false. symmetry. apply jsmap_get_None. Qed.

Lemma jsmap_get_set_eq m k v : get (set m k v) k = Some v.
Proof.
induction m as [|[k' v'] m IH]; simpl.
- by rewrite decide_True.
- case_decide; simpl; [by rewrite decide_True | by rewrite decide_False].
Qed.

Lemma jsmap_get_set_ne m k k' v : k ≠ k' → get (set m k v) k' = get m k'.
Proof.
intros Hne. induction m as [|[k0 v0] m IH]; simpl.
- by rewrite decide_False.
- case_decide as Hk; simpl; subst.
  + by rewrite !decide_False.
  + by rewrite IH.
Qed.

Lemma jsmap_keys_delete m k : keys (delete m k) = filter (λ k', k' ≠ k) (keys m).
Proof.
unfold keys, delete. induction m as [|[k' v'] m IH]; [done|].
rewrite fmap_cons, !filter_cons. simpl.
case_decide; [rewrite fmap_cons|]; simpl; by rewrite IH.
Qed.

Lemma jsmap_get_delete_eq m k : get (delete m k) k = None.
Proof.
rewrite jsmap_get_None, jsmap_keys_delete, list_elem_of_filter. by intros [? _].
Qed.

Lemma jsmap_get_delete_ne m k k' : k ≠ k' → get (delete m k) k' = get m k'.
Proof.
intros Hne. unfold delete. induction m as [|[k0 v0] m IH]; [done|].
rewrite filter_cons. simpl. case_decide as Hk0; simpl.
- by rewrite IH.
- assert (k0 = k) as -> by (by destruct (decide (k0 = k))).
  by rewrite decide_False.
Qed.

Lemma jsmap_keys_set_old m k v : k ∈ keys m → keys (set m k v) = keys m.
Proof.
unfold keys. induction m as [|[k' v'] m IH]; simpl.
- by intros ?%elem_of_nil.
- intros Hin. case_decide as Hk; simpl; subst; [done|].
  f_equal. apply IH. apply elem_of_cons in Hin as [?|?]; [congruence | done].
Qed.

Lemma jsmap_keys_set_fresh m k v : k ∉ keys m → keys (set m k v) = keys m ++ [k].
Proof.
unfold keys. induction m as [|[k' v'] m IH]; simpl; [done|].
intros [Hne Hnin]%not_elem_of_cons.
rewrite decide_False by done. simpl. f_equal. by apply IH.
Qed.

Lemma jsmap_size_keys m : size m = length (keys m).
Proof. unfold size, keys. by rewrite length_fmap. Qed.

Lemma jsmap_size_set_old m k v : k ∈ keys m → size (set m k v) = size m.
Proof. intros H. by rewrite !jsmap_size_keys, jsmap_keys_set_old. Qed.

Lemma jsmap_size_set_fresh m k v : k ∉ keys m → size (set m k v) = S (size m).
Proof.
intros H. rewrite !jsmap_size_keys, jsmap_keys_set_fresh, length_app by done.
simpl. lia.
Qed.

Lemma jsmap_size_set_le m k v : (size (set m k v) ≤ S (size m))%nat.
Proof.
destruct (decide (k ∈ keys m)).
- rewrite jsmap_size_set_old by done. lia.
- rewrite jsmap_size_set_fresh by done. lia.
Qed.

Lemma jsmap_size_delete_le m k : (size (delete m k) ≤ size m)%nat.
Proof. apply length_filter. Qed.

Lemma jsmap_NoDup_set m k v : NoDup (keys m) → NoDup (keys (set m k v)).
Proof.
intros Hnd. destruct (decide (k ∈ keys m)).
- by rewrite jsmap_keys_set_old.
- rewrite jsmap_keys_set_fresh by done. apply NoDup_app.
  split_and!; [done | | apply NoDup_singleton].
  intros x Hx ->%list_elem_of_singleton. done.
Qed.

Lemma jsmap_NoDup_delete m k : NoDup (keys m) → NoDup (keys (delete m k)).
Proof. rewrite jsmap_keys_delete. apply NoDup_filter. Qed.

(** Deleting the first key of a map without duplicates drops exactly the
  first entry. *)
Lemma jsmap_delete_first k v m :
NoDup (keys ((k, v) :: m)) → delete ((k, v) :: m) k = m.
Proof.
unfold delete. rewrite filter_cons. simpl.
rewrite decide_False by (intros H; by apply H).
intros [Hnin _]%NoDup_cons.
induction m as [|[k' v'] m IH]; [done|].
rewrite filter_cons. simpl in *.
apply not_elem_of_cons in Hnin as [Hne Hnin].
rewrite decide_True by done. f_equal. by apply IH.
Qed.

End facts.
End JSMapFacts.

(** ** CacheManager *)

Module CacheManagerFacts.
Import JSMapFacts.

Section facts.
Context {V : Type}.
Implicit Types (st : CacheManager.t V) (key : string) (value : V) (now dur : Z).

(** The sweep only ever applies [delete]. *)
Lemma cleanup_ind (P : CacheManager.t V → Prop) st now :
  P st → (∀ acc key, P acc → P (CacheManager.delete acc key)) →
  P (CacheManager.cleanup st now).
Proof.
  intros Hst Hdel. unfold CacheManager.cleanup.
  generalize (CacheManager.ttl st).
  apply (map_fold_weak_ind (λ acc _, P acc)); [done|].
  intros key expiry m acc _ Hacc. case_bool_decide; auto.
Qed.

Lemma delete_wf st key : CacheManager.wf st → CacheManager.wf (CacheManager.delete st key).
Proof.
  intros (Hnd & Hsz & Hmax). split_and!; simpl; [by apply jsmap_NoDup_delete | | done].
  pose proof (jsmap_size_delete_le (CacheManager.cache st) key). lia.
Qed.

(** At capacity the first entry goes, and only that one. *)
Lemma evict_first_full st :
  CacheManager.wf st →
  (CacheManager.maxSize st ≤ JSMap.size (CacheManager.cache st))%nat →
  ∃ firstKey v rest,
    CacheManager.cache st = (firstKey, v) :: rest ∧
    CacheManager.evict_first st = CacheManager.delete st firstKey ∧
    CacheManager.cache (CacheManager.evict_first st) = rest.
Proof.
  intros (Hnd & Hsz & Hmax) Hfull. rewrite Hmax in Hfull.
  unfold CacheManager.evict_first.
  destruct (CacheManager.cache st) as [|[firstKey v] rest] eqn:Hc; simpl in *; [lia|].
  exists firstKey, v, rest. split_and!; [done..|].
  rewrite Hc. by apply jsmap_delete_first.
Qed.

Lemma set_wf st key value dur now :
  CacheManager.wf st → CacheManager.wf (CacheManager.set st key value dur now).
Proof.
  intros Hwf. unfold CacheManager.set. case_bool_decide as Hfull.
  - destruct (evict_first_full st Hwf Hfull) as (k0 & v0 & rest & Hc & Hev & Hrest).
    destruct Hwf as (Hnd & Hsz & Hmax).
    assert (CacheManager.maxSize (CacheManager.evict_first st) = CacheManager.maxSize st)
      as Hm by (by rewrite Hev).
    split_and!; simpl; rewrite ?Hrest, ?Hm; [| | done].
    + apply jsmap_NoDup_set. rewrite Hc in Hnd. simpl in Hnd.
      by apply NoDup_cons in Hnd as [_ ?].
    + pose proof (jsmap_size_set_le rest key value).
      rewrite Hc in Hsz. simpl in *. unfold JSMap.size in *. simpl in *. lia.
  - destruct Hwf as (Hnd & Hsz & Hmax).
    split_and!; simpl; [by apply jsmap_NoDup_set | | done].
    pose proof (jsmap_size_set_le (CacheManager.cache st) key value). lia.
Qed.

Lemma get_wf st key now :
  CacheManager.wf st → CacheManager.wf (CacheManager.get st key now).2.
Proof.
  intros Hwf. unfold CacheManager.get.
  destruct (negb _); [done|]. destruct (CacheManager.expired _ _ _); [|done].
  by apply delete_wf.
Qed.

(** A [get] that returns a value changes nothing. *)
Lemma get_hit_state st key now value :
  (CacheManager.get st key now).1 = Some value → (CacheManager.get st key now).2 = st.
Proof.
  unfold CacheManager.get.
  destruct (negb _); [done|]. by destruct (CacheManager.expired _ _ _).
Qed.

Lemma has_state st key now :
  (CacheManager.has st key now).2 = (CacheManager.get st key now).2.
Proof. unfold CacheManager.has. by destruct (CacheManager.get st key now). Qed.

Lemma step_wf st e : CacheManager.wf st → CacheManager.wf (CacheManager.step st e).
Proof.
  intros Hwf. destruct e as [[key value dur|key|key|key| |] now]; simpl.
  - by apply set_wf.
  - by apply get_wf.
  - rewrite has_state. by apply get_wf.
  - by apply delete_wf.
  - destruct Hwf as (_ & _ & Hmax). split_and!; simpl; [constructor | lia | done].
  - apply cleanup_ind; [done|]. intros. by apply delete_wf.
Qed.

Lemma run_wf tr st : CacheManager.wf st → CacheManager.wf (CacheManager.run tr st).
Proof.
  revert st. induction tr as [|e tr IH]; intros st Hwf; [done|].
  simpl. apply IH. by apply step_wf.
Qed.

Lemma constructor_wf : CacheManager.wf (CacheManager.constructor (V:=V)).
Proof. split_and!; simpl; [constructor | lia | done]. Qed.

Lemma delete_expires_at st key k expiry :
  CacheManager.expires_at key expiry st →
  CacheManager.expires_at key expiry (CacheManager.delete st k).
Proof.
  unfold CacheManager.expires_at. simpl. intros Hst Hhas.
  apply jsmap_has_true in Hhas. destruct (decide (k = key)) as [->|Hne].
  - rewrite jsmap_get_delete_eq in Hhas. by destruct Hhas.
  - rewrite jsmap_get_delete_ne in Hhas by done.
    rewrite lookup_delete_ne by done. by apply Hst, jsmap_has_true.
Qed.

Lemma get_expires_at st key k now expiry :
  CacheManager.expires_at key expiry st →
  CacheManager.expires_at key expiry (CacheManager.get st k now).2.
Proof.
  intros Hst. unfold CacheManager.get.
  destruct (negb _); [done|]. destruct (CacheManager.expired _ _ _); [|done].
  by apply delete_expires_at.
Qed.

Lemma set_other_expires_at st key k value dur now expiry :
  k ≠ key →
  CacheManager.expires_at key expiry st →
  CacheManager.expires_at key expiry (CacheManager.set st k value dur now).
Proof.
  intros Hne Hst. unfold CacheManager.set.
  set (st1 := if bool_decide _ then _ else st).
  assert (CacheManager.expires_at key expiry st1) as Hst1.
  { subst st1. case_bool_decide; [|done]. unfold CacheManager.evict_first.
    destruct (JSMap.first_key _); [by apply delete_expires_at | done]. }
  clearbody st1. unfold CacheManager.expires_at in *. simpl. intros Hhas.
  apply jsmap_has_true in Hhas. rewrite jsmap_get_set_ne in Hhas by done.
  rewrite lookup_insert_ne by done. by apply Hst1, jsmap_has_true.
Qed.

Lemma step_expires_at st e key expiry :
  ¬ CacheManager.sets_key key e →
  CacheManager.expires_at key expiry st →
  CacheManager.expires_at key expiry (CacheManager.step st e).
Proof.
  intros Hno Hst. destruct e as [[k value dur|k|k|k| |] now]; simpl.
  - apply set_other_expires_at; [|done]. intros ->. by apply Hno.
  - by apply get_expires_at.
  - rewrite has_state. by apply get_expires_at.
  - by apply delete_expires_at.
  - intros Hhas. apply jsmap_has_true in Hhas. by destruct Hhas.
  - apply cleanup_ind; [done|]. intros. by apply delete_expires_at.
Qed.

Lemma run_expires_at tr st key expiry :
  Forall (λ e, ¬ CacheManager.sets_key key e) tr →
  CacheManager.expires_at key expiry st →
  CacheManager.expires_at key expiry (CacheManager.run tr st).
Proof.
  intros Htr. revert st. induction Htr as [|e tr He _ IH]; intros st Hst; [done|].
  simpl. apply IH. by apply step_expires_at.
Qed.

Lemma set_expires_at st key value dur now :
  CacheManager.expires_at key (now + dur) (CacheManager.set st key value dur now).
Proof. intros _. simpl. apply lookup_insert_eq. Qed.

(** Past its expiry an entry is never returned. *)
Lemma get_after_expiry st key expiry now :
  CacheManager.expires_at key expiry st → now > expiry →
  (CacheManager.get st key now).1 = None.
Proof.
  intros Hst Hnow. unfold CacheManager.get.
  destruct (JSMap.has _ _) eqn:Hhas; simpl; [|done].
  unfold CacheManager.expired. rewrite (Hst Hhas).
  by rewrite bool_decide_eq_true_2.
Qed.

(** Up to and including its expiry the entry just stored is returned. *)
Lemma get_until_expiry st key value dur t0 now :
  now ≤ t0 + dur →
  CacheManager.get (CacheManager.set st key value dur t0) key now
  = (Some value, CacheManager.set st key value dur t0).
Proof.
  intros Hnow. unfold CacheManager.get.
  assert (JSMap.has (CacheManager.cache (CacheManager.set st key value dur t0)) key = true)
    as ->.
  { apply jsmap_has_true. simpl. rewrite jsmap_get_set_eq. by eexists. }
  simpl negb. cbv iota.
  assert (CacheManager.expired (CacheManager.set st key value dur t0) key now = false)
    as ->.
  { unfold CacheManager.expired. simpl. rewrite lookup_insert_eq.
    apply bool_decide_eq_false_2. lia. }
  simpl. by rewrite jsmap_get_set_eq.
Qed.

End facts.
End CacheManagerFacts.

(** ** FrontendCache *)

Module FrontendCacheFacts.

Section facts.
Context {T : Type}.
Implicit Types (c : FrontendCache.t T) (w : FrontendCache.world T) (key : string).

Lemma get_stamped c key k now t0 dur :
  FrontendCache.stamped key t0 dur c →
  FrontendCache.stamped key t0 dur (FrontendCache.get c k now).2.
Proof.
  unfold FrontendCache.stamped, FrontendCache.get. intros Hc item.
  destruct (FrontendCache.cache c !! k) as [it|]; [case_bool_decide|]; simpl; auto.
  intros [_ ?]%lookup_delete_Some. auto.
Qed.

Lemma has_stamped c key k now t0 dur :
  FrontendCache.stamped key t0 dur c →
  FrontendCache.stamped key t0 dur (FrontendCache.has c k now).2.
Proof.
  unfold FrontendCache.stamped, FrontendCache.has. intros Hc item.
  destruct (FrontendCache.cache c !! k) as [it|]; [case_bool_decide|]; simpl; auto.
  intros [_ ?]%lookup_delete_Some. auto.
Qed.

Lemma step_stamped w w' e key t0 dur :
  ¬ FrontendCache.sets_key key e →
  FrontendCache.step w e = Some w' →
  FrontendCache.stamped key t0 dur (FrontendCache.self w) →
  FrontendCache.stamped key t0 dur (FrontendCache.self w').
Proof.
  intros Hno Hstep Hw. destruct e as [[k d dur'|k|k| |i] now]; simpl in Hstep.
  - injection Hstep as <-. intros item. simpl.
    rewrite lookup_insert_ne; [apply Hw|]. intros ->. by apply Hno.
  - injection Hstep as <-. by apply get_stamped.
  - injection Hstep as <-. by apply has_stamped.
  - injection Hstep as <-. intros item. simpl. by rewrite lookup_empty.
  - unfold FrontendCache.fire in Hstep.
    destruct (FrontendCache.timers w !! i) as [tm|]; [|done].
    case_bool_decide; [|done]. injection Hstep as <-. intros item. simpl.
    intros [_ ?]%lookup_delete_Some. auto.
Qed.

Lemma run_stamped tr w w' key t0 dur :
  Forall (λ e, ¬ FrontendCache.sets_key key e) tr →
  FrontendCache.run tr w = Some w' →
  FrontendCache.stamped key t0 dur (FrontendCache.self w) →
  FrontendCache.stamped key t0 dur (FrontendCache.self w').
Proof.
  intros Htr. revert w. induction Htr as [|e tr He _ IH]; intros w Hrun Hw.
  - simpl in Hrun. by injection Hrun as <-.
  - simpl in Hrun. destruct (FrontendCache.step w e) as [w1|] eqn:Hstep; [|done].
    eapply IH; [done|]. by eapply step_stamped.
Qed.

Lemma set_stamped w key (d : T) dur now :
  FrontendCache.stamped key now dur (FrontendCache.self (FrontendCache.set w key d dur now)).
Proof. intros item. simpl. rewrite lookup_insert_eq. by intros [= <-]. Qed.

Lemma get_after_ttl c key t0 dur now :
  FrontendCache.stamped key t0 dur c → now - t0 > dur →
  (FrontendCache.get c key now).1 = None.
Proof.
  intros Hc Hnow. unfold FrontendCache.get.
  destruct (FrontendCache.cache c !! key) as [item|] eqn:Hitem; [|done].
  destruct (Hc item Hitem) as [-> ->]. by rewrite bool_decide_eq_true_2.
Qed.

Lemma get_within_ttl w key (d : T) dur t0 now :
  now - t0 ≤ dur →
  (FrontendCache.get (FrontendCache.self (FrontendCache.set w key d dur t0)) key now).1
  = Some d.
Proof.
  intros Hnow. unfold FrontendCache.get. simpl. rewrite lookup_insert_eq. simpl.
  rewrite bool_decide_eq_false_2 by lia. done.
Qed.

(** An entry that has not passed its time to live is returned. *)
Lemma get_live c key (d : T) t0 dur now :
  FrontendCache.cache c !! key = Some (FrontendCache.mkItem d t0 dur) →
  now ≤ t0 + dur →
  (FrontendCache.get c key now).1 = Some d.
Proof.
  intros Hitem Hnow. unfold FrontendCache.get. rewrite Hitem. simpl.
  by rewrite bool_decide_eq_false_2 by lia.
Qed.

Lemma step_leaves w w' e key (d : T) t0 dur :
  History.leaves key (t0 + dur) e →
  FrontendCache.step w e = Some w' →
  FrontendCache.cache (FrontendCache.self w) !! key = Some (FrontendCache.mkItem d t0 dur) →
  FrontendCache.cache (FrontendCache.self w') !! key = Some (FrontendCache.mkItem d t0 dur).
Proof.
  intros He Hstep Hw. destruct e as [[k d' dur'|k|k| |i] now]; simpl in He, Hstep;
    try done; injection Hstep as <-; simpl.
  - by rewrite lookup_insert_ne.
  - unfold FrontendCache.get.
    destruct (FrontendCache.cache (FrontendCache.self w) !! k) as [item|] eqn:Hk; [|done].
    case_bool_decide as Hexp; [|done]. simpl.
    rewrite lookup_delete_ne; [done|]. intros ->.
    rewrite Hw in Hk. injection Hk as <-. simpl in Hexp. lia.
  - unfold FrontendCache.has.
    destruct (FrontendCache.cache (FrontendCache.self w) !! k) as [item|] eqn:Hk; [|done].
    case_bool_decide as Hexp; [|done]. simpl.
    rewrite lookup_delete_ne; [done|]. intros ->.
    rewrite Hw in Hk. injection Hk as <-. simpl in Hexp. lia.
Qed.

Lemma run_leaves tr w w' key (d : T) t0 dur :
  Forall (History.leaves key (t0 + dur)) tr →
  FrontendCache.run tr w = Some w' →
  FrontendCache.cache (FrontendCache.self w) !! key = Some (FrontendCache.mkItem d t0 dur) →
  FrontendCache.cache (FrontendCache.self w') !! key = Some (FrontendCache.mkItem d t0 dur).
Proof.
  intros Htr. revert w. induction Htr as [|e tr He _ IH]; intros w Hrun Hw.
  - simpl in Hrun. by injection Hrun as <-.
  - simpl in Hrun. destruct (FrontendCache.step w e) as [w1|] eqn:Hstep; [|done].
    eapply IH; [done|]. by eapply step_leaves.
Qed.

(** The timer a [set] registers is the last of the list. *)
Lemma set_timer w key (d : T) dur now :
  FrontendCache.timers (FrontendCache.set w key d dur now)
    !! length (FrontendCache.timers w)
  = Some (FrontendCache.mkTimer (now + dur) key).
Proof.
  simpl. rewrite lookup_app_r by lia. by rewrite Nat.sub_diag.
Qed.

(** [set] adds one entry when the key is new, and removes none. *)
Lemma set_size_fresh w key (d : T) dur now :
  FrontendCache.cache (FrontendCache.self w) !! key = None →
  size (FrontendCache.cache (FrontendCache.self (FrontendCache.set w key d dur now)))
  = S (size (FrontendCache.cache (FrontendCache.self w))).
Proof. intros Hkey. simpl. by rewrite map_size_insert_None. Qed.

Lemma run_fill (d : T) n : ∀ s w,
  (∀ i, (s ≤ i)%nat → FrontendCache.cache (FrontendCache.self w) !! pretty i = None) →
  ∃ w', FrontendCache.run (History.fill d s n) w = Some w' ∧
        size (FrontendCache.cache (FrontendCache.self w'))
        = (size (FrontendCache.cache (FrontendCache.self w)) + n)%nat ∧
        (∀ i, (s + n ≤ i)%nat →
           FrontendCache.cache (FrontendCache.self w') !! pretty i = None).
Proof.
  induction n as [|n IH]; intros s w Hfree.
  - exists w. split_and!; [done | simpl; lia |]. intros i Hi. apply Hfree. lia.
  - unfold History.fill. simpl seq. rewrite fmap_cons. cbn [FrontendCache.run FrontendCache.step].
    destruct (IH (S s) (FrontendCache.set w (pretty s) d 1000 (Z.of_nat s)))
      as (w' & Hrun & Hsize & Hfree').
    { intros i Hi. simpl. rewrite lookup_insert_ne; [apply Hfree; lia|].
      intros Heq. apply (inj pretty) in Heq. lia. }
    exists w'. split_and!; [exact Hrun | |].
    + rewrite Hsize, set_size_fresh by (apply Hfree; lia). lia.
    + intros i Hi. apply Hfree'. lia.
Qed.

End facts.
End FrontendCacheFacts.

(** ** Claims on the capacity bound *)

Section capacity.
Context {V : Type}.
Implicit Types (st : CacheManager.t V) (key : string) (value : V) (now dur : Z).

(** C2, amended.  The server cache: in every state a history of calls can
    reach from the constructor, the number of entries is at most [maxSize].
    A [set] made when the cache holds [maxSize] entries first removes one
    entry, the first of the insertion order (the order in which the keys now
    present were added; reading an entry does not change it), and then stores
    the new one: all other entries stay, the new key goes last unless it was
    already present among the others, and the bound still holds.  Below
    capacity nothing is removed and a new key goes last.  The client cache
    has no bound: its [set] leaves every other entry in place and adds one
    entry whenever the key is new, whatever the size, so every size is
    reached. *)
Theorem C2_capacity_bound_fifo :
  (∀ tr : list (CacheManager.op V * Z),
     let st := CacheManager.run tr CacheManager.constructor in
     (JSMap.size (CacheManager.cache st) ≤ CacheManager.maxSize st)%nat) ∧
  (∀ (tr : list (CacheManager.op V * Z)) key value dur now,
     let st := CacheManager.run tr CacheManager.constructor in
     JSMap.size (CacheManager.cache st) = CacheManager.maxSize st →
     ∃ firstKey rest,
       let st' := CacheManager.set st key value dur now in
       JSMap.keys (CacheManager.cache st) = firstKey :: rest ∧
       JSMap.keys (CacheManager.cache st') =
         (if decide (key ∈ rest) then rest else rest ++ [key]) ∧
       (firstKey ≠ key → JSMap.get (CacheManager.cache st') firstKey = None) ∧
       (∀ k, k ≠ firstKey → k ≠ key →
          JSMap.get (CacheManager.cache st') k = JSMap.get (CacheManager.cache st) k) ∧
       JSMap.get (CacheManager.cache st') key = Some value ∧
       (JSMap.size (CacheManager.cache st') ≤ CacheManager.maxSize st')%nat) ∧
  (∀ (tr : list (CacheManager.op V * Z)) key value dur now,
     let st := CacheManager.run tr CacheManager.constructor in
     (JSMap.size (CacheManager.cache st) < CacheManager.maxSize st)%nat →
     JSMap.keys (CacheManager.cache (CacheManager.set st key value dur now)) =
       (if decide (key ∈ JSMap.keys (CacheManager.cache st))
        then JSMap.keys (CacheManager.cache st)
        else JSMap.keys (CacheManager.cache st) ++ [key])) ∧
  (∀ st key now value,
     (CacheManager.get st key now).1 = Some value →
     (CacheManager.get st key now).2 = st) ∧
  (∀ (w : FrontendCache.world V) key d dur now,
     let w' := FrontendCache.set w key d dur now in
     (∀ k, k ≠ key →
        FrontendCache.cache (FrontendCache.self w') !! k
        = FrontendCache.cache (FrontendCache.self w) !! k) ∧
     (FrontendCache.cache (FrontendCache.self w) !! key = None →
      size (FrontendCache.cache (FrontendCache.self w'))
      = S (size (FrontendCache.cache (FrontendCache.self w))))) ∧
  (∀ (d : V) (n : nat),
     ∃ w', FrontendCache.run (History.fill d 0 n) FrontendCache.init = Some w' ∧
           size (FrontendCache.cache (FrontendCache.self w')) = n).
Proof.
  split_and!; cycle 4.
  - intros w key d dur now. cbv zeta. split.
    + intros k Hk. simpl. by rewrite lookup_insert_ne.
    + apply FrontendCacheFacts.set_size_fresh.
  - intros d n.
    destruct (FrontendCacheFacts.run_fill d n 0 FrontendCache.init)
      as (w' & Hrun & Hsize & _); [done|].
    exists w'. split; [done|]. by rewrite Hsize.
  - intros tr st.
    by destruct (CacheManagerFacts.run_wf tr _ CacheManagerFacts.constructor_wf)
      as (_ & ? & _).
  - intros tr key value dur now st Hfull.
    pose proof (CacheManagerFacts.run_wf tr _ CacheManagerFacts.constructor_wf) as Hwf.
    fold st in Hwf.
    destruct (CacheManagerFacts.evict_first_full st Hwf) as (k0 & v0 & rest & Hc & Hev & Hrest);
      [lia|].
    pose proof (CacheManagerFacts.set_wf st key value dur now Hwf) as (_ & Hsz' & _).
    destruct Hwf as (Hnd & _ & _).
    rewrite Hc in Hnd. simpl in Hnd. apply NoDup_cons in Hnd as [Hk0 Hnd].
    exists k0, (JSMap.keys rest). cbv zeta.
    assert (CacheManager.cache (CacheManager.set st key value dur now)
            = JSMap.set rest key value) as Hset.
    { unfold CacheManager.set. rewrite bool_decide_eq_true_2 by lia.
      simpl. by rewrite Hrest. }
    rewrite Hset, Hc. split_and!.
    + done.
    + case_decide.
      * by apply JSMapFacts.jsmap_keys_set_old.
      * by apply JSMapFacts.jsmap_keys_set_fresh.
    + intros Hne. rewrite JSMapFacts.jsmap_get_set_ne by done.
      by apply JSMapFacts.jsmap_get_None.
    + intros k Hk0' Hk. rewrite JSMapFacts.jsmap_get_set_ne by done.
      simpl. by rewrite decide_False by congruence.
    + apply JSMapFacts.jsmap_get_set_eq.
    + by rewrite <- Hset.
  - intros tr key value dur now st Hlt.
    unfold CacheManager.set. rewrite bool_decide_eq_false_2 by lia. simpl.
    case_decide.
    + by apply JSMapFacts.jsmap_keys_set_old.
    + by apply JSMapFacts.jsmap_keys_set_fresh.
  - intros st key now value. apply CacheManagerFacts.get_hit_state.
Qed.

End capacity.

(** C2 at work: a cache filled by a thousand [set]s, then one more. *)
Lemma C2_capacity_bound_fifo_witness :
  let st := CacheManager.run (CacheManager.fill 0%nat 1000) CacheManager.constructor in
  JSMap.size (CacheManager.cache st) = CacheManager.maxSize st ∧
  ∃ firstKey rest,
    let st' := CacheManager.set st "fresh" 1%nat 1000 2000 in
    JSMap.keys (CacheManager.cache st) = firstKey :: rest ∧
    JSMap.keys (CacheManager.cache st') =
      (if decide ("fresh" ∈ rest) then rest else rest ++ ["fresh"]) ∧
    (firstKey ≠ "fresh" → JSMap.get (CacheManager.cache st') firstKey = None) ∧
    (∀ k, k ≠ firstKey → k ≠ "fresh" →
       JSMap.get (CacheManager.cache st') k = JSMap.get (CacheManager.cache st) k) ∧
    JSMap.get (CacheManager.cache st') "fresh" = Some 1%nat ∧
    (JSMap.size (CacheManager.cache st') ≤ CacheManager.maxSize st')%nat.
Proof.
  assert (JSMap.size (CacheManager.cache
            (CacheManager.run (CacheManager.fill 0%nat 1000) CacheManager.constructor))
          = CacheManager.maxSize
              (CacheManager.run (CacheManager.fill 0%nat 1000) CacheManager.constructor))
    as Hfull by (vm_compute; reflexivity).
  split; [exact Hfull|].
  exact (proj1 (proj2 C2_capacity_bound_fifo)
           (CacheManager.fill 0%nat 1000) "fresh" 1%nat 1000 2000 Hfull).
Defined.

(** The client cache past the bound of the server cache: 1001 stores of
    distinct keys leave 1001 entries, so "size <= maxSize" and the eviction
    at capacity do not hold of FrontendCache (C2 as stated, which cites both
    classes). *)
Lemma C2_counterexample :
  ∃ w', FrontendCache.run (History.fill 0%nat 0 1001) FrontendCache.init = Some w' ∧
        size (FrontendCache.cache (FrontendCache.self w')) = 1001%nat ∧
        (1000 < size (FrontendCache.cache (FrontendCache.self w')))%nat.
Proof.
  destruct (FrontendCacheFacts.run_fill 0%nat 1001 0 FrontendCache.init)
    as (w' & Hrun & Hsize & _); [done|].
  exists w'. simpl in Hsize. rewrite Hsize. split_and!; [done | done | lia].
Qed.

(** ** Claims on expiry *)

(** The instant [createdAt + ttl] itself: the server cache still returns the
    entry, and so does the client cache when the timer of the entry has not
    run, so "absent as soon as [now >= createdAt + ttl]" does not hold (C1 as
    stated).  [set] at 0 with a time to live of 100, [get] at 100. *)
Lemma C1_counterexample :
  (CacheManager.get
     (CacheManager.set CacheManager.constructor "a" 7%nat 100 0) "a" 100).1 = Some 7%nat ∧
  (FrontendCache.get
     (FrontendCache.self (FrontendCache.set FrontendCache.init "a" 7%nat 100 0))
     "a" 100).1 = Some 7%nat.
Proof. split; vm_compute; reflexivity. Qed.

Section expiry.
Context {V : Type}.

(** C1, amended.  The comparison of both readers is strict.  Once
    [now > createdAt + ttl] a [get] of the key returns absent, whatever was
    called on the cache in between (no sweep and no timer is needed), as long
    as the key was not stored again; this holds for the server cache and for
    the client cache.  Up to and including [createdAt + ttl] the server cache
    returns the stored value when read in the state the [set] left, and the
    client cache returns it as long as no timer has run and [clear()] was not
    called (reads made by then and stores under other keys in between change
    nothing).  The client's [set] also registers
    a timer that deletes the key: it cannot run before [createdAt + ttl], it
    can run at that instant, and once it has run a [get] of the key is absent,
    also at [now = createdAt + ttl]. *)
Theorem C1_expiry_is_strict :
  (∀ (st : CacheManager.t V) key value dur t0 tr now,
     Forall (λ e, ¬ CacheManager.sets_key key e) tr →
     now > t0 + dur →
     (CacheManager.get
        (CacheManager.run tr (CacheManager.set st key value dur t0)) key now).1 = None) ∧
  (∀ (st : CacheManager.t V) key value dur t0 now,
     now ≤ t0 + dur →
     (CacheManager.get (CacheManager.set st key value dur t0) key now).1 = Some value) ∧
  (∀ (w w' : FrontendCache.world V) key d dur t0 tr now,
     Forall (λ e, ¬ FrontendCache.sets_key key e) tr →
     FrontendCache.run tr (FrontendCache.set w key d dur t0) = Some w' →
     now > t0 + dur →
     (FrontendCache.get (FrontendCache.self w') key now).1 = None) ∧
  (∀ (w : FrontendCache.world V) key d dur t0 now,
     now ≤ t0 + dur →
     (FrontendCache.get
        (FrontendCache.self (FrontendCache.set w key d dur t0)) key now).1 = Some d) ∧
  (∀ (w w' : FrontendCache.world V) key d dur t0 tr now,
     Forall (History.leaves key (t0 + dur)) tr →
     FrontendCache.run tr (FrontendCache.set w key d dur t0) = Some w' →
     now ≤ t0 + dur →
     (FrontendCache.get (FrontendCache.self w') key now).1 = Some d) ∧
  (∀ (w : FrontendCache.world V) key d dur t0 now,
     Timer.as_given dur →
     now < t0 + dur →
     FrontendCache.fire (FrontendCache.set w key d dur t0)
       (length (FrontendCache.timers w)) now = None) ∧
  (∀ (w : FrontendCache.world V) key d dur t0 now,
     Timer.as_given dur →
     t0 + dur ≤ now →
     ∃ w2, FrontendCache.fire (FrontendCache.set w key d dur t0)
             (length (FrontendCache.timers w)) now = Some w2 ∧
           ∀ now', (FrontendCache.get (FrontendCache.self w2) key now').1 = None).
Proof.
  split_and!.
  - intros st key value dur t0 tr now Htr Hnow.
    apply CacheManagerFacts.get_after_expiry with (expiry := t0 + dur); [|done].
    apply CacheManagerFacts.run_expires_at; [done|].
    apply CacheManagerFacts.set_expires_at.
  - intros st key value dur t0 now Hnow.
    by rewrite CacheManagerFacts.get_until_expiry.
  - intros w w' key d dur t0 tr now Htr Hrun Hnow.
    apply FrontendCacheFacts.get_after_ttl with (t0 := t0) (dur := dur); [|lia].
    eapply FrontendCacheFacts.run_stamped; [done..|].
    apply FrontendCacheFacts.set_stamped.
  - intros w key d dur t0 now Hnow.
    apply FrontendCacheFacts.get_within_ttl. lia.
  - intros w w' key d dur t0 tr now Htr Hrun Hnow.
    apply FrontendCacheFacts.get_live with (t0 := t0) (dur := dur); [|done].
    eapply FrontendCacheFacts.run_leaves; [done..|].
    simpl. apply lookup_insert_eq.
  - intros w key d dur t0 now _ Hnow. unfold FrontendCache.fire.
    rewrite FrontendCacheFacts.set_timer. simpl.
    by rewrite bool_decide_eq_false_2 by lia.
  - intros w key d dur t0 now _ Hnow. unfold FrontendCache.fire.
    rewrite FrontendCacheFacts.set_timer. simpl.
    rewrite bool_decide_eq_true_2 by lia.
    eexists. split; [done|]. intros now'.
    unfold FrontendCache.get. simpl. by rewrite lookup_delete_eq.
Qed.

End expiry.

(** C1 (amended) at work: an entry stored at 0 for 100 ms survives a
    sweep at 60 and is gone at 101; on the client the same with the timer
    of the entry still pending, and at 100 the entry is there after a read
    at 40, while its timer cannot run at 99, can run at 100, and leaves the
    key absent at 100. *)
Lemma C1_expiry_is_strict_witness :
  (CacheManager.get
     (CacheManager.run [(CacheManager.Cleanup, 60); (CacheManager.Get "b", 70)]
        (CacheManager.set CacheManager.constructor "a" 7%nat 100 0)) "a" 101).1 = None ∧
  (CacheManager.get
     (CacheManager.set CacheManager.constructor "a" 7%nat 100 0) "a" 100).1 = Some 7%nat ∧
  (FrontendCache.get
     (FrontendCache.self (FrontendCache.set FrontendCache.init "a" 7%nat 100 0))
     "a" 101).1 = None ∧
  (FrontendCache.get
     (FrontendCache.self (FrontendCache.set FrontendCache.init "a" 7%nat 100 0))
     "a" 100).1 = Some 7%nat ∧
  (∃ w', FrontendCache.run [(FrontendCache.EGet "a", 40); (FrontendCache.ESet "b" 8%nat 10, 50)]
           (FrontendCache.set FrontendCache.init "a" 7%nat 100 0) = Some w' ∧
         (FrontendCache.get (FrontendCache.self w') "a" 100).1 = Some 7%nat) ∧
  FrontendCache.fire (FrontendCache.set FrontendCache.init "a" 7%nat 100 0) 0 99 = None ∧
  (∃ w2, FrontendCache.fire (FrontendCache.set FrontendCache.init "a" 7%nat 100 0) 0 100
         = Some w2 ∧
         ∀ now', (FrontendCache.get (FrontendCache.self w2) "a" now').1 = None).
Proof.
  destruct (C1_expiry_is_strict (V:=nat)) as (H1 & H2 & H3 & H4 & H5 & H6 & H7).
  split_and!.
  - apply H1; [|lia]. repeat constructor; simpl; tauto.
  - apply H2. lia.
  - apply (H3 FrontendCache.init _ "a" 7%nat 100 0 []); [constructor|reflexivity|lia].
  - apply H4. lia.
  - eexists. split; [reflexivity|].
    apply (H5 FrontendCache.init _ "a" 7%nat 100 0
             [(FrontendCache.EGet "a", 40); (FrontendCache.ESet "b" 8%nat 10, 50)]);
      [|reflexivity|lia].
    repeat constructor; simpl; [lia | discriminate].
  - apply (H6 FrontendCache.init "a" 7%nat 100 0 99); [unfold Timer.as_given, Timer.TIMEOUT_MAX|]; lia.
  - apply (H7 FrontendCache.init "a" 7%nat 100 0 100); [unfold Timer.as_given, Timer.TIMEOUT_MAX|]; lia.
Defined.

(** ** Claims on the client cache: counters, [has], timers *)

Section frontend.
Context {T : Type}.
Implicit Types (c : FrontendCache.t T) (w : FrontendCache.world T).

(** C6.  From a cache with no hit and no miss counted, [set(a, d)],
    [get(a)] while [a] has not expired, then [get(b)] for a key [b] that is
    not stored: the first [get] returns [d], the second is absent, and the
    statistics read [hits = 1], [misses = 1], [hitRate = 50].  With no
    access counted, [hitRate] is [0]. *)
Theorem C6_hit_miss_accounting :
  (∀ w a b (d : T) dur t0 t1 t2,
     FrontendCache.hits (FrontendCache.self w) = 0%nat →
     FrontendCache.misses (FrontendCache.self w) = 0%nat →
     FrontendCache.cache (FrontendCache.self w) !! b = None →
     a ≠ b →
     t1 - t0 ≤ dur →
     let c1 := FrontendCache.self (FrontendCache.set w a d dur t0) in
     let r1 := FrontendCache.get c1 a t1 in
     let r2 := FrontendCache.get r1.2 b t2 in
     let stats := FrontendCache.getStats r2.2 in
     r1.1 = Some d ∧ r2.1 = None ∧
     FrontendCache.stat_hits stats = 1%nat ∧
     FrontendCache.stat_misses stats = 1%nat ∧
     FrontendCache.hitRate stats = 50%float) ∧
  (∀ c, (FrontendCache.hits c + FrontendCache.misses c = 0)%nat →
        FrontendCache.hitRate (FrontendCache.getStats c) = 0%float).
Proof.
  split.
  - intros w a b d dur t0 t1 t2 Hh Hm Hb Hab Ht. cbv zeta.
    set (c1 := FrontendCache.self (FrontendCache.set w a d dur t0)).
    assert (FrontendCache.get c1 a t1
            = (Some d, FrontendCache.mk (FrontendCache.cache c1) 1 0)) as ->.
    { unfold FrontendCache.get, c1. simpl. rewrite lookup_insert_eq. simpl.
      rewrite bool_decide_eq_false_2 by lia. by rewrite Hh, Hm. }
    cbn [fst snd].
    assert (FrontendCache.get (FrontendCache.mk (FrontendCache.cache c1) 1 0) b t2
            = (None, FrontendCache.mk (FrontendCache.cache c1) 1 1)) as ->.
    { unfold FrontendCache.get, c1. simpl. by rewrite lookup_insert_ne, Hb. }
    done.
  - intros c Hc. unfold FrontendCache.getStats. simpl.
    by rewrite bool_decide_eq_false_2 by lia.
Qed.

(** C9, amended.  [has(key)] is true exactly when the cache holds an entry
    of the key that has not expired, which is when [get(key)], called in the
    same state at the same instant, returns the stored payload; [has] leaves
    both counters as they were (and drops an expired entry just as [get]
    does).  When payloads can be [null], the value [get(key)] returns differs
    from [null] exactly when [has(key)] is true and the stored payload is not
    [null]: after [set(key, null)], [has(key)] is true while [get(key)]
    returns [null]. *)
Theorem C9_has_agrees_with_get :
  (∀ c key now,
     ((FrontendCache.has c key now).1 = true ↔ (FrontendCache.get c key now).1 ≠ None) ∧
     ((FrontendCache.has c key now).1 = true ↔
      ∃ item, FrontendCache.cache c !! key = Some item ∧
              now - FrontendCache.timestamp item ≤ FrontendCache.ttl item ∧
              (FrontendCache.get c key now).1 = Some (FrontendCache.data item)) ∧
     FrontendCache.hits (FrontendCache.has c key now).2 = FrontendCache.hits c ∧
     FrontendCache.misses (FrontendCache.has c key now).2 = FrontendCache.misses c ∧
     FrontendCache.cache (FrontendCache.has c key now).2
     = FrontendCache.cache (FrontendCache.get c key now).2) ∧
  (∀ (cn : FrontendCache.t (option T)) key now,
     Nullable.returned (FrontendCache.get cn key now).1 ≠ None ↔
     (FrontendCache.has cn key now).1 = true ∧
     ∃ item x, FrontendCache.cache cn !! key = Some item ∧
               FrontendCache.data item = Some x) ∧
  (∀ (wn : FrontendCache.world (option T)) key dur t0 now,
     now - t0 ≤ dur →
     let cn := FrontendCache.self (FrontendCache.set wn key None dur t0) in
     (FrontendCache.has cn key now).1 = true ∧
     Nullable.returned (FrontendCache.get cn key now).1 = None ∧
     FrontendCache.hits (FrontendCache.get cn key now).2 = S (FrontendCache.hits cn)).
Proof.
  split_and!.
  - intros c key now. unfold FrontendCache.has, FrontendCache.get.
    destruct (FrontendCache.cache c !! key) as [item|]; [case_bool_decide|]; simpl;
      split_and!; try done; try (split; done).
    + split; [done|]. intros (it & [= <-] & Hlive & _). lia.
    + split; [|done]. intros _. exists item. split_and!; [done | lia | done].
    + split; [done|]. by intros (it & ? & _).
  - intros cn key now. unfold FrontendCache.has, FrontendCache.get.
    destruct (FrontendCache.cache cn !! key) as [item|]; [case_bool_decide|]; simpl.
    + split; [done|]. by intros [? _].
    + destruct (FrontendCache.data item) as [x|] eqn:Hx; simpl.
      * split; [|done]. intros _. split; [done|]. by exists item, x.
      * split; [done|]. intros [_ (it & x & [= <-] & Hd)]. congruence.
    + split; [done|]. by intros [? _].
  - intros wn key dur t0 now Hnow. cbv zeta.
    unfold FrontendCache.has, FrontendCache.get. simpl.
    rewrite lookup_insert_eq. simpl.
    rewrite bool_decide_eq_false_2 by lia. done.
Qed.


End frontend.

(** A stored [null]: [set("k", null)] at 0 for 100 ms, read at 50.  [has] is
    true, [get] returns [null], the value it returns for an absent key, and
    counts a hit: "[has(key)] is true if and only if [get(key)] would return a
    non-absent value" does not hold of this state (C9 as stated). *)
Lemma C9_counterexample :
  let c : FrontendCache.t (option nat) :=
    FrontendCache.self (FrontendCache.set FrontendCache.init "k" None 100 0) in
  (FrontendCache.has c "k" 50).1 = true ∧
  Nullable.returned (FrontendCache.get c "k" 50).1 = None ∧
  Nullable.returned (FrontendCache.get c "absent" 50).1 = None ∧
  FrontendCache.hits (FrontendCache.get c "k" 50).2 = 1%nat.
Proof. split_and!; vm_compute; reflexivity. Qed.

(** C6 at work, with the default time to live of [set]. *)
Lemma C6_hit_miss_accounting_witness :
  let c1 := FrontendCache.self (FrontendCache.set_default FrontendCache.init "a" 1%nat 0) in
  let r1 := FrontendCache.get c1 "a" 10 in
  let r2 := FrontendCache.get r1.2 "b" 20 in
  let stats := FrontendCache.getStats r2.2 in
  r1.1 = Some 1%nat ∧ r2.1 = None ∧
  FrontendCache.stat_hits stats = 1%nat ∧
  FrontendCache.stat_misses stats = 1%nat ∧
  FrontendCache.hitRate stats = 50%float.
Proof.
  apply (proj1 C6_hit_miss_accounting FrontendCache.init "a" "b" 1%nat 300000 0 10 20);
    [reflexivity | reflexivity | reflexivity | discriminate | lia].
Defined.


(** ** Debounce *)

Module DebounceFacts.

Section facts.
Context {A : Type}.
Implicit Types (st : Debounce.state A) (tr : list (Debounce.event A * Z)).

(** With no timer registered, nothing happens until the next call. *)
Lemma run_quiet var wait tr clock st outs st' t :
  Debounce.pending st = ∅ →
  t + wait ≤ clock →
  Debounce.within_window wait t (Debounce.calls_of tr) →
  Debounce.run var wait tr clock st = Some (outs, st') →
  outs = [] ∧ Debounce.pending st' = ∅ ∧ Debounce.calls_of tr = [].
Proof.
  intros Hp Hclock Hwin Hrun. destruct tr as [|[e now] tr]; simpl in *.
  - by injection Hrun as <- <-.
  - case_bool_decide; [|done]. destruct e as [args|h].
    + simpl in Hwin. lia.
    + destruct var; simpl in Hrun;
        unfold Debounce.fire, Debounce.fire_perf in Hrun;
        by rewrite Hp, lookup_empty in Hrun.
Qed.

Lemma call_armed var wait st args now :
  Debounce.trailing var →
  (Debounce.pending st = ∅ ∨ ∃ args0 t0, Debounce.armed wait args0 t0 st) →
  ∃ st1, Debounce.step var wait st (Debounce.Call args) now = Some ([], st1) ∧
         Debounce.armed wait args now st1.
Proof.
  intros Hvar Hst.
  assert (Debounce.clearTimeout (Debounce.timeout st) (Debounce.pending st) = ∅) as Hclear.
  { destruct Hst as [Hp|(args0 & t0 & h & Hh & Hp)]; rewrite Hp.
    - unfold Debounce.clearTimeout. destruct (Debounce.timeout st); [|done].
      apply delete_empty.
    - rewrite Hh. simpl. apply delete_singleton_eq. }
  destruct var as [|[]]; [|done|]; simpl; eexists; (split; [done|]);
    eexists; simpl; (split; [done|]); by rewrite Hclear, insert_empty.
Qed.

Lemma fire_armed var wait st args t h now outs st1 :
  Debounce.trailing var →
  Debounce.armed wait args t st →
  Debounce.step var wait st (Debounce.Fire h) now = Some (outs, st1) →
  t + wait ≤ now ∧ outs = [args] ∧ Debounce.pending st1 = ∅.
Proof.
  intros Hvar (h0 & Hh0 & Hp) Hstep.
  destruct var as [|[]]; [|done|]; simpl in Hstep;
    unfold Debounce.fire, Debounce.fire_perf in Hstep; rewrite Hp in Hstep.
  - destruct (decide (h0 = h)) as [->|Hne].
    + rewrite lookup_singleton_eq in Hstep. case_bool_decide; [|done].
      injection Hstep as <- <-. simpl. rewrite Hh0. simpl.
      by rewrite delete_singleton_eq, delete_empty.
    + by rewrite lookup_singleton_ne in Hstep.
  - destruct (decide (h0 = h)) as [->|Hne].
    + rewrite lookup_singleton_eq in Hstep. case_bool_decide; [|done].
      injection Hstep as <- <-. simpl. by rewrite delete_singleton_eq.
    + by rewrite lookup_singleton_ne in Hstep.
Qed.

(** The timer of an armed state runs from its due instant on. *)
Lemma fire_armed_due var wait st args t now :
  Debounce.trailing var →
  Debounce.armed wait args t st →
  t + wait ≤ now →
  ∃ h st1, Debounce.step var wait st (Debounce.Fire h) now = Some ([args], st1) ∧
           Debounce.pending st1 = ∅.
Proof.
  intros Hvar (h & Hh & Hp) Hnow. exists h.
  destruct var as [|[]]; [|done|]; simpl;
    unfold Debounce.fire, Debounce.fire_perf;
    rewrite Hp, lookup_singleton_eq, bool_decide_eq_true_2 by done;
    eexists; (split; [done|]); simpl.
  - rewrite Hh. simpl. by rewrite delete_singleton_eq, delete_empty.
  - by rewrite delete_singleton_eq.
Qed.

(** A burst that continues from an armed state. *)
Lemma run_armed var wait tr : ∀ clock st args t outs st' args' t',
  Debounce.trailing var →
  Debounce.armed wait args t st →
  Debounce.within_window wait t (Debounce.calls_of tr) →
  Debounce.run var wait tr clock st = Some (outs, st') →
  last ((args, t) :: Debounce.calls_of tr) = Some (args', t') →
  (outs = [] ∧ Debounce.armed wait args' t' st') ∨
  (outs = [args'] ∧ Debounce.pending st' = ∅).
Proof.
  induction tr as [|[e now] tr IH]; intros clock st args t outs st' args' t' Hvar Harm Hwin Hrun Hlast.
  - simpl in *. injection Hrun as <- <-. injection Hlast as <- <-. by left.
  - simpl in Hrun. case_bool_decide as Hclock; [|done].
    destruct e as [a|h].
    + destruct (call_armed var wait st a now Hvar) as (st1 & Hstep & Harm1); [by eauto|].
      rewrite Hstep in Hrun.
      destruct (Debounce.run var wait tr now st1) as [[outs1 st2]|] eqn:Hrun1; [|done].
      injection Hrun as <- <-. simpl in Hwin. destruct Hwin as [_ Hwin].
      cbn [Debounce.calls_of] in Hlast. rewrite last_cons_cons in Hlast.
      by apply (IH now st1 a now outs1 st2 args' t').
    + destruct (Debounce.step var wait st (Debounce.Fire h) now)
        as [[out st1]|] eqn:Hstep; [|done].
      destruct (Debounce.run var wait tr now st1) as [[outs1 st2]|] eqn:Hrun1; [|done].
      injection Hrun as <- <-.
      destruct (fire_armed var wait st args t h now out st1 Hvar Harm Hstep)
        as (Hdue & -> & Hp1).
      simpl in Hwin. cbn [Debounce.calls_of] in Hlast.
      destruct (run_quiet var wait tr now st1 outs1 st2 t Hp1 Hdue Hwin Hrun1)
        as (-> & Hp2 & Hcalls).
      rewrite Hcalls in Hlast. injection Hlast as <- <-. by right.
Qed.

(** Every history, burst by burst: each timer run passes the latest call
    to [func], [wait] or more after that call, and nothing else does. *)
Lemma run_settled var wait tr : ∀ clock st last outs st',
  Debounce.trailing var →
  DebounceHistory.agrees wait last st →
  Debounce.run var wait tr clock st = Some (outs, st') →
  outs = (DebounceHistory.settled last tr).*1.*1 ∧
  Forall (λ c, c.1.2 + wait ≤ c.2) (DebounceHistory.settled last tr) ∧
  DebounceHistory.agrees wait (DebounceHistory.waiting last tr) st'.
Proof.
  induction tr as [|[e now] tr IH]; intros clock st last outs st' Hvar Hst Hrun.
  - simpl in Hrun. injection Hrun as <- <-. by split_and!.
  - simpl in Hrun. case_bool_decide as Hclock; [|done].
    destruct e as [a|h].
    + destruct (call_armed var wait st a now Hvar) as (st1 & Hstep & Harm1).
      { destruct last as [[a0 t0]|]; [right; by eauto | by left]. }
      rewrite Hstep in Hrun.
      destruct (Debounce.run var wait tr now st1) as [[outs1 st2]|] eqn:Hrun1; [|done].
      injection Hrun as <- <-.
      by apply (IH now st1 (Some (a, now)) outs1 st2).
    + destruct (Debounce.step var wait st (Debounce.Fire h) now)
        as [[out st1]|] eqn:Hstep; [|done].
      destruct (Debounce.run var wait tr now st1) as [[outs1 st2]|] eqn:Hrun1; [|done].
      injection Hrun as <- <-.
      destruct last as [[a0 t0]|]; simpl in Hst.
      * destruct (fire_armed var wait st a0 t0 h now out st1 Hvar Hst Hstep)
          as (Hdue & -> & Hp1).
        destruct (IH now st1 None outs1 st2 Hvar Hp1 Hrun1) as (-> & Hall & Hag).
        cbn [DebounceHistory.settled DebounceHistory.waiting]. split_and!; [done| |done].
        by constructor.
      * exfalso. destruct var; simpl in Hstep;
          unfold Debounce.fire, Debounce.fire_perf in Hstep;
          by rewrite Hst, lookup_empty in Hstep.
Qed.

(** With [immediate] the first call of a burst calls [func] at once, and
    the timer of the burst calls nothing. *)
Lemma immediate_is_leading_edge wait (a : A) now h now' st1 outs st2 :
  Debounce.step (Debounce.Perf true) wait Debounce.init (Debounce.Call a) now
  = Some ([a], st1) →
  Debounce.step (Debounce.Perf true) wait st1 (Debounce.Fire h) now' = Some (outs, st2) →
  outs = [] ∧ Debounce.timeout st2 = None.
Proof.
  simpl. intros [= <-]. unfold Debounce.fire_perf. simpl.
  destruct (_ !! h) as [[due a']|]; [|done].
  case_bool_decide; [|done]. by intros [= <- <-].
Qed.

End facts.
End DebounceFacts.

(** ** Claim on the debounced filter update *)

(** C7.  Either debounce utility, called without [immediate], with a
    [wait] that [setTimeout] takes as given.

    A burst: from any state of the debounced function in which no timer is
    registered (a fresh function, or one whose earlier bursts are over), take
    a history in which every call comes less than [wait] after the previous
    one, and let [(v, t)] be its last call.  Whatever timers ran in between,
    [func] has been called at most once: either not at all, and then exactly
    one timer is registered, the one of the last call, which from [t + wait]
    on runs, calls [func(v)] and leaves nothing registered; or exactly once,
    with [v], and nothing is registered any more.  Five calls [v1 .. v5]
    within 300 ms are the case [wait = 300], [v = v5].

    Every history of a fresh function: [func] is called once for each timer
    run and by nothing else, with the arguments of the latest call before
    that run and [wait] or more after that call; every other call has been
    cancelled by the call that followed it, and at the end the one timer
    registered, if any, is that of the last call. *)
Theorem C7_debounce_collapses_burst {A : Type} (var : Debounce.variant) (wait : Z) :
  Debounce.trailing var →
  Timer.as_given wait →
  (∀ (st : Debounce.state A) (tr : list (Debounce.event A * Z)) (clock : Z)
     (outs : list A) (st' : Debounce.state A) (v : A) (t : Z),
     Debounce.pending st = ∅ →
     Debounce.run var wait tr clock st = Some (outs, st') →
     last (Debounce.calls_of tr) = Some (v, t) →
     Debounce.one_burst wait (Debounce.calls_of tr) →
     (outs = [] ∧ Debounce.armed wait v t st' ∧
      ∀ now, t + wait ≤ now →
        ∃ h st'', Debounce.step var wait st' (Debounce.Fire h) now = Some ([v], st'') ∧
                  Debounce.pending st'' = ∅)
     ∨ (outs = [v] ∧ Debounce.pending st' = ∅)) ∧
  (∀ (tr : list (Debounce.event A * Z)) (clock : Z) (outs : list A)
     (st' : Debounce.state A),
     Debounce.run var wait tr clock Debounce.init = Some (outs, st') →
     outs = (DebounceHistory.settled None tr).*1.*1 ∧
     Forall (λ c, c.1.2 + wait ≤ c.2) (DebounceHistory.settled None tr) ∧
     DebounceHistory.agrees wait (DebounceHistory.waiting None tr) st').
Proof.
  intros Hvar _. split.
  - intros st tr clock outs st' v t Hquiet Hrun Hlast Hburst.
    destruct tr as [|[[a|h] now] tr]; [done| |].
    + simpl in Hrun. case_bool_decide; [|done].
      destruct (DebounceFacts.call_armed var wait st a now Hvar)
        as (st1 & Hstep & Harm1); [by left|].
      rewrite Hstep in Hrun.
      destruct (Debounce.run var wait tr now st1) as [[outs1 st2]|] eqn:Hrun1; [|done].
      injection Hrun as <- <-. cbn [Debounce.calls_of] in Hlast. simpl in Hburst.
      destruct (DebounceFacts.run_armed var wait tr now st1 a now outs1 st2 v t
                  Hvar Harm1 Hburst Hrun1 Hlast) as [[-> Harm]|[-> Hp]].
      * left. split_and!; [done..|]. intros now' Hnow'.
        by apply DebounceFacts.fire_armed_due with (t := t).
      * by right.
    + simpl in Hrun. case_bool_decide; [|done].
      destruct var; simpl in Hrun; unfold Debounce.fire, Debounce.fire_perf in Hrun;
        simpl in Hrun; by rewrite Hquiet, lookup_empty in Hrun.
  - intros tr clock outs st' Hrun.
    by apply (DebounceFacts.run_settled var wait tr clock Debounce.init None).
Qed.

(** C7 at work: five filter values within 200 ms and their timer at 500, then
    five more from 1000 on and their timer at 1700.  The second burst, read
    from the state the first one left, calls [func] once with its last value,
    and the whole history calls it with "v5" and "w5". *)
Lemma C7_debounce_collapses_burst_witness :
  let burst1 := take 6 DebounceHistory.two_bursts in
  let burst2 := drop 6 DebounceHistory.two_bursts in
  ∃ st1 st2,
    Debounce.run Debounce.Simple 300 burst1 0 Debounce.init = Some (["v5"], st1) ∧
    Debounce.run Debounce.Simple 300 burst2 500 st1 = Some (["w5"], st2) ∧
    ((["w5"] = [] ∧ Debounce.armed 300 "w5" 1400 st2 ∧
      ∀ now, 1400 + 300 ≤ now →
        ∃ h st'', Debounce.step Debounce.Simple 300 st2 (Debounce.Fire h) now
                  = Some (["w5"], st'') ∧ Debounce.pending st'' = ∅)
     ∨ (["w5"] = ["w5"] ∧ Debounce.pending st2 = ∅)) ∧
    Debounce.run Debounce.Simple 300 DebounceHistory.two_bursts 0 Debounce.init
    = Some (["v5"; "w5"], st2) ∧
    ["v5"; "w5"] = (DebounceHistory.settled None DebounceHistory.two_bursts).*1.*1.
Proof.
  assert (Timer.as_given 300) as Hwait by (unfold Timer.as_given, Timer.TIMEOUT_MAX; lia).
  destruct (C7_debounce_collapses_burst (A := string) Debounce.Simple 300 I Hwait)
    as [Hburst Hall].
  exists (Debounce.mk (Some 5%nat) ∅ 6), (Debounce.mk (Some 10%nat) ∅ 11).
  split; [vm_compute; reflexivity|].
  split; [vm_compute; reflexivity|].
  split.
  - apply (Hburst (Debounce.mk (Some 5%nat) ∅ 6) (drop 6 DebounceHistory.two_bursts) 500).
    + reflexivity.
    + vm_compute. reflexivity.
    + reflexivity.
    + simpl. lia.
  - split; [vm_compute; reflexivity|].
    apply (Hall DebounceHistory.two_bursts 0 ["v5"; "w5"] (Debounce.mk (Some 10%nat) ∅ 11)).
    vm_compute. reflexivity.
Defined.

(** ** The business-options route *)

Module RoutesFacts.
Import Routes.

Lemma distinct_sorted_nil column : distinct_sorted column [] = [].
Proof. reflexivity. Qed.

(** No vertical carries the name: the join selects nothing. *)
Lemma active_in_vertical_unknown db vertical :
  (∀ v, v ∈ VERTICAL db → VNAME v ≠ vertical) →
  active_in_vertical db vertical = [].
Proof.
  intros Hno. apply elem_of_nil_inv. intros b Hb.
  unfold active_in_vertical in Hb.
  apply list_elem_of_bind in Hb as (b0 & Hb & _).
  apply list_elem_of_bind in Hb as (v & Hb & Hv).
  case_bool_decide as Hc; [|by apply elem_of_nil in Hb].
  destruct Hc as (_ & Hname & _). by apply (Hno v).
Qed.

Section handler.
Context {C : Type} `{!CacheService C}.
Context (executeQuery : query → option (list row)).

Lemma getBusiness_per_user req t_get t_set (c : C) groupResult buidResult :
  (svc_get c (cacheKey req) t_get).1 = None →
  executeQuery (groupQuery (bucketId req)) = Some groupResult →
  group_security groupResult = false →
  executeQuery (buidQuery (userId req)) = Some buidResult →
  getBusiness executeQuery req t_get t_set c =
    let c1 := (svc_get c (cacheKey req) t_get).2 in
    if bool_decide (0 < length buidResult)%nat then
      match executeQuery
              (businessQueryScoped ((λ r, field r "BUID") <$> buidResult) (vertical req)) with
      | Some businessData =>
          (mkRes 200 (Data businessData false),
           svc_set c1 (cacheKey req) businessData 300000 t_set)
      | None => (mkRes 500 (Error "Internal server error"), c1)
      end
    else (mkRes 404 (Error "No matching BUID found"), c1).
Proof.
  intros Hmiss Hgroup Hsec Hbuid. unfold getBusiness.
  destruct (svc_get c (cacheKey req) t_get) as [cachedData c1]. simpl in *. subst.
  rewrite Hgroup. simpl. rewrite Hsec, Hbuid. simpl.
  destruct (bool_decide _); [|done].
  destruct (executeQuery (businessQueryScoped _ _)); reflexivity.
Qed.

End handler.
(** What the handler answers for a vertical name that no vertical carries,
    on a cache miss: every 200 response has an empty list. *)
Lemma getBusiness_unknown_vertical db req t_get t_set (c : CacheManager.t (list row)) :
  (∀ v, v ∈ VERTICAL db → VNAME v ≠ vertical req) →
  (CacheManager.get c (cacheKey req) t_get).1 = None →
  status (getBusiness (run_query db) req t_get t_set c).1 = 200 →
  json (getBusiness (run_query db) req t_get t_set c).1 = Data [] false.
Proof.
  intros Hno Hmiss. unfold getBusiness. simpl svc_get.
  destruct (CacheManager.get c (cacheKey req) t_get) as [cachedData c1].
  simpl in Hmiss. subst. simpl.
  destruct (group_security _); simpl.
  - by rewrite active_in_vertical_unknown.
  - case_bool_decide; [|done].
    destruct (in_list _); simpl; [|done].
    by rewrite active_in_vertical_unknown.
Qed.

End RoutesFacts.

(** ** Claims on the business-options route *)

(** C4.  On the per-user path (nothing cached for the request, the group
    lookup answers, and its answer is not group security): when the lookup
    of the user's BUIDs returns no row the response is 404 with the error
    "No matching BUID found" and nothing is stored in the cache; when it
    returns a row the response is not a 404.  Over the relational store the
    first case is the one of a user without rows in USERGROUPS. *)
Theorem C4_no_buid_is_not_found :
  (∀ (C : Type) (S : Routes.CacheService C) executeQuery req t_get t_set (c : C)
     groupResult buidResult,
     (Routes.svc_get c (Routes.cacheKey req) t_get).1 = None →
     executeQuery (Routes.groupQuery (Routes.bucketId req)) = Some groupResult →
     Routes.group_security groupResult = false →
     executeQuery (Routes.buidQuery (Routes.userId req)) = Some buidResult →
     (buidResult = [] →
        Routes.getBusiness executeQuery req t_get t_set c
        = (Routes.mkRes 404 (Routes.Error "No matching BUID found"),
           (Routes.svc_get c (Routes.cacheKey req) t_get).2)) ∧
     (buidResult ≠ [] →
        Routes.status (Routes.getBusiness executeQuery req t_get t_set c).1 ≠ 404)) ∧
  (∀ db req t_get t_set (c : CacheManager.t (list Routes.row)) groupResult,
     (CacheManager.get c (Routes.cacheKey req) t_get).1 = None →
     Routes.run_query db (Routes.groupQuery (Routes.bucketId req)) = Some groupResult →
     Routes.group_security groupResult = false →
     filter (λ u, Routes.USERID u = Routes.userId req) (Routes.USERGROUPS db) = [] →
     Routes.getBusiness (Routes.run_query db) req t_get t_set c
     = (Routes.mkRes 404 (Routes.Error "No matching BUID found"),
        (CacheManager.get c (Routes.cacheKey req) t_get).2)).
Proof.
  split.
  - intros C S executeQuery req t_get t_set c groupResult buidResult Hmiss Hgroup Hsec Hbuid.
    rewrite (RoutesFacts.getBusiness_per_user executeQuery req t_get t_set c
               groupResult buidResult) by done.
    split.
    + by intros ->.
    + intros Hne. cbv zeta. rewrite bool_decide_eq_true_2.
      * destruct (executeQuery (Routes.businessQueryScoped _ _)); simpl; lia.
      * destruct buidResult; [done | simpl; lia].
  - intros db req t_get t_set c groupResult Hmiss Hgroup Hsec Hnone.
    rewrite (RoutesFacts.getBusiness_per_user (Routes.run_query db) req t_get t_set c
               groupResult []); try done.
    simpl. by rewrite Hnone.
Qed.

(** C4 at work: bucket 2, user 99 (no USERGROUPS rows), vertical "Energy";
    and user 7 of the same bucket, who has BUIDs. *)
Lemma C4_no_buid_is_not_found_witness :
  Routes.getBusiness (Routes.run_query Routes.example_db)
    (Routes.mkReq 2 99 "Energy") 0 0 CacheManager.constructor
  = (Routes.mkRes 404 (Routes.Error "No matching BUID found"), CacheManager.constructor) ∧
  Routes.status
    (Routes.getBusiness (Routes.run_query Routes.example_db)
       (Routes.mkReq 2 7 "Energy") 0 0 CacheManager.constructor).1 ≠ 404.
Proof.
  split.
  - apply (proj2 C4_no_buid_is_not_found Routes.example_db (Routes.mkReq 2 99 "Energy")
             0 0 CacheManager.constructor
             [ {[ "ANALYTICS_GROUP_LEVEL_NAME" := Routes.VStr "USER LEVEL" ]} ]);
      reflexivity.
  - apply (proj1 C4_no_buid_is_not_found _ _ (Routes.run_query Routes.example_db)
             (Routes.mkReq 2 7 "Energy") 0 0 CacheManager.constructor
             [ {[ "ANALYTICS_GROUP_LEVEL_NAME" := Routes.VStr "USER LEVEL" ]} ]
             [ {[ "BUID" := Routes.VInt 100 ]}; {[ "BUID" := Routes.VInt 102 ]} ]);
      try reflexivity. discriminate.
Defined.

(** C3, evaluated on the code.  Bucket 1 is under group security and the
    store holds three active businesses.  A request for business options
    with [vertical = "All"] is answered with the businesses of the vertical
    whose name is "All", of which there is none: the list is empty, and it is
    stored under the key of the request.  The unrestricted list the claim
    asks for has three names, and the query of the performance module, which
    tests [@vertical = 'All'], returns the caller's businesses. *)
Lemma C3_all_sentinel_matches_no_vertical :
  let req := Routes.mkReq 1 7 "All" in
  let r := Routes.getBusiness (Routes.run_query Routes.example_db) req 0 0
             CacheManager.constructor in
  r.1 = Routes.mkRes 200 (Routes.Data [] false) ∧
  (CacheManager.get r.2 (Routes.cacheKey req) 1).1 = Some [] ∧
  Routes.spec_unrestricted_businesses Routes.example_db req
  = Some (Routes.names "BUNAME" ["Coal Mining"; "Ports"; "Power Generation"]) ∧
  Routes.optimized_getBusiness Routes.example_db 7 "All"
  = Routes.names "BUNAME" ["Ports"; "Power Generation"] ∧
  Routes.getBusiness (Routes.run_query Routes.example_db) (Routes.mkReq 1 7 "Energy") 0 0
    CacheManager.constructor
  = (Routes.mkRes 200 (Routes.Data (Routes.names "BUNAME" ["Coal Mining"; "Power Generation"])
                         false),
     CacheManager.set CacheManager.constructor "business_1_7_Energy"
       (Routes.names "BUNAME" ["Coal Mining"; "Power Generation"]) 300000 0).
Proof. split_and!; vm_compute; reflexivity. Qed.

(** ** Claims on the filter coordinators *)

(** C8.  With a business selected, choose a vertical [v] that is not empty
    and differs from the current one.  In the hook, once the debounce timer
    of that choice has run, [vertical] is [v] and [business] and [site] are
    empty, the other filters are as before, and neither the cache object nor
    the stored query results have changed; the results stored for the old
    vertical and the old business are still there, under keys that the new
    state no longer reads.  In the component the same holds for the body of
    the debounced update and the module-level cache.  On the server the key
    of the old vertical differs from the key of the new one. *)
Theorem C8_cascade_reset_keeps_cache :
  (∀ (T D : Type) (st : UseDashboardData.state T D) v now now',
     v ≠ "" →
     v ≠ UseDashboardData.vertical (UseDashboardData.filters st) →
     UseDashboardData.business (UseDashboardData.filters st) ≠ "" →
     now + 300 ≤ now' →
     ∃ st',
       UseDashboardData.fireBusiness
         (Debounce.next_handle (UseDashboardData.dBusiness st)) now'
         (UseDashboardData.updateFilter UseDashboardData.KVertical v now st) = Some st' ∧
       UseDashboardData.filters st'
       = UseDashboardData.mkFilters v "" ""
           (UseDashboardData.year (UseDashboardData.filters st))
           (UseDashboardData.month (UseDashboardData.filters st))
           (UseDashboardData.date (UseDashboardData.filters st)) ∧
       UseDashboardData.frontendCache st' = UseDashboardData.frontendCache st ∧
       UseDashboardData.queryCache st' = UseDashboardData.queryCache st ∧
       UseDashboardData.businessKey st' ≠ UseDashboardData.businessKey st ∧
       UseDashboardData.siteKey st' ≠ UseDashboardData.siteKey st) ∧
  (∀ (w : IndexChairmanDaily.world) v,
     let w' := (IndexChairmanDaily.debouncedUpdateFilter "vertical" v w).1 in
     IndexChairmanDaily.filters (IndexChairmanDaily.component w') !! "vertical" = Some v ∧
     IndexChairmanDaily.filters (IndexChairmanDaily.component w') !! "business" = Some "" ∧
     IndexChairmanDaily.filters (IndexChairmanDaily.component w') !! "site" = Some "" ∧
     IndexChairmanDaily.cache w' = IndexChairmanDaily.cache w) ∧
  (∀ bucketId userId v v',
     v ≠ v' →
     Routes.cacheKey (Routes.mkReq bucketId userId v)
     ≠ Routes.cacheKey (Routes.mkReq bucketId userId v')).
Proof.
  split_and!.
  - intros T D st v now now' Hv Hnew Hbus Hnow.
    unfold UseDashboardData.fireBusiness, UseDashboardData.updateFilter. simpl.
    unfold Debounce.fire. simpl. rewrite lookup_insert_eq. simpl.
    rewrite bool_decide_eq_true_2 by lia. simpl.
    eexists. split; [done|]. simpl.
    unfold UseDashboardData.debouncedUpdateBusiness_body. simpl.
    rewrite decide_True by done.
    split_and!; try done.
    + unfold UseDashboardData.businessKey. simpl. congruence.
    + unfold UseDashboardData.siteKey. simpl. congruence.
  - intros w v. unfold IndexChairmanDaily.debouncedUpdateFilter.
    destruct (IndexChairmanDaily.debouncedUpdateFilter_body "vertical" v
                (IndexChairmanDaily.component w)) as [st r] eqn:Hbody.
    unfold IndexChairmanDaily.debouncedUpdateFilter_body in Hbody.
    rewrite decide_True in Hbody by done. simpl.
    destruct (IndexChairmanDaily.selectable v); injection Hbody as <- _; simpl;
      rewrite !lookup_insert_ne, lookup_insert_eq by done;
      rewrite lookup_insert_ne, !lookup_insert_eq by done; done.
  - intros bucketId userId v v' Hne Heq. apply Hne.
    unfold Routes.cacheKey in Heq. simpl in Heq.
    by repeat apply (inj (String.app _)) in Heq.
Qed.

(** C8 at work: "Energy" with business "X" selected, then "Logistics". *)
Lemma C8_cascade_reset_keeps_cache_witness :
  let st : UseDashboardData.state nat nat :=
    UseDashboardData.mk (UseDashboardData.mkFilters "Energy" "X" "S" "2024" "1" "")
      1 1 FrontendCache.constructor
      (λ k, match k with UseDashboardData.QBusiness _ _ "Energy" => Some 5%nat | _ => None end)
      Debounce.init Debounce.init Debounce.init in
  ∃ st',
    UseDashboardData.fireBusiness 1 300
      (UseDashboardData.updateFilter UseDashboardData.KVertical "Logistics" 0 st) = Some st' ∧
    UseDashboardData.filters st' = UseDashboardData.mkFilters "Logistics" "" "" "2024" "1" "" ∧
    UseDashboardData.frontendCache st' = UseDashboardData.frontendCache st ∧
    UseDashboardData.queryCache st' = UseDashboardData.queryCache st ∧
    UseDashboardData.businessKey st' ≠ UseDashboardData.businessKey st ∧
    UseDashboardData.siteKey st' ≠ UseDashboardData.siteKey st.
Proof.
  apply (proj1 C8_cascade_reset_keeps_cache nat nat
           (UseDashboardData.mk (UseDashboardData.mkFilters "Energy" "X" "S" "2024" "1" "")
              1 1 FrontendCache.constructor
              (λ k, match k with
                    | UseDashboardData.QBusiness _ _ "Energy" => Some 5%nat
                    | _ => None
                    end)
              Debounce.init Debounce.init Debounce.init)
           "Logistics" 0 300); [discriminate | discriminate | discriminate | lia].
Defined.

(** ** Refresh *)

Module RefreshFacts.
Import IndexChairmanDaily.

Lemma start_all_loading rs : ∀ st k,
  loading (foldl fetchData_start st rs) !! k
  = if bool_decide (k ∈ type <$> rs) then Some true else loading st !! k.
Proof.
  induction rs as [|r rs IH]; intros st k.
  - reflexivity.
  - rewrite fmap_cons. simpl foldl. rewrite IH. simpl.
    destruct (decide (k = type r)) as [->|Hne];
      [rewrite lookup_insert_eq | rewrite lookup_insert_ne by done];
      repeat case_bool_decide; try done; exfalso;
      repeat match goal with
             | H : _ ∈ _ :: _ |- _ => apply elem_of_cons in H as [?|?]
             | H : _ ∉ _ :: _ |- _ => apply not_elem_of_cons in H as [? ?]
             end; done.
Qed.

(** Replies to other fetches leave a slice alone. *)
Lemma settle_all_other replies : ∀ st k,
  Forall (λ ro : request * outcome, type ro.1 ≠ k) replies →
  loading (settle_all st replies) !! k = loading st !! k ∧
  data (settle_all st replies) !! k = data st !! k ∧
  cached (settle_all st replies) !! k = cached st !! k.
Proof.
  induction replies as [|[r o] replies IH]; intros st k Hall; [done|].
  apply Forall_cons in Hall as [Hne Hall]. simpl in Hne.
  unfold settle_all in *. simpl.
  destruct (IH (fetchData_settle st (r, o)) k Hall) as (-> & -> & ->).
  unfold fetchData_settle. simpl.
  destruct o; simpl; rewrite ?lookup_insert_ne by done; done.
Qed.

(** A slice ends as its own reply says. *)
Lemma settle_all_own replies : ∀ st r o,
  NoDup (type <$> replies.*1) →
  (r, o) ∈ replies →
  loading (settle_all st replies) !! type r = Some false ∧
  data (settle_all st replies) !! type r
  = Some (match o with Resolved result _ => result | Rejected => [] end).
Proof.
  induction replies as [|[r0 o0] replies IH]; intros st r o Hnd Hin.
  - by apply elem_of_nil in Hin.
  - rewrite !fmap_cons in Hnd. apply NoDup_cons in Hnd as [Hfresh Hnd].
    apply elem_of_cons in Hin as [[= <- <-]|Hin].
    + assert (Forall (λ ro : request * outcome, type ro.1 ≠ type r) replies) as Hall.
      { apply Forall_forall. intros [r1 o1] Hin1 Heq. apply Hfresh. simpl in *.
        rewrite <- Heq. apply list_elem_of_fmap. exists r1. split; [done|].
        apply list_elem_of_fmap. by exists (r1, o1). }
      change (settle_all st ((r, o) :: replies))
        with (settle_all (fetchData_settle st (r, o)) replies).
      destruct (settle_all_other replies (fetchData_settle st (r, o)) (type r) Hall)
        as (-> & -> & _).
      unfold fetchData_settle. simpl. destruct o; simpl; by rewrite !lookup_insert_eq.
    + by apply (IH (fetchData_settle st (r0, o0))).
Qed.

Lemma refreshPromises_NoDup filters : NoDup (type <$> refreshPromises filters).
Proof.
  unfold refreshPromises.
  destruct (selected filters "vertical"), (selected filters "business"),
    (filters !! "year") as [y|]; try destruct (bool_decide (y ≠ ""));
    simpl; refine (bool_decide_unpack _ _); by vm_compute.
Qed.

(** The module-level cache is the one reader that compares the other way
    round: its entry is absent from [timestamp + CACHE_DURATION] on. *)
Lemma getCachedData_setCachedData cache k d t now :
  getCachedData (setCachedData cache k d t) k now
  = if bool_decide (now - t < CACHE_DURATION) then Some d else None.
Proof. unfold getCachedData, setCachedData. by rewrite lookup_insert_eq. Qed.

(** Nothing is fetched below a filter that is empty or "All". *)
Lemma selected_All filters k : filters !! k = Some "All" → selected filters k = None.
Proof. unfold selected. by intros ->. Qed.

Lemma selected_spec filters k v :
  selected filters k = Some v ↔ filters !! k = Some v ∧ v ≠ "" ∧ v ≠ "All".
Proof.
  unfold selected, selectable.
  destruct (filters !! k) as [x|]; [|split; [done | by intros [? _]]].
  destruct (decide (x = "")) as [->|H1].
  { simpl. split; [done|]. by intros ([= <-] & ? & _). }
  destruct (decide (x = "All")) as [->|H2].
  { simpl. split; [done|]. by intros ([= <-] & _ & ?). }
  rewrite !bool_decide_eq_true_2 by done. simpl. split.
  - by intros [= <-].
  - by intros ([= <-] & _).
Qed.

(** The fetches of a refresh, one by one, each with its guard. *)
Lemma refreshPromises_spec filters rq :
  rq ∈ refreshPromises filters ↔
  rq = mkRequest "getVertical" [Routes.VInt 1; Routes.VInt 1] ∨
  rq = mkRequest "getYears" [] ∨
  (∃ v, filters !! "vertical" = Some v ∧ v ≠ "" ∧ v ≠ "All" ∧
        rq = mkRequest "getBusiness" [Routes.VInt 1; Routes.VInt 1; Routes.VStr v]) ∨
  (∃ b, filters !! "business" = Some b ∧ b ≠ "" ∧ b ≠ "All" ∧
        rq = mkRequest "getSite" [Routes.VInt 1; Routes.VInt 1; Routes.VStr b]) ∨
  (∃ y, filters !! "year" = Some y ∧ y ≠ "" ∧ rq = mkRequest "getMonths" [Routes.VStr y]).
Proof.
  unfold refreshPromises. rewrite !elem_of_app, !elem_of_cons, elem_of_nil.
  assert (rq ∈ match selected filters "vertical" with
               | Some v => [mkRequest "getBusiness"
                              [Routes.VInt 1; Routes.VInt 1; Routes.VStr v]]
               | None => []
               end
          ↔ ∃ v, filters !! "vertical" = Some v ∧ v ≠ "" ∧ v ≠ "All" ∧
                 rq = mkRequest "getBusiness"
                        [Routes.VInt 1; Routes.VInt 1; Routes.VStr v]) as ->.
  { destruct (selected filters "vertical") as [v|] eqn:Hv.
    - apply selected_spec in Hv as (Hv & Hv1 & Hv2). rewrite list_elem_of_singleton.
      split; [intros ->; by exists v|]. intros (v' & Hv' & _ & _ & ->). congruence.
    - rewrite elem_of_nil. split; [done|]. intros (v & H1 & H2 & H3 & _).
      assert (selected filters "vertical" = Some v) as Hs by (by apply selected_spec).
      congruence. }
  assert (rq ∈ match selected filters "business" with
               | Some b => [mkRequest "getSite"
                              [Routes.VInt 1; Routes.VInt 1; Routes.VStr b]]
               | None => []
               end
          ↔ ∃ b, filters !! "business" = Some b ∧ b ≠ "" ∧ b ≠ "All" ∧
                 rq = mkRequest "getSite"
                        [Routes.VInt 1; Routes.VInt 1; Routes.VStr b]) as ->.
  { destruct (selected filters "business") as [b|] eqn:Hb.
    - apply selected_spec in Hb as (Hb & Hb1 & Hb2). rewrite list_elem_of_singleton.
      split; [intros ->; by exists b|]. intros (b' & Hb' & _ & _ & ->). congruence.
    - rewrite elem_of_nil. split; [done|]. intros (b & H1 & H2 & H3 & _).
      assert (selected filters "business" = Some b) as Hs by (by apply selected_spec).
      congruence. }
  assert (rq ∈ match filters !! "year" with
               | Some y => if bool_decide (y ≠ "")
                           then [mkRequest "getMonths" [Routes.VStr y]] else []
               | None => []
               end
          ↔ ∃ y, filters !! "year" = Some y ∧ y ≠ "" ∧
                 rq = mkRequest "getMonths" [Routes.VStr y]) as ->.
  { destruct (filters !! "year") as [y|];
      [|rewrite elem_of_nil; split; [done | by intros (? & ? & _)]].
    case_bool_decide as Hy.
    - rewrite list_elem_of_singleton.
      split; [intros ->; by exists y|]. by intros (y' & [= <-] & _ & ->).
    - rewrite elem_of_nil. split; [done|]. by intros (y' & [= <-] & Hy' & _). }
  tauto.
Qed.

End RefreshFacts.

Module HookFacts.
Import UseDashboardData.

Section facts.
Context {T D : Type}.

(** The business query of the hook is disabled while the vertical is "All"
    (a refetch asked for by [refreshData] is sent all the same). *)
Lemma businessEnabled_All (st : state T D) :
  vertical (filters st) = "All" → businessEnabled st = false.
Proof. unfold businessEnabled. by intros ->. Qed.

Lemma businessEnabled_spec (st : state T D) :
  businessEnabled st = true ↔ vertical (filters st) ≠ "" ∧ vertical (filters st) ≠ "All".
Proof.
  unfold businessEnabled. rewrite andb_true_iff, !bool_decide_eq_true. done.
Qed.

End facts.
End HookFacts.

(** The server cache holds the business options of "Energy" for bucket 1,
    user 1, stored at instant 0; the page has "Energy" selected and refreshes
    at instant 1000.  The answer to the business refetch comes from the
    server cache, which still holds its entry; and the refetches of the hook
    do not include the vertical and the years queries.  So the refresh does
    not clear both layers, nor refetch every level (C5 as stated). *)
Lemma C5_counterexample :
  let energy := Routes.names "BUNAME" ["Coal Mining"; "Power Generation"] in
  let sys :=
    System.mk
      (UseDashboardData.mk (UseDashboardData.mkFilters "Energy" "" "" "" "" "")
         1 1 FrontendCache.constructor (λ _, None)
         Debounce.init Debounce.init Debounce.init)
      (CacheManager.set CacheManager.constructor "business_1_1_Energy" energy 300000 0) in
  let r := System.refresh_business (Routes.run_query Routes.example_db) 1000 sys in
  r.1.1 = Routes.mkRes 200 (Routes.Data energy true) ∧
  JSMap.size (CacheManager.cache (System.server r.2)) = 1%nat ∧
  System.server r.2 = System.server sys ∧
  r.1.2 = [UseDashboardData.QBusiness 1 1 "Energy"; UseDashboardData.QSite 1 1 "";
           UseDashboardData.QMonths ""].
Proof. split_and!; vm_compute; reflexivity. Qed.

(** C5, amended.  The manual refresh clears the client-side cache only; no
    part of it clears the server cache, and a refetch whose entry is live on
    the server is answered from there.  The hook empties [frontendCache] and
    refetches the business, site and months queries.  The component empties
    its module-level cache and starts, together, the fetches of vertical and
    years, of business when the vertical filter is set and is not "All", of
    site when the business filter is set and is not "All", and of months when
    the year filter is set, and no other fetch; every started fetch is marked
    loading and no other flag changes.  Whatever the order of the replies,
    each level ends with its own result, or with an empty list when its own
    fetch failed, and is no longer loading: a failure of one level changes
    nothing for the others. *)
Theorem C5_refresh_clears_client_cache_only :
  (∀ (T D : Type) (st : UseDashboardData.state T D),
     let r := UseDashboardData.refreshData st in
     UseDashboardData.frontendCache r.1 = FrontendCache.constructor ∧
     UseDashboardData.filters r.1 = UseDashboardData.filters st ∧
     UseDashboardData.queryCache r.1 = UseDashboardData.queryCache st ∧
     r.2 = [UseDashboardData.businessKey st; UseDashboardData.siteKey st;
            UseDashboardData.monthsKey st]) ∧
  (∀ w : IndexChairmanDaily.world,
     let r := IndexChairmanDaily.refreshAllData w in
     let filters := IndexChairmanDaily.filters (IndexChairmanDaily.component w) in
     IndexChairmanDaily.cache r.1 = ∅ ∧
     IndexChairmanDaily.mkRequest "getVertical" [Routes.VInt 1; Routes.VInt 1] ∈ r.2 ∧
     IndexChairmanDaily.mkRequest "getYears" [] ∈ r.2 ∧
     (∀ v, IndexChairmanDaily.selected filters "vertical" = Some v →
        IndexChairmanDaily.mkRequest "getBusiness"
          [Routes.VInt 1; Routes.VInt 1; Routes.VStr v] ∈ r.2) ∧
     (∀ b, IndexChairmanDaily.selected filters "business" = Some b →
        IndexChairmanDaily.mkRequest "getSite"
          [Routes.VInt 1; Routes.VInt 1; Routes.VStr b] ∈ r.2) ∧
     (∀ y, filters !! "year" = Some y → y ≠ "" →
        IndexChairmanDaily.mkRequest "getMonths" [Routes.VStr y] ∈ r.2) ∧
     NoDup (IndexChairmanDaily.type <$> r.2) ∧
     (∀ rq, rq ∈ r.2 →
        IndexChairmanDaily.loading (IndexChairmanDaily.component r.1)
          !! IndexChairmanDaily.type rq = Some true) ∧
     (∀ rq, rq ∈ r.2 ↔
        rq = IndexChairmanDaily.mkRequest "getVertical" [Routes.VInt 1; Routes.VInt 1] ∨
        rq = IndexChairmanDaily.mkRequest "getYears" [] ∨
        (∃ v, filters !! "vertical" = Some v ∧ v ≠ "" ∧ v ≠ "All" ∧
              rq = IndexChairmanDaily.mkRequest "getBusiness"
                     [Routes.VInt 1; Routes.VInt 1; Routes.VStr v]) ∨
        (∃ b, filters !! "business" = Some b ∧ b ≠ "" ∧ b ≠ "All" ∧
              rq = IndexChairmanDaily.mkRequest "getSite"
                     [Routes.VInt 1; Routes.VInt 1; Routes.VStr b]) ∨
        (∃ y, filters !! "year" = Some y ∧ y ≠ "" ∧
              rq = IndexChairmanDaily.mkRequest "getMonths" [Routes.VStr y])) ∧
     (∀ k, k ∉ IndexChairmanDaily.type <$> r.2 →
        IndexChairmanDaily.loading (IndexChairmanDaily.component r.1) !! k
        = IndexChairmanDaily.loading (IndexChairmanDaily.component w) !! k)) ∧
  (∀ st replies rq o,
     NoDup (IndexChairmanDaily.type <$> replies.*1) →
     (rq, o) ∈ replies →
     IndexChairmanDaily.loading (IndexChairmanDaily.settle_all st replies)
       !! IndexChairmanDaily.type rq = Some false ∧
     IndexChairmanDaily.data (IndexChairmanDaily.settle_all st replies)
       !! IndexChairmanDaily.type rq
     = Some (match o with
             | IndexChairmanDaily.Resolved result _ => result
             | IndexChairmanDaily.Rejected => []
             end)) ∧
  (∀ executeQuery now sys d,
     (CacheManager.get (System.server sys)
        (Routes.cacheKey
           (Routes.mkReq (UseDashboardData.bucketId (System.client sys))
              (UseDashboardData.userId (System.client sys))
              (UseDashboardData.vertical (UseDashboardData.filters (System.client sys)))))
        now).1 = Some d →
     let r := System.refresh_business executeQuery now sys in
     r.1.1 = Routes.mkRes 200 (Routes.Data d true) ∧
     System.server r.2 = System.server sys).
Proof.
  split_and!.
  - done.
  - intros w. cbv zeta. unfold IndexChairmanDaily.refreshAllData.
    cbn [fst snd IndexChairmanDaily.cache IndexChairmanDaily.component]. split_and!.
    + done.
    + unfold IndexChairmanDaily.refreshPromises. set_solver.
    + unfold IndexChairmanDaily.refreshPromises. set_solver.
    + intros v Hv. unfold IndexChairmanDaily.refreshPromises. rewrite Hv. set_solver.
    + intros b Hb. unfold IndexChairmanDaily.refreshPromises. rewrite Hb. set_solver.
    + intros y Hy Hne. unfold IndexChairmanDaily.refreshPromises. rewrite Hy.
      rewrite bool_decide_eq_true_2 by done. set_solver.
    + apply RefreshFacts.refreshPromises_NoDup.
    + intros rq Hrq. rewrite RefreshFacts.start_all_loading.
      rewrite bool_decide_eq_true_2; [done|]. apply list_elem_of_fmap. by exists rq.
    + intros rq. apply RefreshFacts.refreshPromises_spec.
    + intros k Hk. rewrite RefreshFacts.start_all_loading.
      by rewrite bool_decide_eq_false_2.
  - intros st replies rq o. apply RefreshFacts.settle_all_own.
  - intros executeQuery now sys d Hlive. cbv zeta.
    unfold System.refresh_business. simpl. unfold Routes.getBusiness. simpl Routes.svc_get.
    pose proof (CacheManagerFacts.get_hit_state (System.server sys) _ now d Hlive)
      as Hsame.
    destruct (CacheManager.get (System.server sys) _ now) as [cachedData c1].
    simpl in Hlive, Hsame. subst. done.
Qed.

(** C5 (amended) at work: the refresh of the freshly mounted component, with
    the vertical fetch failing and the years fetch answering; and the page of
    the counterexample, whose business refetch is served by the server
    cache. *)
Lemma C5_refresh_clears_client_cache_only_witness :
  let years := Routes.names "YEAR" ["2024"; "2023"] in
  let started := (IndexChairmanDaily.refreshAllData
                    (IndexChairmanDaily.mkWorld IndexChairmanDaily.initial ∅)).1 in
  let replies :=
    [(IndexChairmanDaily.mkRequest "getVertical" [Routes.VInt 1; Routes.VInt 1],
      IndexChairmanDaily.Rejected);
     (IndexChairmanDaily.mkRequest "getMonths" [Routes.VStr "2024"],
      IndexChairmanDaily.Rejected);
     (IndexChairmanDaily.mkRequest "getYears" [],
      IndexChairmanDaily.Resolved years false)] in
  let done := IndexChairmanDaily.settle_all (IndexChairmanDaily.component started) replies in
  let energy := Routes.names "BUNAME" ["Coal Mining"; "Power Generation"] in
  let sys :=
    System.mk
      (UseDashboardData.mk (UseDashboardData.mkFilters "Energy" "" "" "" "" "")
         1 1 FrontendCache.constructor (λ _, None)
         Debounce.init Debounce.init Debounce.init)
      (CacheManager.set CacheManager.constructor "business_1_1_Energy" energy 300000 0) in
  (IndexChairmanDaily.loading done !! "getYears" = Some false ∧
   IndexChairmanDaily.data done !! "getYears" = Some years) ∧
  ((System.refresh_business (Routes.run_query Routes.example_db) 1000 sys).1.1
   = Routes.mkRes 200 (Routes.Data energy true) ∧
   System.server (System.refresh_business (Routes.run_query Routes.example_db) 1000 sys).2
   = System.server sys).
Proof.
  cbv zeta. split.
  - apply (proj1 (proj2 (proj2 C5_refresh_clears_client_cache_only))
             _ _ (IndexChairmanDaily.mkRequest "getYears" [])
             (IndexChairmanDaily.Resolved (Routes.names "YEAR" ["2024"; "2023"]) false)).
    + refine (bool_decide_unpack _ _). by vm_compute.
    + right. right. left.
  - apply (proj2 (proj2 (proj2 C5_refresh_clears_client_cache_only))
             (Routes.run_query Routes.example_db) 1000).
    vm_compute. reflexivity.
Defined.

(** * Further properties of the code *)

(** ** Throttle *)

Module ThrottleFacts.
Section facts.
Context {A : Type}.

Lemma run_spaced limit (tr : list (Throttle.event A * Z)) : ∀ clock st lo outs st',
  Throttle.inv limit lo clock st →
  Throttle.orderly limit tr st →
  Throttle.run limit tr clock st = Some (outs, st') →
  Throttle.spaced limit lo outs ∧ outs `sublist_of` Throttle.calls_of tr.
Proof.
  induction tr as [|[e now] tr IH]; intros clock st lo outs st' Hinv Hord Hrun;
    simpl in Hrun.
  - injection Hrun as <- <-. by split.
  - case_bool_decide as Hclock; [|done].
    destruct (Throttle.step limit st e now) as [[out st1]|] eqn:Hstep; [|done].
    destruct (Throttle.run limit tr now st1) as [[outs1 st2]|] eqn:Hrun1; [|done].
    injection Hrun as <- <-. cbn [Throttle.orderly] in Hord. rewrite Hstep in Hord.
    destruct Hord as [He Hord].
    destruct e as [a| | |i]; simpl in Hstep.
    + unfold Throttle.call in Hstep.
      destruct Hinv as [(Hflag & Hp & Hr & Hlo)|[(Hflag & Hp & Hr & Hlo)|
                        (due & Hflag & Hp & Hr & Hlo)]]; rewrite Hflag in Hstep;
        injection Hstep as <- <-.
      * assert (Throttle.inv limit (now + limit) now
                  (Throttle.mk false (Throttle.pending st)
                     (S (Throttle.running st)))) as Hinv1.
        { right. left. simpl. rewrite Hr. split_and!; [done..|lia]. }
        destruct (IH _ _ _ _ _ Hinv1 Hord Hrun1) as [Hsp Hsub].
        split; simpl; [split; [lia | done] | by constructor].
      * congruence.
      * assert (Throttle.inv limit lo now st) as Hinv1.
        { right. right. by exists due. }
        destruct (IH _ _ _ _ _ Hinv1 Hord Hrun1) as [Hsp Hsub].
        split; simpl; [done | by constructor].
    + unfold Throttle.returned in Hstep.
      destruct Hinv as [(Hflag & Hp & Hr & Hlo)|[(Hflag & Hp & Hr & Hlo)|
                        (due & Hflag & Hp & Hr & Hlo)]]; rewrite Hr in Hstep;
        simpl in Hstep; [done| |done].
      injection Hstep as <- <-. simpl.
      assert (Throttle.inv limit lo now
                (Throttle.mk true (Throttle.pending st ++ [now + limit]) 0)) as Hinv1.
      { right. right. exists (now + limit). simpl. rewrite Hp. split_and!; [done..|lia]. }
      exact (IH _ _ _ _ _ Hinv1 Hord Hrun1).
    + done.
    + unfold Throttle.fire in Hstep.
      destruct Hinv as [(Hflag & Hp & Hr & Hlo)|[(Hflag & Hp & Hr & Hlo)|
                        (due & Hflag & Hp & Hr & Hlo)]]; rewrite Hr in Hstep;
        try rewrite Hp in Hstep; simpl in Hstep; [done|done|].
      destruct i as [|i]; simpl in Hstep; [|done].
      case_bool_decide as Hdue; [|done]. injection Hstep as <- <-. simpl.
      assert (Throttle.inv limit lo now (Throttle.mk false [] 0)) as Hinv1.
      { left. simpl. split_and!; [done..|lia]. }
      exact (IH _ _ _ _ _ Hinv1 Hord Hrun1).
Qed.

End facts.
End ThrottleFacts.

(** X1.  Throttle, with a [limit] that [setTimeout] takes as given, and a
    [func] that returns normally and does not call the throttled function
    itself: in every history that starts from a fresh throttled function two
    calls of [func] are at least [limit] apart, and [func] is only ever
    called with arguments of calls of the throttled function, in their order.
    The flag is raised after [func] has returned: a [func] that throws leaves
    it down, and the next call runs [func] again at once. *)
Theorem throttle_rate_bound {A : Type} (limit : Z) :
  Timer.as_given limit →
  (∀ (tr : list (Throttle.event A * Z)) clock outs st',
     Throttle.run limit tr clock Throttle.init = Some (outs, st') →
     Throttle.orderly limit tr Throttle.init →
     Throttle.spaced limit clock outs ∧ outs `sublist_of` Throttle.calls_of tr) ∧
  (∀ (a b : A) now,
     Throttle.run limit [(Throttle.Call a, now); (Throttle.Throw, now);
                         (Throttle.Call b, now)] now Throttle.init
     = Some ([(a, now); (b, now)], Throttle.mk false [] 1)).
Proof.
  intros _. split.
  - intros tr clock outs st' Hrun Hord.
    apply (ThrottleFacts.run_spaced limit tr clock Throttle.init clock outs st');
      [|done..].
    left. by split_and!.
  - intros a b now. simpl. by rewrite !bool_decide_eq_true_2 by lia.
Qed.

(** X1 at work: five calls 40 ms apart with a limit of 100. *)
Lemma throttle_rate_bound_witness :
  let tr := [(Throttle.Call "a", 0); (Throttle.Return, 1); (Throttle.Call "b", 40);
             (Throttle.Call "c", 80); (Throttle.Fire 0, 101); (Throttle.Call "d", 120);
             (Throttle.Return, 120); (Throttle.Call "e", 160)] in
  Throttle.run 100 tr 0 Throttle.init
  = Some ([("a", 0); ("d", 120)], Throttle.mk true [220] 0) ∧
  Throttle.spaced 100 0 [("a", 0); ("d", 120)] ∧
  [("a", 0); ("d", 120)] `sublist_of` Throttle.calls_of tr.
Proof.
  split; [reflexivity|].
  assert (Timer.as_given 100) as Hlimit by (unfold Timer.as_given, Timer.TIMEOUT_MAX; lia).
  apply (proj1 (throttle_rate_bound 100 Hlimit)
           [(Throttle.Call "a", 0); (Throttle.Return, 1); (Throttle.Call "b", 40);
            (Throttle.Call "c", 80); (Throttle.Fire 0, 101); (Throttle.Call "d", 120);
            (Throttle.Return, 120); (Throttle.Call "e", 160)]
           0 _ (Throttle.mk true [220] 0)).
  - reflexivity.
  - simpl. tauto.
Defined.

(** ** PerformanceMonitor *)

Lemma window_step {N : Type} (l : list N) (x : N) :
  (let pushed := drop (length l - 100) l ++ [x] in
   if bool_decide (100 < length pushed)%nat then tail pushed else pushed)
  = drop (length (l ++ [x]) - 100) (l ++ [x]).
Proof.
  cbv zeta. rewrite !length_app, length_drop. simpl.
  case_bool_decide as Hlong.
  - rewrite drop_app_le by lia.
    replace (length l + 1 - 100)%nat with (length l - 100 + 1)%nat by lia.
    rewrite <- drop_drop.
    destruct (drop (length l - 100) l) eqn:Hd; [|done].
    apply (f_equal length) in Hd. rewrite length_drop in Hd. simpl in Hd. lia.
  - replace (length l + 1 - 100)%nat with 0%nat by lia.
    by replace (length l - 100)%nat with 0%nat by lia.
Qed.

(** X2.  PerformanceMonitor: after any number of [recordQueryTime] calls on
    a new monitor, [queryTimes] holds the last hundred recorded times, oldest
    first (all of them while there are at most a hundred), and the four
    counters ([apiCalls], [cacheHits], [cacheMisses], [errors]) are
    untouched. *)
Theorem queryTimes_is_last_hundred {N : Type} (times : list N) :
  let m := foldl PerformanceMonitor.recordQueryTime PerformanceMonitor.constructor times in
  PerformanceMonitor.queryTimes m = drop (length times - 100) times ∧
  (length (PerformanceMonitor.queryTimes m) ≤ 100)%nat ∧
  PerformanceMonitor.apiCalls m = 0%nat ∧
  PerformanceMonitor.cacheHits m = 0%nat ∧
  PerformanceMonitor.cacheMisses m = 0%nat ∧
  PerformanceMonitor.errors m = 0%nat.
Proof.
  cbv zeta.
  assert (∀ ts : list N,
            let m := foldl PerformanceMonitor.recordQueryTime
                       PerformanceMonitor.constructor ts in
            PerformanceMonitor.queryTimes m = drop (length ts - 100) ts ∧
            PerformanceMonitor.apiCalls m = 0%nat ∧
            PerformanceMonitor.cacheHits m = 0%nat ∧
            PerformanceMonitor.cacheMisses m = 0%nat ∧
            PerformanceMonitor.errors m = 0%nat) as Hall.
  { induction ts as [|time ts IH] using rev_ind; [done|].
    cbv zeta in *. rewrite foldl_app. simpl.
    destruct IH as (IHq & IHa & IHh & IHm & IHe).
    rewrite IHq. split_and!; [apply window_step | done..]. }
  destruct (Hall times) as (Hq & Ha & Hh & Hm & He). split_and!; [done| |done..].
  rewrite Hq, length_drop. lia.
Qed.

(** ** More on CacheManager *)

Module CacheManagerMore.
Import JSMapFacts.

Section facts.
Context {V : Type}.
Implicit Types (st : CacheManager.t V) (key : string) (value : V) (now dur : Z).

Lemma delete_sync st key : CacheManagerInv.sync st → CacheManagerInv.sync (CacheManager.delete st key).
Proof.
  intros Hst k. simpl. destruct (decide (key = k)) as [->|Hne].
  - rewrite jsmap_get_delete_eq, lookup_delete_eq. by split; intros [].
  - by rewrite jsmap_get_delete_ne, lookup_delete_ne.
Qed.

Lemma set_sync st key value dur now : CacheManagerInv.sync st → CacheManagerInv.sync (CacheManager.set st key value dur now).
Proof.
  intros Hst. unfold CacheManager.set.
  set (st1 := if bool_decide _ then _ else st).
  assert (CacheManagerInv.sync st1) as Hst1.
  { subst st1. case_bool_decide; [|done]. unfold CacheManager.evict_first.
    destruct (JSMap.first_key _); [by apply delete_sync | done]. }
  clearbody st1. intros k. simpl. destruct (decide (key = k)) as [->|Hne].
  - rewrite jsmap_get_set_eq, lookup_insert_eq. by split; eexists.
  - by rewrite jsmap_get_set_ne, lookup_insert_ne.
Qed.

Lemma step_sync st e : CacheManagerInv.sync st → CacheManagerInv.sync (CacheManager.step st e).
Proof.
  intros Hst. destruct e as [[key value dur|key|key|key| |] now]; simpl.
  - by apply set_sync.
  - unfold CacheManager.get. destruct (negb _); [done|].
    destruct (CacheManager.expired _ _ _); [by apply delete_sync | done].
  - rewrite CacheManagerFacts.has_state. unfold CacheManager.get.
    destruct (negb _); [done|].
    destruct (CacheManager.expired _ _ _); [by apply delete_sync | done].
  - by apply delete_sync.
  - intros k. simpl. rewrite lookup_empty. by split; intros [].
  - apply CacheManagerFacts.cleanup_ind; [done|]. intros. by apply delete_sync.
Qed.

Lemma run_sync tr st : CacheManagerInv.sync st → CacheManagerInv.sync (CacheManager.run tr st).
Proof.
  revert st. induction tr as [|e tr IH]; intros st Hst; [done|].
  simpl. apply IH. by apply step_sync.
Qed.

(** The sweep, key by key, for any part [m] of the expiry map. *)
Lemma cleanup_fold st now (m : gmap string Z) :
  let expired_in k := match m !! k with
                      | Some expiry => bool_decide (now > expiry)
                      | None => false
                      end in
  let acc := map_fold (λ key expiry acc,
                         if bool_decide (now > expiry)
                         then CacheManager.delete acc key else acc) st m in
  ∀ k, JSMap.get (CacheManager.cache acc) k
       = (if expired_in k then None else JSMap.get (CacheManager.cache st) k) ∧
       CacheManager.ttl acc !! k
       = (if expired_in k then None else CacheManager.ttl st !! k).
Proof.
  cbv zeta.
  apply (map_fold_weak_ind
           (λ acc m, ∀ k,
              JSMap.get (CacheManager.cache acc) k
              = (if match m !! k with
                    | Some expiry => bool_decide (now > expiry)
                    | None => false
                    end
                 then None else JSMap.get (CacheManager.cache st) k) ∧
              CacheManager.ttl acc !! k
              = (if match m !! k with
                    | Some expiry => bool_decide (now > expiry)
                    | None => false
                    end
                 then None else CacheManager.ttl st !! k))
           (λ key expiry acc,
              if bool_decide (now > expiry) then CacheManager.delete acc key else acc)
           st).
  - intros k. by rewrite lookup_empty.
  - intros i x m' r Hi IH k. destruct (decide (i = k)) as [->|Hne].
    + rewrite lookup_insert_eq. specialize (IH k). rewrite Hi in IH.
      case_bool_decide; [|done]. simpl.
      by rewrite jsmap_get_delete_eq, lookup_delete_eq.
    + rewrite lookup_insert_ne by done. specialize (IH k).
      case_bool_decide; [|done]. simpl.
      by rewrite jsmap_get_delete_ne, lookup_delete_ne.
Qed.

Lemma cleanup_lookup st now k :
  JSMap.get (CacheManager.cache (CacheManager.cleanup st now)) k
  = (if CacheManager.expired st k now then None else JSMap.get (CacheManager.cache st) k) ∧
  CacheManager.ttl (CacheManager.cleanup st now) !! k
  = (if CacheManager.expired st k now then None else CacheManager.ttl st !! k).
Proof. apply (cleanup_fold st now (CacheManager.ttl st)). Qed.

Lemma get_result st key now :
  (CacheManager.get st key now).1
  = if CacheManager.expired st key now then None else JSMap.get (CacheManager.cache st) key.
Proof.
  unfold CacheManager.get. destruct (JSMap.has _ _) eqn:Hhas; simpl.
  - by destruct (CacheManager.expired _ _ _).
  - apply jsmap_has_false in Hhas. rewrite Hhas. by destruct (CacheManager.expired _ _ _).
Qed.

End facts.
End CacheManagerMore.

Section cache_manager_extras.
Context {V : Type}.
Implicit Types (st : CacheManager.t V) (key : string) (value : V) (now dur : Z).

(** X3.  CacheManager: in every state a history of calls can reach from the
    constructor, an entry of the cache has an expiry in [this.ttl] (the two
    maps hold the same keys), and a [get] of its key after that instant
    returns absent: no entry is kept forever for want of an expiry. *)
Theorem every_entry_expires (tr : list (CacheManager.op V * Z)) key :
  let st := CacheManager.run tr CacheManager.constructor in
  (is_Some (JSMap.get (CacheManager.cache st) key) ↔ is_Some (CacheManager.ttl st !! key)) ∧
  (JSMap.has (CacheManager.cache st) key = true →
   ∃ expiry, CacheManager.ttl st !! key = Some expiry ∧
             ∀ now, now > expiry → (CacheManager.get st key now).1 = None).
Proof.
  cbv zeta.
  assert (CacheManagerInv.sync (CacheManager.run tr (CacheManager.constructor (V:=V))))
    as Hsync.
  { apply CacheManagerMore.run_sync. intros k. simpl. rewrite lookup_empty.
    by split; intros []. }
  split; [apply Hsync|]. intros Hhas.
  apply JSMapFacts.jsmap_has_true, Hsync in Hhas as [expiry Hexp].
  exists expiry. split; [done|]. intros now Hnow.
  rewrite CacheManagerMore.get_result. unfold CacheManager.expired.
  by rewrite Hexp, bool_decide_eq_true_2.
Qed.

(** X4.  CacheManager: the sweep removes exactly the entries whose expiry
    has passed ([now > expiry]) and keeps the others with their values; so a
    [get] made at or after the sweep returns what it would have returned
    without the sweep. *)
Theorem cleanup_is_unobservable st now :
  (∀ k, JSMap.get (CacheManager.cache (CacheManager.cleanup st now)) k
        = if CacheManager.expired st k now then None
          else JSMap.get (CacheManager.cache st) k) ∧
  (∀ k now', now ≤ now' →
     (CacheManager.get (CacheManager.cleanup st now) k now').1
     = (CacheManager.get st k now').1).
Proof.
  split.
  - intros k. apply CacheManagerMore.cleanup_lookup.
  - intros k now' Hle. rewrite !CacheManagerMore.get_result.
    destruct (CacheManagerMore.cleanup_lookup st now k) as [Hc Ht].
    rewrite Hc. unfold CacheManager.expired at 1. rewrite Ht.
    unfold CacheManager.expired.
    destruct (CacheManager.ttl st !! k) as [expiry|]; [|done].
    repeat case_bool_decide; try done; lia.
Qed.

(** X5.  CacheManager: [delete(key)] makes [get(key)] absent and leaves the
    result of a [get] of every other key as it was; after [clear()] every
    [get] is absent. *)
Theorem delete_removes_one_key st key now :
  (CacheManager.get (CacheManager.delete st key) key now).1 = None ∧
  (∀ k, k ≠ key →
     (CacheManager.get (CacheManager.delete st key) k now).1
     = (CacheManager.get st k now).1) ∧
  (∀ k, (CacheManager.get (CacheManager.clear st) k now).1 = None).
Proof.
  split_and!.
  - rewrite CacheManagerMore.get_result. simpl.
    rewrite JSMapFacts.jsmap_get_delete_eq. by destruct (CacheManager.expired _ _ _).
  - intros k Hne. rewrite !CacheManagerMore.get_result. unfold CacheManager.expired. simpl.
    by rewrite JSMapFacts.jsmap_get_delete_ne, lookup_delete_ne.
  - intros k. by rewrite CacheManagerMore.get_result.
Qed.

(** X6.  CacheManager: storing again a key that a full cache already holds
    (and that is not its oldest key) still removes the oldest entry, so the
    cache ends one entry short of [maxSize]. *)
Theorem overwrite_at_capacity_evicts (tr : list (CacheManager.op V * Z))
    key value dur now firstKey rest :
  let st := CacheManager.run tr CacheManager.constructor in
  JSMap.size (CacheManager.cache st) = CacheManager.maxSize st →
  JSMap.keys (CacheManager.cache st) = firstKey :: rest →
  key ∈ rest →
  let st' := CacheManager.set st key value dur now in
  JSMap.keys (CacheManager.cache st') = rest ∧
  JSMap.get (CacheManager.cache st') firstKey = None ∧
  JSMap.size (CacheManager.cache st') = 999%nat.
Proof.
  intros st Hfull Hkeys Hin st'.
  pose proof (CacheManagerFacts.run_wf tr _ CacheManagerFacts.constructor_wf) as Hwf.
  fold st in Hwf.
  destruct (CacheManagerFacts.evict_first_full st Hwf) as (k0 & v0 & m & Hc & Hev & Hrest);
    [lia|].
  destruct Hwf as (Hnd & _ & Hmax).
  assert (CacheManager.cache st' = JSMap.set m key value) as Hset.
  { subst st'. unfold CacheManager.set. rewrite bool_decide_eq_true_2 by lia.
    simpl. by rewrite Hrest. }
  rewrite Hc in Hkeys, Hnd, Hfull. simpl in Hkeys. injection Hkeys as -> <-.
  simpl in Hnd. apply NoDup_cons in Hnd as [Hk0 Hnd].
  rewrite Hset. split_and!.
  - by apply JSMapFacts.jsmap_keys_set_old.
  - rewrite JSMapFacts.jsmap_get_set_ne by (by intros ->).
    by apply JSMapFacts.jsmap_get_None.
  - rewrite JSMapFacts.jsmap_size_set_old by done.
    unfold JSMap.size in *. simpl in Hfull. lia.
Qed.

End cache_manager_extras.

(** X3 at work: after a fill, a sweep and a read, key "7" is present. *)
Lemma every_entry_expires_witness :
  let st := CacheManager.run (CacheManager.fill 0%nat 10 ++
                              [(CacheManager.Cleanup, 500); (CacheManager.Get "3", 600)])
              CacheManager.constructor in
  ∃ expiry, CacheManager.ttl st !! "7" = Some expiry ∧
            ∀ now, now > expiry → (CacheManager.get st "7" now).1 = None.
Proof.
  apply (proj2 (every_entry_expires
                  (CacheManager.fill 0%nat 10 ++
                   [(CacheManager.Cleanup, 500); (CacheManager.Get "3", 600)]) "7")).
  vm_compute. reflexivity.
Defined.

(** X4 at work: a sweep at 1005 over ten entries stored at 0..9 for
    1000 ms each, then a read of key "7" at 1006. *)
Lemma cleanup_is_unobservable_witness :
  let st := CacheManager.run (CacheManager.fill 0%nat 10) CacheManager.constructor in
  (CacheManager.get (CacheManager.cleanup st 1005) "7" 1006).1
  = (CacheManager.get st "7" 1006).1.
Proof.
  apply (proj2 (cleanup_is_unobservable
                  (CacheManager.run (CacheManager.fill 0%nat 10) CacheManager.constructor)
                  1005) "7" 1006).
  lia.
Defined.

(** X6 at work: a cache filled by a thousand [set]s, then key "5" again. *)
Lemma overwrite_at_capacity_evicts_witness :
  let st := CacheManager.run (CacheManager.fill 0%nat 1000) CacheManager.constructor in
  let st' := CacheManager.set st "5" 1%nat 1000 2000 in
  JSMap.get (CacheManager.cache st') "0" = None ∧
  JSMap.size (CacheManager.cache st') = 999%nat.
Proof.
  pose proof (overwrite_at_capacity_evicts (CacheManager.fill 0%nat 1000) "5" 1%nat 1000 2000
                "0" (tail (JSMap.keys (CacheManager.cache
                       (CacheManager.run (CacheManager.fill 0%nat 1000)
                          CacheManager.constructor))))) as H.
  cbv zeta in H. apply H.
  - vm_compute. reflexivity.
  - vm_compute. reflexivity.
  - refine (bool_decide_unpack _ _). vm_compute. exact I.
Defined.

(** X5 at work. *)
Lemma delete_removes_one_key_witness :
  let st := CacheManager.run (CacheManager.fill 0%nat 3) CacheManager.constructor in
  (CacheManager.get (CacheManager.delete st "1") "2" 5).1 = (CacheManager.get st "2" 5).1.
Proof.
  apply (proj1 (proj2 (delete_removes_one_key
                         (CacheManager.run (CacheManager.fill 0%nat 3)
                            CacheManager.constructor) "1" 5)) "2").
  discriminate.
Defined.

(** ** More on FrontendCache *)

Module FrontendCacheMore.
Section facts.
Context {T : Type}.
Implicit Types (w : FrontendCache.world T) (tr : list (FrontendCache.event T * Z)).

Lemma count_cons p (e : FrontendCache.event T * Z) tr :
  History.count p (e :: tr) = ((if p e then 1 else 0) + History.count p tr)%nat.
Proof.
  unfold History.count. rewrite filter_cons.
  destruct (p e); [by rewrite decide_True | by rewrite decide_False].
Qed.

Lemma step_counters w w' e :
  FrontendCache.step w e = Some w' → History.is_clear e = false →
  (FrontendCache.hits (FrontendCache.self w') + FrontendCache.misses (FrontendCache.self w')
   = FrontendCache.hits (FrontendCache.self w) + FrontendCache.misses (FrontendCache.self w)
     + (if History.is_get e then 1 else 0))%nat.
Proof.
  destruct e as [[k d dur|k|k| |i] now]; simpl; intros Hstep Hclear; try done.
  - injection Hstep as <-. simpl. lia.
  - injection Hstep as <-. simpl. unfold FrontendCache.get.
    destruct (_ !! k); [case_bool_decide|]; simpl; lia.
  - injection Hstep as <-. simpl. unfold FrontendCache.has.
    destruct (_ !! k); [case_bool_decide|]; simpl; lia.
  - unfold FrontendCache.fire in Hstep. destruct (_ !! i); [|done].
    case_bool_decide; [|done]. injection Hstep as <-. simpl. lia.
Qed.

Lemma step_timers w w' e :
  FrontendCache.step w e = Some w' →
  (length (FrontendCache.timers w') + (if History.is_fire e then 1 else 0)
   = length (FrontendCache.timers w) + (if History.is_set e then 1 else 0))%nat.
Proof.
  destruct e as [[k d dur|k|k| |i] now]; simpl; intros Hstep.
  - injection Hstep as <-. simpl. rewrite length_app. simpl. lia.
  - injection Hstep as <-. simpl. lia.
  - injection Hstep as <-. simpl. lia.
  - injection Hstep as <-. simpl. lia.
  - unfold FrontendCache.fire in Hstep.
    destruct (FrontendCache.timers w !! i) as [tm|] eqn:Htm; [|done].
    case_bool_decide; [|done]. injection Hstep as <-. simpl.
    rewrite length_delete by done. apply lookup_lt_Some in Htm. lia.
Qed.

Lemma step_timed w w' e : FrontendCache.step w e = Some w' → History.timed w → History.timed w'.
Proof.
  destruct e as [[k d dur|k|k| |i] now]; simpl; intros Hstep Hw k' item.
  - injection Hstep as <-. simpl. destruct (decide (k = k')) as [->|Hne].
    + rewrite lookup_insert_eq. intros [= <-]. apply elem_of_app. right. by left.
    + rewrite lookup_insert_ne by done. intros Hitem. apply elem_of_app. left. by apply Hw.
  - injection Hstep as <-. simpl. unfold FrontendCache.get.
    destruct (_ !! k); [case_bool_decide|]; simpl; try apply Hw.
    intros [_ ?]%lookup_delete_Some. by apply Hw.
  - injection Hstep as <-. simpl. unfold FrontendCache.has.
    destruct (_ !! k); [case_bool_decide|]; simpl; try apply Hw.
    intros [_ ?]%lookup_delete_Some. by apply Hw.
  - injection Hstep as <-. simpl. by rewrite lookup_empty.
  - unfold FrontendCache.fire in Hstep.
    destruct (FrontendCache.timers w !! i) as [tm|] eqn:Htm; [|done].
    case_bool_decide; [|done]. injection Hstep as <-. simpl.
    intros [Hne Hitem]%lookup_delete_Some.
    apply Hw in Hitem. apply list_elem_of_lookup in Hitem as [j Hj].
    assert (j ≠ i) as Hji.
    { intros ->. rewrite Htm in Hj. injection Hj as ->. by apply Hne. }
    apply list_elem_of_lookup. destruct (decide (j < i)%nat).
    + exists j. by rewrite list_lookup_delete_lt.
    + exists (pred j). rewrite list_lookup_delete_ge by lia.
      by replace (S (pred j)) with j by lia.
Qed.

Lemma run_timed tr : ∀ w w', FrontendCache.run tr w = Some w' → History.timed w → History.timed w'.
Proof.
  induction tr as [|e tr IH]; intros w w' Hrun Hw; simpl in Hrun.
  - by injection Hrun as <-.
  - destruct (FrontendCache.step w e) as [w1|] eqn:Hstep; [|done].
    eapply IH; [done|]. by eapply step_timed.
Qed.

End facts.
End FrontendCacheMore.

Section frontend_extras.
Context {T : Type}.
Implicit Types (w : FrontendCache.world T) (tr : list (FrontendCache.event T * Z)).

(** X7.  FrontendCache: over any history without [clear()], the sum of the
    two counters grows by exactly the number of [get] calls: every [get]
    counts once, as a hit or as a miss, and [set], [has] and the timers count
    nothing. *)
Theorem every_get_counts_once tr : ∀ w w',
  FrontendCache.run tr w = Some w' →
  History.count History.is_clear tr = 0%nat →
  (FrontendCache.hits (FrontendCache.self w') + FrontendCache.misses (FrontendCache.self w')
   = FrontendCache.hits (FrontendCache.self w) + FrontendCache.misses (FrontendCache.self w)
     + History.count History.is_get tr)%nat.
Proof.
  induction tr as [|e tr IH]; intros w w' Hrun Hclear; simpl in Hrun.
  - injection Hrun as <-. unfold History.count. simpl. lia.
  - destruct (FrontendCache.step w e) as [w1|] eqn:Hstep; [|done].
    rewrite FrontendCacheMore.count_cons in Hclear.
    destruct (History.is_clear e) eqn:Hc; [lia|].
    rewrite FrontendCacheMore.count_cons, (IH w1 w' Hrun) by lia.
    rewrite (FrontendCacheMore.step_counters w w1 e Hstep Hc). lia.
Qed.

(** X8.  FrontendCache: over any history, the number of pending timers is
    the number it started with, plus one for every [set], minus one for
    every timer that ran; neither [get], [has] nor [clear()] cancels one. *)
Theorem timers_are_never_cancelled tr : ∀ w w',
  FrontendCache.run tr w = Some w' →
  (length (FrontendCache.timers w') + History.count History.is_fire tr
   = length (FrontendCache.timers w) + History.count History.is_set tr)%nat.
Proof.
  induction tr as [|e tr IH]; intros w w' Hrun; simpl in Hrun.
  - injection Hrun as <-. unfold History.count. simpl. lia.
  - destruct (FrontendCache.step w e) as [w1|] eqn:Hstep; [|done].
    rewrite !FrontendCacheMore.count_cons.
    pose proof (IH w1 w' Hrun). pose proof (FrontendCacheMore.step_timers w w1 e Hstep).
    lia.
Qed.

(** X9.  FrontendCache: in every state a history can reach from a new page
    by stores whose [ttl] is a delay that [setTimeout] takes as given, each
    entry of the cache still has its own timer pending (due at its
    [timestamp + ttl]); once that instant has come the timer can run, and
    the key is then absent.  No entry stays without a timer to remove it. *)
Theorem every_entry_has_its_timer tr w' key item :
  History.delays_as_given tr →
  FrontendCache.run tr FrontendCache.init = Some w' →
  FrontendCache.cache (FrontendCache.self w') !! key = Some item →
  ∃ i, FrontendCache.timers w' !! i = Some (History.timer_of key item) ∧
       ∀ now, FrontendCache.timestamp item + FrontendCache.ttl item ≤ now →
         ∃ w'', FrontendCache.fire w' i now = Some w'' ∧
                FrontendCache.cache (FrontendCache.self w'') !! key = None.
Proof.
  intros _ Hrun Hitem.
  assert (History.timed w') as Hw.
  { eapply FrontendCacheMore.run_timed; [done|]. intros k it. simpl.
    by rewrite lookup_empty. }
  apply Hw, list_elem_of_lookup in Hitem as [i Hi].
  exists i. split; [done|]. intros now Hnow. unfold FrontendCache.fire.
  rewrite Hi. simpl. rewrite bool_decide_eq_true_2 by done.
  eexists. split; [done|]. simpl. apply lookup_delete_eq.
Qed.

End frontend_extras.

(** X7, X8 and X9 at work on [History.sample_history]. *)
Lemma every_get_counts_once_witness :
  ∃ w', FrontendCache.run History.sample_history FrontendCache.init = Some w' ∧
    (FrontendCache.hits (FrontendCache.self w') + FrontendCache.misses (FrontendCache.self w')
     = 0 + 0 + 2)%nat.
Proof.
  eexists. split; [vm_compute; reflexivity|].
  apply (every_get_counts_once History.sample_history FrontendCache.init); reflexivity.
Defined.

Lemma timers_are_never_cancelled_witness :
  ∃ w', FrontendCache.run History.sample_history FrontendCache.init = Some w' ∧
    (length (FrontendCache.timers w') + 1 = 0 + 3)%nat.
Proof.
  eexists. split; [vm_compute; reflexivity|].
  apply (timers_are_never_cancelled History.sample_history FrontendCache.init). reflexivity.
Defined.

Lemma every_entry_has_its_timer_witness :
  ∃ w' i, FrontendCache.run History.sample_history FrontendCache.init = Some w' ∧
    FrontendCache.timers w' !! i
    = Some (History.timer_of "j" (FrontendCache.mkItem 3%nat 80 500)) ∧
    ∀ now, 80 + 500 ≤ now →
      ∃ w'', FrontendCache.fire w' i now = Some w'' ∧
             FrontendCache.cache (FrontendCache.self w'') !! "j" = None.
Proof.
  eexists.
  destruct (every_entry_has_its_timer History.sample_history
              (FrontendCache.mkWorld
                 (FrontendCache.mk {[ "j" := FrontendCache.mkItem 3%nat 80 500 ]} 1 1)
                 [FrontendCache.mkTimer 1050 "k"; FrontendCache.mkTimer 580 "j"])
              "j" (FrontendCache.mkItem 3%nat 80 500)) as (i & Hi & Hfire).
  - repeat constructor; unfold Timer.TIMEOUT_MAX; simpl; lia.
  - vm_compute. reflexivity.
  - reflexivity.
  - exists i. split_and!; [vm_compute; reflexivity | exact Hi | exact Hfire].
Defined.

(** ** More on debounce *)

Module DebounceMore.
Section facts.
Context {A : Type}.
Implicit Types (st : Debounce.state A) (tr : list (Debounce.event A * Z)).

(** A call, in any variant, leaves exactly its own timer registered; what it
    passes to [func] at once and what its timer will pass make one call of
    [func] at most. *)
Lemma call_any var wait st (a : A) now :
  (Debounce.pending st = ∅ ∨ ∃ a0 t0, Debounce.armed wait a0 t0 st) →
  ∃ out st1,
    Debounce.step var wait st (Debounce.Call a) now = Some (out, st1) ∧
    Debounce.armed wait a now st1 ∧
    Debounce.next_handle st1 = S (Debounce.next_handle st) ∧
    out ++ DebounceHistory.timer_calls var a `sublist_of` [a] ∧
    ((∃ a0 t0, Debounce.armed wait a0 t0 st) → out = []) ∧
    (var = Debounce.Perf true → Debounce.timeout st = None → out = [a]).
Proof.
  intros Hst.
  assert (Debounce.clearTimeout (Debounce.timeout st) (Debounce.pending st) = ∅) as Hclear.
  { destruct Hst as [Hp|(a0 & t0 & h & Hh & Hp)]; rewrite Hp.
    - unfold Debounce.clearTimeout. destruct (Debounce.timeout st); [|done].
      apply delete_empty.
    - rewrite Hh. simpl. apply delete_singleton_eq. }
  assert (∀ st1,
            st1 = Debounce.mk (Some (Debounce.next_handle st))
                    (<[Debounce.next_handle st := (now + wait, a)]>
                       (Debounce.clearTimeout (Debounce.timeout st) (Debounce.pending st)))
                    (S (Debounce.next_handle st)) →
            Debounce.armed wait a now st1 ∧
            Debounce.next_handle st1 = S (Debounce.next_handle st)) as Hnew.
  { intros st1 ->. split; [|done]. eexists. simpl. split; [done|].
    by rewrite Hclear, insert_empty. }
  destruct var as [|[]]; simpl; unfold Debounce.executedFunction_perf,
    Debounce.executedFunction; simpl; eexists _, _; (split; [reflexivity|]);
    (destruct (Hnew _ eq_refl) as [Harm Hnext]); (split; [exact Harm|]);
    (split; [exact Hnext|]).
  - by split_and!.
  - split_and!.
    + case_bool_decide; [done | apply sublist_nil_l].
    + intros (a0 & t0 & h & Hh & _). rewrite Hh. by rewrite bool_decide_eq_false_2.
    + intros _ ->. by rewrite bool_decide_eq_true_2.
  - by split_and!.
Qed.

(** The timer of an armed state, in any variant. *)
Lemma fire_any var wait st (a : A) t h now out st1 :
  Debounce.armed wait a t st →
  Debounce.step var wait st (Debounce.Fire h) now = Some (out, st1) →
  t + wait ≤ now ∧ out = DebounceHistory.timer_calls var a ∧ Debounce.pending st1 = ∅ ∧
  Debounce.next_handle st1 = Debounce.next_handle st.
Proof.
  intros (h0 & Hh0 & Hp) Hstep.
  destruct var as [|imm]; simpl in Hstep;
    unfold Debounce.fire, Debounce.fire_perf in Hstep; rewrite Hp in Hstep;
    (destruct (decide (h0 = h)) as [->|Hne];
       [rewrite lookup_singleton_eq in Hstep | by rewrite lookup_singleton_ne in Hstep]);
    (case_bool_decide; [|done]); injection Hstep as <- <-; simpl.
  - rewrite Hh0. simpl. by rewrite delete_singleton_eq, delete_empty.
  - rewrite delete_singleton_eq. by destruct imm.
Qed.

Lemma fire_quiet var wait st h now :
  Debounce.pending st = ∅ → Debounce.step var wait st (Debounce.Fire h) now = None.
Proof.
  intros Hp. destruct var; simpl; unfold Debounce.fire, Debounce.fire_perf;
    by rewrite Hp, lookup_empty.
Qed.

Lemma size_armed wait (a : A) t st :
  Debounce.armed wait a t st → size (Debounce.pending st) = 1%nat.
Proof. intros (h & _ & ->). apply map_size_singleton. Qed.

(** Whatever the variant and the history: calls of [func] follow the calls
    of the debounced function, and one timer at most is registered. *)
Lemma run_safe var wait tr : ∀ clock st outs st',
  Debounce.run var wait tr clock st = Some (outs, st') →
  (Debounce.pending st = ∅ →
     outs `sublist_of` (Debounce.calls_of tr).*1 ∧ (size (Debounce.pending st') ≤ 1)%nat) ∧
  (∀ a t, Debounce.armed wait a t st →
     outs `sublist_of` DebounceHistory.timer_calls var a ++ (Debounce.calls_of tr).*1 ∧
     (size (Debounce.pending st') ≤ 1)%nat).
Proof.
  induction tr as [|[[b|h] now] tr IH]; intros clock st outs st' Hrun; simpl in Hrun.
  - injection Hrun as <- <-. split.
    + intros ->. split; [done | by rewrite map_size_empty; lia].
    + intros a t Harm. split; [apply sublist_nil_l | by rewrite (size_armed wait a t)].
  - case_bool_decide; [|done].
    assert ((Debounce.pending st = ∅ ∨ ∃ a0 t0, Debounce.armed wait a0 t0 st) →
            outs `sublist_of` b :: (Debounce.calls_of tr).*1 ∧
            (size (Debounce.pending st') ≤ 1)%nat) as Hcall.
    { intros Hst.
      destruct (call_any var wait st b now Hst) as (out & st1 & Hstep & Harm & _ & Hsub & _).
      rewrite Hstep in Hrun.
      destruct (Debounce.run var wait tr now st1) as [[outs1 st2]|] eqn:Hrun1; [|done].
      injection Hrun as <- <-.
      destruct (proj2 (IH _ _ _ _ Hrun1) b now Harm) as [Hs Hsize].
      split; [|done].
      apply (sublist_app out out _ _ (reflexivity _)) in Hs.
      rewrite (assoc_L (++)) in Hs. etrans; [exact Hs|].
      by apply (sublist_app _ [b] _ _ Hsub). }
    simpl. split.
    + intros Hp. by apply Hcall; left.
    + intros a t Harm. destruct Hcall as [Hs Hsize]; [by right; eauto|].
      split; [by apply sublist_inserts_l | done].
  - case_bool_decide; [|done].
    destruct (Debounce.step var wait st (Debounce.Fire h) now) as [[out st1]|] eqn:Hstep;
      [|done].
    destruct (Debounce.run var wait tr now st1) as [[outs1 st2]|] eqn:Hrun1; [|done].
    injection Hrun as <- <-. simpl. split.
    + intros Hp. by rewrite fire_quiet in Hstep.
    + intros a t Harm.
      destruct (fire_any var wait st a t h now out st1 Harm Hstep) as (_ & -> & Hp1 & _).
      destruct (proj1 (IH _ _ _ _ Hrun1) Hp1) as [Hs Hsize].
      split; [by apply sublist_app | done].
Qed.

(** With [immediate], a burst that continues from an armed state calls
    nothing. *)
Lemma run_armed_immediate wait tr : ∀ clock st (a : A) t outs st',
  Debounce.armed wait a t st →
  Debounce.within_window wait t (Debounce.calls_of tr) →
  Debounce.run (Debounce.Perf true) wait tr clock st = Some (outs, st') →
  outs = [].
Proof.
  induction tr as [|[[b|h] now] tr IH]; intros clock st a t outs st' Harm Hwin Hrun.
  - simpl in Hrun. by injection Hrun as <- <-.
  - cbn [Debounce.run] in Hrun. case_bool_decide; [|done].
    destruct (call_any (Debounce.Perf true) wait st b now) as
      (out & st1 & Hstep & Harm1 & _ & _ & Hnil & _); [by right; eauto|].
    rewrite Hstep in Hrun. rewrite Hnil in Hrun by eauto.
    destruct (Debounce.run _ wait tr now st1) as [[outs1 st2]|] eqn:Hrun1; [|done].
    injection Hrun as <- <-. simpl in Hwin. destruct Hwin as [_ Hwin].
    by apply (IH now st1 b now outs1 st2).
  - cbn [Debounce.run] in Hrun. case_bool_decide; [|done].
    destruct (Debounce.step _ wait st (Debounce.Fire h) now) as [[out st1]|] eqn:Hstep;
      [|done].
    destruct (Debounce.run _ wait tr now st1) as [[outs1 st2]|] eqn:Hrun1; [|done].
    injection Hrun as <- <-.
    destruct (fire_any _ wait st a t h now out st1 Harm Hstep) as (Hdue & -> & Hp1 & _).
    simpl in Hwin.
    by destruct (DebounceFacts.run_quiet _ wait tr now st1 outs1 st2 t Hp1 Hdue Hwin Hrun1)
      as (-> & _ & _).
Qed.

(** A call from a state without timers, then the run of its timer. *)
Lemma call_then_fire var wait st (a : A) t t' :
  Debounce.trailing var →
  Debounce.pending st = ∅ →
  t + wait ≤ t' →
  ∃ st1 st2,
    Debounce.step var wait st (Debounce.Call a) t = Some ([], st1) ∧
    Debounce.step var wait st1 (Debounce.Fire (Debounce.next_handle st)) t'
    = Some ([a], st2) ∧
    Debounce.pending st2 = ∅ ∧
    Debounce.next_handle st2 = S (Debounce.next_handle st).
Proof.
  intros Hvar Hp Hdue.
  assert (Debounce.clearTimeout (Debounce.timeout st) (Debounce.pending st) = ∅) as Hclear.
  { rewrite Hp. unfold Debounce.clearTimeout. destruct (Debounce.timeout st); [|done].
    apply delete_empty. }
  destruct var as [|[]]; [|done|]; simpl;
    unfold Debounce.executedFunction_perf, Debounce.executedFunction,
      Debounce.fire, Debounce.fire_perf; simpl;
    eexists _, _; (split; [reflexivity|]); simpl;
    rewrite Hclear, insert_empty, lookup_singleton_eq; simpl;
    rewrite bool_decide_eq_true_2 by done; (split; [reflexivity|]); simpl;
    rewrite ?delete_singleton_eq, ?delete_empty; done.
Qed.

(** Calls that each wait for their timer are all passed on. *)
Lemma run_spaced_history var wait (cs : list (A * Z * Z)) : ∀ clock st,
  Debounce.trailing var →
  Debounce.pending st = ∅ →
  DebounceHistory.well_spaced wait clock cs →
  ∃ st', Debounce.run var wait
           (DebounceHistory.spaced_history (Debounce.next_handle st) cs) clock st
         = Some (cs.*1.*1, st') ∧
         Debounce.pending st' = ∅.
Proof.
  induction cs as [|[[a t] t'] cs IH]; intros clock st Hvar Hp Hsp.
  - exists st. by split.
  - destruct Hsp as (Hclock & Htt' & Hdue & Hsp).
    destruct (call_then_fire var wait st a t t' Hvar Hp Hdue)
      as (st1 & st2 & Hcall & Hfire & Hp2 & Hn2).
    destruct (IH t' st2 Hvar Hp2 Hsp) as (st' & Hrun & Hp'). rewrite Hn2 in Hrun.
    cbn [DebounceHistory.spaced_history Debounce.run].
    rewrite bool_decide_eq_true_2 by done. rewrite Hcall.
    rewrite bool_decide_eq_true_2 by done. rewrite Hfire, Hrun.
    exists st'. by split.
Qed.

End facts.
End DebounceMore.

(** X10.  Debounce, both utilities and with or without [immediate]: in any
    history of a debounced function, [func] is only ever called with the
    arguments of calls of the debounced function, in their order and each
    call at most once, and at most one timer is registered at any end of a
    history. *)
Theorem debounce_never_invents_calls {A : Type} (var : Debounce.variant) (wait : Z)
    (tr : list (Debounce.event A * Z)) clock outs st' :
  Debounce.run var wait tr clock Debounce.init = Some (outs, st') →
  outs `sublist_of` (Debounce.calls_of tr).*1 ∧ (size (Debounce.pending st') ≤ 1)%nat.
Proof.
  intros Hrun. by apply (proj1 (DebounceMore.run_safe var wait tr clock _ _ _ Hrun)).
Qed.

(** X10 at work, on a history with [immediate]: a burst of two calls, its
    timer, and a later call. *)
Lemma debounce_never_invents_calls_witness :
  let tr := [(Debounce.Call "v1", 0); (Debounce.Call "v2", 50); (Debounce.Fire 2, 400);
             (Debounce.Call "v3", 500)] in
  ∃ st', Debounce.run (Debounce.Perf true) 300 tr 0 Debounce.init
         = Some (["v1"; "v3"], st') ∧
    ["v1"; "v3"] `sublist_of` (Debounce.calls_of tr).*1 ∧
    (size (Debounce.pending st') ≤ 1)%nat.
Proof.
  eexists. split; [vm_compute; reflexivity|].
  apply (debounce_never_invents_calls (Debounce.Perf true) 300
           [(Debounce.Call "v1", 0); (Debounce.Call "v2", 50); (Debounce.Fire 2, 400);
            (Debounce.Call "v3", 500)] 0).
  vm_compute. reflexivity.
Defined.

(** X11.  Debounce of utils/performance.jsx with [immediate] and a [wait]
    that [setTimeout] takes as given: in a history whose calls each come less
    than [wait] after the previous one, [func] is called exactly once, at the
    first call and with the arguments of the first call; the timer that ends
    the burst calls nothing. *)
Theorem immediate_calls_first_of_burst {A : Type} (wait : Z)
    (tr : list (Debounce.event A * Z)) clock outs st' (a : A) t cs :
  Timer.as_given wait →
  Debounce.run (Debounce.Perf true) wait tr clock Debounce.init = Some (outs, st') →
  Debounce.calls_of tr = (a, t) :: cs →
  Debounce.one_burst wait (Debounce.calls_of tr) →
  outs = [a].
Proof.
  intros _ Hrun Hcalls Hburst.
  destruct tr as [|[[b|h] now] tr]; [done| |].
  - cbn [Debounce.run] in Hrun. case_bool_decide; [|done].
    destruct (DebounceMore.call_any (Debounce.Perf true) wait Debounce.init b now)
      as (out & st1 & Hstep & Harm & _ & _ & _ & Hfirst); [by left|].
    rewrite Hstep, Hfirst in Hrun by done.
    destruct (Debounce.run _ wait tr now st1) as [[outs1 st2]|] eqn:Hrun1; [|done].
    injection Hrun as <- <-. simpl in Hcalls, Hburst. injection Hcalls as -> -> _.
    by rewrite (DebounceMore.run_armed_immediate wait tr t st1 a t outs1 st2 Harm Hburst Hrun1).
  - cbn [Debounce.run] in Hrun. case_bool_decide; [|done].
    by rewrite DebounceMore.fire_quiet in Hrun.
Qed.

(** X11 at work. *)
Lemma immediate_calls_first_of_burst_witness :
  let tr := [(Debounce.Call "v1", 0); (Debounce.Call "v2", 50); (Debounce.Call "v3", 100);
             (Debounce.Fire 3, 400)] in
  ∃ st', Debounce.run (Debounce.Perf true) 300 tr 0 Debounce.init = Some (["v1"], st') ∧
         ["v1"] = ["v1"].
Proof.
  eexists. split; [vm_compute; reflexivity|].
  eapply (immediate_calls_first_of_burst 300
            [(Debounce.Call "v1", 0); (Debounce.Call "v2", 50); (Debounce.Call "v3", 100);
             (Debounce.Fire 3, 400)] 0 _ _ "v1" 0 [("v2", 50); ("v3", 100)]).
  - unfold Timer.as_given, Timer.TIMEOUT_MAX. lia.
  - vm_compute. reflexivity.
  - reflexivity.
  - simpl. lia.
Defined.

(** X12.  Debounce without [immediate]: when every call is followed by the
    run of its own timer ([wait] or more after the call) before the next call
    comes, [func] is called for every one of them, in order, and nothing is
    left registered: debouncing drops calls of a burst only. *)
Theorem spaced_calls_all_pass {A : Type} (var : Debounce.variant) (wait clock : Z)
    (cs : list (A * Z * Z)) :
  Debounce.trailing var →
  DebounceHistory.well_spaced wait clock cs →
  ∃ st', Debounce.run var wait (DebounceHistory.spaced_history 1 cs) clock Debounce.init
         = Some (cs.*1.*1, st') ∧
         Debounce.pending st' = ∅.
Proof.
  intros Hvar Hsp.
  by apply (DebounceMore.run_spaced_history var wait cs clock Debounce.init).
Qed.

(** X12 at work: three filter values 400 ms apart. *)
Lemma spaced_calls_all_pass_witness :
  ∃ st', Debounce.run Debounce.Simple 300
           (DebounceHistory.spaced_history 1 [("a", 0, 300); ("b", 400, 700); ("c", 800, 1200)])
           0 Debounce.init
         = Some (["a"; "b"; "c"], st') ∧ Debounce.pending st' = ∅.
Proof.
  apply (spaced_calls_all_pass Debounce.Simple 300 0
           [("a", 0, 300); ("b", 400, 700); ("c", 800, 1200)]).
  - exact I.
  - simpl. lia.
Defined.

(** ** ClientCache *)

Module ClientCacheFacts.
Import JSMapFacts.

Section facts.
Context {V : Type}.
Implicit Types (c : ClientCache.t V) (s : ClientCache.Storage V) (k key : string).

Lemma try_remove_get s k k' :
  JSMap.get (ClientCache.items (ClientCache.try_remove s k)) k'
  = if bool_decide (k = k' ∧ ClientCache.broken s = false) then None
    else JSMap.get (ClientCache.items s) k'.
Proof.
  unfold ClientCache.try_remove, ClientCache.removeItem.
  destruct (ClientCache.broken s) eqn:Hb; simpl.
  - by rewrite bool_decide_eq_false_2 by (by intros [_ ?]).
  - case_bool_decide as Hk.
    + destruct Hk as [-> _]. apply jsmap_get_delete_eq.
    + apply jsmap_get_delete_ne. naive_solver.
Qed.

Lemma try_remove_broken s k :
  ClientCache.broken (ClientCache.try_remove s k) = ClientCache.broken s.
Proof.
  unfold ClientCache.try_remove, ClientCache.removeItem.
  by destruct (ClientCache.broken s) eqn:Hb.
Qed.

Lemma prefix_app (p k : string) : String.prefix p (p +:+ k) = true.
Proof.
  induction p as [|a p IH]; simpl; [by destruct k|].
  by destruct (Ascii.ascii_dec a a).
Qed.

Lemma generateKey_inj c : Inj (=) (=) (ClientCache.generateKey c).
Proof. intros k k' Heq. unfold ClientCache.generateKey in Heq. by apply (inj _) in Heq. Qed.

(** The storage never gains an item while the loop runs, and the loop keeps
    [restored] and [kept]. *)
Lemma restore_loop_inv now k fuel : ∀ i c s,
  ClientCache.restored now c s →
  let cs := ClientCache.restore_loop fuel i c s now in
  ClientCache.restored now cs.1 cs.2 ∧
  ClientCache.prefix cs.1 = ClientCache.prefix c ∧
  ClientCache.broken cs.2 = ClientCache.broken s ∧
  (∀ (value : V) expiry,
     ClientCache.kept now k value expiry s → ClientCache.kept now k value expiry cs.2) ∧
  (JSMap.get (ClientCache.items s) k = None →
   JSMap.get (ClientCache.items cs.2) k = None).
Proof.
  induction fuel as [|fuel IH]; intros i c s Hres; [by split_and!|].
  cbn [ClientCache.restore_loop].
  assert (∀ k0, (∀ v e, JSMap.get (ClientCache.items s) k0 = Some (ClientCache.Entry v e) →
                        now > e) →
            let cs := ClientCache.restore_loop fuel (S i) c (ClientCache.try_remove s k0) now in
            ClientCache.restored now cs.1 cs.2 ∧
            ClientCache.prefix cs.1 = ClientCache.prefix c ∧
            ClientCache.broken cs.2 = ClientCache.broken s ∧
            (∀ (value : V) expiry,
               ClientCache.kept now k value expiry s →
               ClientCache.kept now k value expiry cs.2) ∧
            (JSMap.get (ClientCache.items s) k = None →
             JSMap.get (ClientCache.items cs.2) k = None)) as Hremove.
  { intros k0 Hdead.
    destruct (IH (S i) c (ClientCache.try_remove s k0)) as (H1 & H2 & H3 & H4 & H5).
    - intros k1 v1 Hk1. destruct (Hres k1 v1 Hk1) as (e1 & He1 & Hlive & Hitem).
      exists e1. split_and!; [done..|]. rewrite try_remove_get.
      case_bool_decide as Hk; [|done]. destruct Hk as [-> _].
      specialize (Hdead _ _ Hitem). lia.
    - split_and!; [done | done | by rewrite H3, try_remove_broken | |].
      + intros value expiry Hkept. apply H4. unfold ClientCache.kept.
        rewrite try_remove_get.
        case_bool_decide as Hk; [|done]. destruct Hk as [-> _].
        destruct Hkept as [Hitem|[? ?]]; [|by right].
        right. split; [by eapply Hdead | done].
      + intros Hnone. apply H5. rewrite try_remove_get. by case_bool_decide. }
  destruct (JSMap.keys (ClientCache.items s) !! i) as [k0|]; [|by split_and!].
  destruct (ClientCache.ours c k0); [|by apply IH].
  destruct (JSMap.get (ClientCache.items s) k0) as [[v0 e0| | |]|] eqn:Hitem;
    [|apply Hremove; intros v e Hve; by rewrite Hitem in Hve
     |by split_and!|by apply IH|by apply IH].
  case_bool_decide as Hlive.
  - destruct (IH (S i) (ClientCache.remember c k0 v0 e0) s) as (H1 & H2 & H3 & H4 & H5);
      [|by split_and!].
    intros k1 v1. simpl. destruct (decide (k0 = k1)) as [->|Hne].
    + rewrite !lookup_insert_eq. intros [= <-]. by exists e0.
    + rewrite !lookup_insert_ne by done. apply Hres.
  - apply Hremove. intros v e Hve. rewrite Hitem in Hve. injection Hve as <- <-. lia.
Qed.

Lemma constructor_inv pre s now k :
  let cs := ClientCache.constructor pre s now in
  ClientCache.restored now cs.1 cs.2 ∧
  ClientCache.prefix cs.1 = pre ∧
  ClientCache.broken cs.2 = ClientCache.broken s ∧
  (∀ (value : V) expiry,
     ClientCache.kept now k value expiry s → ClientCache.kept now k value expiry cs.2) ∧
  (JSMap.get (ClientCache.items s) k = None →
   JSMap.get (ClientCache.items cs.2) k = None).
Proof.
  unfold ClientCache.constructor, ClientCache.restoreFromStorage.
  assert (ClientCache.restored now (ClientCache.mk pre ∅ ∅ (5 * 60 * 1000)) s) as Hres.
  { intros k0 v0. simpl. by rewrite lookup_empty. }
  destruct (ClientCache.broken s) eqn:Hb; [by split_and!|].
  rewrite <- Hb. by apply restore_loop_inv.
Qed.

(** A read of a restored cache whose storage has the item of the key, or
    has lost it after its expiry. *)
Lemma get_restored c s key (value : V) expiry t1 now :
  ClientCache.restored t1 c s →
  ClientCache.kept t1 (ClientCache.generateKey c key) value expiry s →
  ClientCache.broken s = false →
  t1 ≤ now →
  (ClientCache.get c s key now).1 = if bool_decide (now ≤ expiry) then Some value else None.
Proof.
  intros Hres Hkept Hb Hle. unfold ClientCache.get.
  destruct (ClientCache.memoryCache c !! _) as [v1|] eqn:Hmem.
  - destruct (Hres _ _ Hmem) as (e1 & He1 & Hlive & Hitem).
    destruct Hkept as [Hk|[_ Hk]]; rewrite Hk in Hitem; [|done].
    injection Hitem as <- <-. rewrite He1. simpl. by case_bool_decide.
  - unfold ClientCache.getItem. rewrite Hb.
    destruct Hkept as [->|[Hdead ->]].
    + by case_bool_decide.
    + by rewrite bool_decide_eq_false_2 by lia.
Qed.

Lemma clear_items c s k :
  JSMap.get (ClientCache.items (ClientCache.clear c s).2) k
  = if bool_decide (ClientCache.ours c k = true ∧ ClientCache.broken s = false) then None
    else JSMap.get (ClientCache.items s) k.
Proof.
  unfold ClientCache.clear. simpl. destruct (ClientCache.broken s) eqn:Hb.
  { by rewrite bool_decide_eq_false_2 by (by intros [_ ?]). }
  assert (∀ (ks : list string) s0, ClientCache.broken s0 = false →
            JSMap.get (ClientCache.items (foldl ClientCache.try_remove s0 ks)) k
            = if bool_decide (k ∈ ks) then None else JSMap.get (ClientCache.items s0) k)
    as Hfold.
  { induction ks as [|k0 ks IH]; intros s0 Hb0.
    - reflexivity.
    - cbn [foldl]. rewrite IH by (by rewrite try_remove_broken). rewrite try_remove_get.
      destruct (decide (k0 = k)) as [->|Hne].
      * rewrite (bool_decide_eq_true_2 (k ∈ k :: ks)) by left.
        rewrite (bool_decide_eq_true_2 (k = k ∧ _)) by done. by case_bool_decide.
      * rewrite (bool_decide_eq_false_2 (k0 = k ∧ _)) by (by intros [? _]).
        destruct (decide (k ∈ ks)) as [Hin|Hnin].
        -- rewrite !bool_decide_eq_true_2; [done | by right | done].
        -- rewrite !bool_decide_eq_false_2; [done | | done].
           by intros [?|?]%elem_of_cons. }
  rewrite Hfold by done.
  destruct (ClientCache.ours c k) eqn:Hours.
  - rewrite (bool_decide_eq_true_2 (true = true ∧ _)) by done.
    case_bool_decide as Hin; [done|]. apply jsmap_get_None. intros Hk. apply Hin.
    by apply list_elem_of_filter.
  - rewrite (bool_decide_eq_false_2 (false = true ∧ _)) by (by intros [? _]).
    rewrite bool_decide_eq_false_2; [done|].
    intros [? _]%list_elem_of_filter. congruence.
Qed.

End facts.
End ClientCacheFacts.

Section client_cache_extras.
Context {V : Type}.
Implicit Types (c : ClientCache.t V) (s : ClientCache.Storage V) (key : string).

(** X13.  ClientCache: after [set(key, value, ttl)] a [get(key)] returns the
    value up to and including [now = createdAt + ttl] and absent after it,
    whether [localStorage] works, throws on every access or refuses the
    write; and the [set] changes the result of a [get] of no other key. *)
Theorem clientcache_set_then_get c s key (value : V) dur t0 now :
  let cs := ClientCache.set c s key value dur t0 in
  (ClientCache.get cs.1 cs.2 key now).1
  = (if bool_decide (now ≤ t0 + dur) then Some value else None) ∧
  (∀ k, k ≠ key →
     (ClientCache.get cs.1 cs.2 k now).1 = (ClientCache.get c s k now).1).
Proof.
  cbv zeta. split.
  - unfold ClientCache.get, ClientCache.set. simpl.
    unfold ClientCache.generateKey. simpl. rewrite !lookup_insert_eq. simpl.
    by case_bool_decide.
  - intros k Hne.
    assert (ClientCache.generateKey c key ≠ ClientCache.generateKey c k) as Hfull.
    { intros Heq. by apply ClientCacheFacts.generateKey_inj in Heq. }
    unfold ClientCache.get, ClientCache.set. simpl.
    change (ClientCache.generateKey (ClientCache.remember c (ClientCache.generateKey c key)
                                       value (t0 + dur)) k)
      with (ClientCache.generateKey c k).
    rewrite !lookup_insert_ne by done.
    destruct (ClientCache.memoryCache c !! _); [by destruct (ClientCache.live _ _)|].
    assert (ClientCache.getItem
              (default s (ClientCache.setItem s (ClientCache.generateKey c key)
                            (ClientCache.Entry value (t0 + dur))))
              (ClientCache.generateKey c k)
            = ClientCache.getItem s (ClientCache.generateKey c k)) as ->.
    { unfold ClientCache.getItem, ClientCache.setItem.
      destruct (ClientCache.broken s) eqn:Hb; simpl; [by rewrite Hb|].
      destruct (ClientCache.full s); simpl; rewrite ?Hb; [done|].
      by rewrite JSMapFacts.jsmap_get_set_ne. }
    destruct (ClientCache.getItem s _) as [[[v e| | |]|]|]; try done.
    by case_bool_decide.
Qed.

(** X14.  ClientCache: a value stored while [localStorage] works survives a
    reload.  A new cache object built later with the same prefix over the
    storage the [set] left returns the value on [get(key)] up to and
    including its expiry, and absent after it, whatever else the storage
    holds. *)
Theorem clientcache_survives_reload c s key (value : V) dur t0 t1 now :
  ClientCache.broken s = false →
  ClientCache.full s = false →
  t1 ≤ now →
  let s1 := (ClientCache.set c s key value dur t0).2 in
  let cs := ClientCache.constructor (ClientCache.prefix c) s1 t1 in
  (ClientCache.get cs.1 cs.2 key now).1
  = if bool_decide (now ≤ t0 + dur) then Some value else None.
Proof.
  intros Hb Hf Hle s1 cs.
  assert (ClientCache.items s1
          = JSMap.set (ClientCache.items s) (ClientCache.generateKey c key)
              (ClientCache.Entry value (t0 + dur)) ∧ ClientCache.broken s1 = false)
    as [Hs1 Hb1].
  { subst s1. unfold ClientCache.set, ClientCache.setItem. simpl. by rewrite Hb, Hf. }
  destruct (ClientCacheFacts.constructor_inv (ClientCache.prefix c) s1 t1
              (ClientCache.generateKey c key))
    as (Hres & Hpre & Hbr & Hkept & _).
  fold cs in Hres, Hpre, Hbr, Hkept.
  apply ClientCacheFacts.get_restored with (t1 := t1); [done| |by rewrite Hbr|done].
  unfold ClientCache.generateKey. rewrite Hpre. apply Hkept. left.
  rewrite Hs1. apply JSMapFacts.jsmap_get_set_eq.
Qed.

(** X15.  ClientCache: after [delete(key)] a [get(key)] is absent, and when
    [localStorage] works it stays absent for any cache object built later
    with the same prefix: the item is gone from the storage too. *)
Theorem clientcache_delete_is_durable c s key t1 now :
  let cs := ClientCache.delete c s key in
  (ClientCache.get cs.1 cs.2 key now).1 = None ∧
  (ClientCache.broken s = false →
   let cs' := ClientCache.constructor (ClientCache.prefix c) cs.2 t1 in
   (ClientCache.get cs'.1 cs'.2 key now).1 = None).
Proof.
  cbv zeta.
  assert (JSMap.get (ClientCache.items (ClientCache.delete c s key).2)
            (ClientCache.generateKey c key) = None ∨ ClientCache.broken s = true) as Hgone.
  { simpl. rewrite ClientCacheFacts.try_remove_get.
    destruct (ClientCache.broken s); [by right|left]. by rewrite bool_decide_eq_true_2. }
  split.
  - unfold ClientCache.get at 1. simpl.
    change (ClientCache.generateKey (ClientCache.forget c (ClientCache.generateKey c key)) key)
      with (ClientCache.generateKey c key).
    rewrite lookup_delete_eq.
    unfold ClientCache.getItem. rewrite ClientCacheFacts.try_remove_broken.
    destruct Hgone as [Hgone| ->]; [|done]. simpl in Hgone. rewrite Hgone.
    by destruct (ClientCache.broken s).
  - intros Hb. destruct Hgone as [Hgone|Hgone]; [|congruence].
    destruct (ClientCacheFacts.constructor_inv (ClientCache.prefix c)
                (ClientCache.delete c s key).2 t1
                (ClientCache.generateKey c key))
      as (Hres & Hpre & Hbr & _ & Hnone).
    specialize (Hnone Hgone).
    set (cs' := ClientCache.constructor (ClientCache.prefix c)
                  (ClientCache.delete c s key).2 t1) in *.
    assert (ClientCache.generateKey cs'.1 key = ClientCache.generateKey c key) as Hkey.
    { unfold ClientCache.generateKey. by rewrite Hpre. }
    unfold ClientCache.get. rewrite Hkey.
    destruct (ClientCache.memoryCache cs'.1 !! _) as [v1|] eqn:Hmem.
    + destruct (Hres _ _ Hmem) as (e1 & _ & _ & Hitem). congruence.
    + unfold ClientCache.getItem. rewrite Hnone. by destruct (ClientCache.broken cs'.2).
Qed.

(** X16.  ClientCache: [clear()] empties the memory and, when [localStorage]
    works, removes from it the items whose key starts with the prefix, and
    only those: every other item of the page stays.  Afterwards a [get] of any
    key is absent (the one exception being the empty key of a cache with an
    empty prefix, which [clear()] skips). *)
Theorem clientcache_clear_removes_own_items c s key now :
  let cs := ClientCache.clear c s in
  (∀ k, ClientCache.ours c k = false →
     JSMap.get (ClientCache.items cs.2) k = JSMap.get (ClientCache.items s) k) ∧
  (ClientCache.generateKey c key ≠ "" → (ClientCache.get cs.1 cs.2 key now).1 = None).
Proof.
  cbv zeta. split.
  - intros k Hk. rewrite ClientCacheFacts.clear_items.
    rewrite bool_decide_eq_false_2; [done|]. intros [? _]. congruence.
  - intros Hne.
    assert (ClientCache.ours c (ClientCache.generateKey c key) = true) as Hours.
    { unfold ClientCache.ours. rewrite bool_decide_eq_true_2 by done.
      apply ClientCacheFacts.prefix_app. }
    pose proof (ClientCacheFacts.clear_items c s (ClientCache.generateKey c key)) as Hitems.
    unfold ClientCache.get.
    change (ClientCache.generateKey (ClientCache.clear c s).1 key)
      with (ClientCache.generateKey c key).
    change (ClientCache.memoryCache (ClientCache.clear c s).1) with (∅ : gmap string V).
    rewrite lookup_empty. unfold ClientCache.getItem.
    destruct (ClientCache.broken (ClientCache.clear c s).2) eqn:Hb2; [done|].
    rewrite Hitems. case_bool_decide as Hc; [done|].
    assert (ClientCache.broken s = false) as Hb.
    { unfold ClientCache.clear in Hb2. simpl in Hb2.
      destruct (ClientCache.broken s) eqn:Hb; [congruence | done]. }
    exfalso. by apply Hc.
Qed.

End client_cache_extras.

(** X14 at work: a value stored at 100 for 1000 ms, the page reloaded at
    500, the value read at 600. *)
Lemma clientcache_survives_reload_witness :
  let c := (ClientCache.constructor "dashboard_cache_" sample_storage 50).1 in
  let s := (ClientCache.constructor "dashboard_cache_" sample_storage 50).2 in
  let s1 := (ClientCache.set c s "years" 7%nat 1000 100).2 in
  let cs := ClientCache.constructor "dashboard_cache_" s1 500 in
  (ClientCache.get cs.1 cs.2 "years" 600).1 = Some 7%nat.
Proof.
  apply (clientcache_survives_reload
           (ClientCache.constructor "dashboard_cache_" sample_storage 50).1
           (ClientCache.constructor "dashboard_cache_" sample_storage 50).2
           "years" 7%nat 1000 100 500 600); [reflexivity | reflexivity | lia].
Defined.

(** X13 and X15 at work, on a storage that throws. *)
Lemma clientcache_set_then_get_witness :
  let c := ClientCache.mk "dashboard_cache_" ∅ ∅ 300000 in
  let s := ClientCache.mkStorage [] true false in
  let cs := ClientCache.set c s "years" 7%nat 1000 100 in
  (ClientCache.get cs.1 cs.2 "months" 600).1 = (ClientCache.get c s "months" 600).1.
Proof.
  apply (proj2 (clientcache_set_then_get
                  (ClientCache.mk "dashboard_cache_" ∅ ∅ 300000)
                  (ClientCache.mkStorage [] true false) "years" 7%nat 1000 100 600) "months").
  discriminate.
Defined.

Lemma clientcache_delete_is_durable_witness :
  let c := (ClientCache.constructor "dashboard_cache_" sample_storage 50).1 in
  let s := (ClientCache.constructor "dashboard_cache_" sample_storage 50).2 in
  let cs := ClientCache.delete c s "live" in
  let cs' := ClientCache.constructor "dashboard_cache_" cs.2 60 in
  (ClientCache.get cs'.1 cs'.2 "live" 70).1 = None.
Proof.
  apply (proj2 (clientcache_delete_is_durable
                  (ClientCache.constructor "dashboard_cache_" sample_storage 50).1
                  (ClientCache.constructor "dashboard_cache_" sample_storage 50).2
                  "live" 60 70)).
  reflexivity.
Defined.

(** X16 at work: the item "theme" of the page stays. *)
Lemma clientcache_clear_removes_own_items_witness :
  let c := (ClientCache.constructor "dashboard_cache_" sample_storage 50).1 in
  let s := (ClientCache.constructor "dashboard_cache_" sample_storage 50).2 in
  let cs := ClientCache.clear c s in
  JSMap.get (ClientCache.items cs.2) "theme" = JSMap.get (ClientCache.items s) "theme" ∧
  (ClientCache.get cs.1 cs.2 "live" 60).1 = None.
Proof.
  split.
  - apply (proj1 (clientcache_clear_removes_own_items
                    (ClientCache.constructor "dashboard_cache_" sample_storage 50).1
                    (ClientCache.constructor "dashboard_cache_" sample_storage 50).2
                    "live" 60) "theme").
    reflexivity.
  - apply (proj2 (clientcache_clear_removes_own_items
                    (ClientCache.constructor "dashboard_cache_" sample_storage 50).1
                    (ClientCache.constructor "dashboard_cache_" sample_storage 50).2
                    "live" 60)).
    discriminate.
Defined.

(** ** The routes and the cache *)

Module HandlersFacts.
Import Routes Handlers.

Section any_cache.
Context {C : Type} `{!CacheService C}.

Lemma getVertical_stores executeQuery req t_get t_set (c : C) :
  stores_only_success (verticalKey req) 600000 t_get t_set c
    (getVertical executeQuery req t_get t_set c).
Proof.
  unfold stores_only_success, getVertical.
  destruct (svc_get c (verticalKey req) t_get) as [[d|] c1]; simpl;
    [by split_and!; intros; simplify_eq; auto|].
  destruct (executeQuery (groupQuery _)) as [groupResult|]; simpl;
    [|by split_and!; intros; simplify_eq; auto].
  destruct (group_security groupResult).
  - destruct (executeQuery verticalQuery); simpl;
      split_and!; intros; simplify_eq; auto.
  - destruct (executeQuery (vidQuery _)) as [vidResult|]; simpl;
      [|by split_and!; intros; simplify_eq; auto].
    destruct (bool_decide _); simpl; [|by split_and!; intros; simplify_eq; auto].
    destruct (executeQuery (verticalQueryScoped _)); simpl;
      split_and!; intros; simplify_eq; auto.
Qed.

Lemma getSite_stores executeQuery req t_get t_set (c : C) :
  stores_only_success (siteKey req) 300000 t_get t_set c
    (getSite executeQuery req t_get t_set c).
Proof.
  unfold stores_only_success, getSite.
  destruct (svc_get c (siteKey req) t_get) as [[d|] c1]; simpl;
    [by split_and!; intros; simplify_eq; auto|].
  destruct (executeQuery (groupQuery _)) as [groupResult|]; simpl;
    [|by split_and!; intros; simplify_eq; auto].
  destruct (group_security groupResult).
  - destruct (executeQuery (siteQuery _)); simpl;
      split_and!; intros; simplify_eq; auto.
  - destruct (executeQuery (siidQuery _)) as [siidResult|]; simpl;
      [|by split_and!; intros; simplify_eq; auto].
    destruct (bool_decide _); simpl; [|by split_and!; intros; simplify_eq; auto].
    destruct (executeQuery (siteQueryScoped _ _)); simpl;
      split_and!; intros; simplify_eq; auto.
Qed.

Lemma getBusiness_stores executeQuery req t_get t_set (c : C) :
  stores_only_success (cacheKey req) 300000 t_get t_set c
    (getBusiness executeQuery req t_get t_set c).
Proof.
  unfold stores_only_success, getBusiness.
  destruct (svc_get c (cacheKey req) t_get) as [[d|] c1]; simpl;
    [by split_and!; intros; simplify_eq; auto|].
  destruct (executeQuery (Routes.groupQuery _)) as [groupResult|]; simpl;
    [|by split_and!; intros; simplify_eq; auto].
  destruct (group_security groupResult).
  - destruct (executeQuery (businessQuery _)); simpl;
      split_and!; intros; simplify_eq; auto.
  - destruct (executeQuery (buidQuery _)) as [buidResult|]; simpl;
      [|by split_and!; intros; simplify_eq; auto].
    destruct (bool_decide _); simpl; [|by split_and!; intros; simplify_eq; auto].
    destruct (executeQuery (businessQueryScoped _ _)); simpl;
      split_and!; intros; simplify_eq; auto.
Qed.

Lemma getYears_stores executeQuery t_get t_set (c : C) :
  stores_only_success yearsKey 3600000 t_get t_set c
    (getYearsFromSecAuto executeQuery t_get t_set c).
Proof.
  unfold stores_only_success, getYearsFromSecAuto.
  destruct (svc_get c yearsKey t_get) as [[d|] c1]; simpl;
    [by split_and!; intros; simplify_eq; auto|].
  destruct (executeQuery yearsQuery); simpl; split_and!; intros; simplify_eq; auto.
Qed.

Lemma getMonths_stores executeQuery year t_get t_set (c : C) :
  stores_only_success (monthsKey year) 3600000 t_get t_set c
    (getMonthFromSecAuto executeQuery year t_get t_set c).
Proof.
  unfold stores_only_success, getMonthFromSecAuto.
  destruct (svc_get c (monthsKey year) t_get) as [[d|] c1]; simpl;
    [by split_and!; intros; simplify_eq; auto|].
  destruct (executeQuery (monthsQuery _)); simpl; split_and!; intros; simplify_eq; auto.
Qed.






End any_cache.

(** *** An entry and the calls that come after it *)

Section survival.
Context {V : Type}.
Implicit Types (st : CacheManager.t V) (key k : string) (d : V).





Lemma holds_mono key d expiry n m st :
  (n ≤ m)%nat → CacheManagerInv.holds key d expiry n st →
  CacheManagerInv.holds key d expiry m st.
Proof. intros Hnm (? & ? & ? & ?). split_and!; [done..|lia]. Qed.











End survival.


End HandlersFacts.

(** X17.  A route handler writes to the cache only when it answers 200 with
    fresh data, and then exactly that data under its own key with its own
    time to live (vertical 10 minutes, business and site 5 minutes, years
    and months 1 hour); on a 404, a 500 or a cached answer the cache is what
    the read left.  No handler answers with another status. *)
Theorem handlers_store_only_fresh_success {C : Type} `{!Routes.CacheService C}
    (execB : Routes.query → option (list Routes.row))
    (exec : Handlers.query → option (list Routes.row))
    (vreq : Handlers.VerticalBody) (breq : Routes.FilterData)
    (sreq : Handlers.SiteBody) (year : string) (t_get t_set : Z) (c : C) :
  Handlers.stores_only_success (Handlers.verticalKey vreq) 600000 t_get t_set c
    (Handlers.getVertical exec vreq t_get t_set c) ∧
  Handlers.stores_only_success (Routes.cacheKey breq) 300000 t_get t_set c
    (Routes.getBusiness execB breq t_get t_set c) ∧
  Handlers.stores_only_success (Handlers.siteKey sreq) 300000 t_get t_set c
    (Handlers.getSite exec sreq t_get t_set c) ∧
  Handlers.stores_only_success Handlers.yearsKey 3600000 t_get t_set c
    (Handlers.getYearsFromSecAuto exec t_get t_set c) ∧
  Handlers.stores_only_success (Handlers.monthsKey year) 3600000 t_get t_set c
    (Handlers.getMonthFromSecAuto exec year t_get t_set c).
Proof.
  split_and!.
  - apply HandlersFacts.getVertical_stores.
  - apply HandlersFacts.getBusiness_stores.
  - apply HandlersFacts.getSite_stores.
  - apply HandlersFacts.getYears_stores.
  - apply HandlersFacts.getMonths_stores.
Qed.



(** X19.  The cache keys of the five routes never coincide, whatever the
    request bodies: an entry stored by one route is never read by another. *)
Theorem route_keys_are_disjoint
    (vreq : Handlers.VerticalBody) (breq : Routes.FilterData)
    (sreq : Handlers.SiteBody) (year : string) :
  let keys := [Handlers.verticalKey vreq; Routes.cacheKey breq;
               Handlers.siteKey sreq; Handlers.yearsKey; Handlers.monthsKey year] in
  NoDup keys.
Proof.
  cbv zeta. unfold Handlers.verticalKey, Routes.cacheKey, Handlers.siteKey,
    Handlers.yearsKey, Handlers.monthsKey.
  repeat (apply NoDup_cons; split;
          [rewrite ?elem_of_cons, elem_of_nil; simpl; intuition discriminate|]).
  apply NoDup_nil_2.
Qed.

(** ** The component as it runs *)

Module ComponentRunFacts.
Import Routes IndexChairmanDaily ComponentRun.

Ltac in_api := unfold api_names; rewrite !elem_of_cons; auto 10.

Lemma ui_not_api k : k ∈ ui_keys → k ∉ api_names.
Proof.
  unfold ui_keys, api_names. rewrite !elem_of_cons, !elem_of_nil.
  intros [->|[->|[->|[->|[->|[]]]]]]; intuition discriminate.
Qed.

Lemma start_all_frame rs : ∀ st,
  data (foldl fetchData_start st rs) = data st ∧
  cached (foldl fetchData_start st rs) = cached st ∧
  metrics (foldl fetchData_start st rs) = metrics st ∧
  filters (foldl fetchData_start st rs) = filters st.
Proof.
  induction rs as [|r rs IH]; intros st; [done|].
  simpl. by destruct (IH (fetchData_start st r)) as (-> & -> & -> & ->).
Qed.

Lemma start_untouched rs st k :
  Forall (λ r, type r ∈ api_names) rs → k ∈ ui_keys →
  untouched st k → untouched (foldl fetchData_start st rs) k.
Proof.
  intros Hrs Hk (Hd & Hl & Hc). unfold untouched.
  destruct (start_all_frame rs st) as (-> & -> & _ & _).
  rewrite RefreshFacts.start_all_loading.
  rewrite bool_decide_eq_false_2; [done|].
  intros (r & -> & Hr)%list_elem_of_fmap.
  apply (ui_not_api _ Hk). by apply (proj1 (Forall_forall _ _) Hrs).
Qed.

Lemma settle_untouched st r o k :
  type r ∈ api_names → k ∈ ui_keys →
  untouched st k → untouched (fetchData_settle st (r, o)) k.
Proof.
  intros Hr Hk (Hd & Hl & Hc).
  assert (type r ≠ k) as Hne by (intros <-; by apply (ui_not_api _ Hk)).
  unfold untouched, fetchData_settle.
  destruct o; simpl; by rewrite ?lookup_insert_ne by done.
Qed.

Lemma body_requests key value st :
  Forall (λ r, type r ∈ api_names)
         (option_list (debouncedUpdateFilter_body key value st).2).
Proof.
  unfold debouncedUpdateFilter_body.
  repeat case_decide; try destruct (selectable value); simpl;
    repeat constructor; in_api.
Qed.

Lemma cleared_lookup (m : gmap string (list row)) k k' :
  m !! k = Some [] → <[k' := []]> m !! k = Some [].
Proof.
  intros Hm. destruct (decide (k' = k)) as [->|Hne];
    [by rewrite lookup_insert_eq | by rewrite lookup_insert_ne].
Qed.

Lemma body_untouched key value st k :
  k ∈ ui_keys → untouched st k →
  untouched (debouncedUpdateFilter_body key value st).1 k.
Proof.
  intros Hk (Hd & Hl & Hc).
  assert ("getBusiness" ≠ k ∧ "getSite" ≠ k ∧ "getMonths" ≠ k) as (H1 & H2 & H3).
  { split_and!; intros <-; apply (ui_not_api _ Hk); in_api. }
  unfold debouncedUpdateFilter_body, untouched.
  repeat case_decide; try destruct (selectable value); simpl;
    split_and!; try done; try (by rewrite lookup_insert_ne by done);
    by repeat apply cleared_lookup.
Qed.

Lemma refreshPromises_api filters :
  Forall (λ r, type r ∈ api_names) (refreshPromises filters).
Proof.
  unfold refreshPromises.
  destruct (selected filters "vertical"), (selected filters "business"),
    (filters !! "year") as [y|]; try destruct (bool_decide (y ≠ ""));
    simpl; repeat constructor; in_api.
Qed.

Lemma loadInitialData_api filters :
  Forall (λ r, type r ∈ api_names) (loadInitialData filters).
Proof. unfold loadInitialData. repeat constructor; in_api. Qed.

Lemma step_inv p e p' : inv p → step p e = Some p' → inv p'.
Proof.
  intros [Hfl Hui] Hstep. destruct e as [|key value| |i o|elapsed]; cbn [step] in Hstep; cbv zeta in Hstep.
  - injection Hstep as <-. split; cbn [current component inflight].
    + apply Forall_app. split; [done|apply loadInitialData_api].
    + intros k Hk.
      apply (start_untouched (loadInitialData (filters (component (current p)))));
        [apply loadInitialData_api|done|by apply Hui].
  - unfold debouncedUpdateFilter in Hstep.
    pose proof (body_requests key value (component (current p))) as Hrs.
    pose proof (λ k Hk, body_untouched key value (component (current p)) k Hk (Hui k Hk))
      as Hbody.
    destruct (debouncedUpdateFilter_body _ _ _) as [st r]. injection Hstep as <-.
    split; cbn [current component inflight]; [|done]. apply Forall_app. by split.
  - injection Hstep as <-. split; cbn [current component inflight].
    + apply Forall_app. split; [done|apply refreshPromises_api].
    + intros k Hk.
      apply (start_untouched (refreshPromises (filters (component (current p)))));
        [apply refreshPromises_api|done|by apply Hui].
  - destruct (inflight p !! i) as [r|] eqn:Hr; [|done]. injection Hstep as <-.
    split; cbn [current component inflight].
    + by apply Forall_delete.
    + intros k Hk. apply settle_untouched; [|done|by apply Hui].
      apply (proj1 (Forall_forall _ _) Hfl). by eapply list_elem_of_lookup_2.
  - injection Hstep as <-. split; cbn [current component inflight]; [done|]. intros k Hk. apply (Hui k Hk).
Qed.

Lemma run_inv tr : ∀ p p', inv p → run tr p = Some p' → inv p'.
Proof.
  induction tr as [|e tr IH]; intros p p' Hinv Hrun; simpl in Hrun.
  - by injection Hrun as <-.
  - destruct (step p e) as [p1|] eqn:Hstep; [|done].
    eapply IH; [|exact Hrun]. by eapply step_inv.
Qed.

Lemma mount_inv : inv mount.
Proof.
  split; [constructor|]. intros k. unfold ui_keys. rewrite !elem_of_cons, elem_of_nil.
  intros [->|[->|[->|[->|[->|[]]]]]]; by vm_compute.
Qed.

Lemma event_count_cons f e tr :
  count f (e :: tr) = ((if f e then 1 else 0) + count f tr)%nat.
Proof. unfold count. rewrite filter_cons. by destruct (f e). Qed.

Lemma step_metrics p e p' :
  step p e = Some p' →
  let m := metrics (component (current p)) in
  let m' := metrics (component (current p')) in
  apiCalls m' = ((if is_resolved e then 1 else 0) + apiCalls m)%nat ∧
  cacheHits m' = ((if is_cache_hit e then 1 else 0) + cacheHits m)%nat ∧
  filterChanges m' = ((if is_update e then 1 else 0) + filterChanges m)%nat.
Proof.
  intros Hstep. destruct e as [|key value| |i o|elapsed]; cbn [step] in Hstep; cbv zeta in Hstep.
  - apply (inj Some) in Hstep as <-. cbv zeta. cbn [current component].
    by destruct (start_all_frame (loadInitialData (filters (component (current p))))
                   (component (current p))) as (_ & _ & -> & _).
  - unfold debouncedUpdateFilter, debouncedUpdateFilter_body in Hstep.
    repeat case_decide; try destruct (selectable value);
      injection Hstep as <-; done.
  - apply (inj Some) in Hstep as <-. cbv zeta. cbn [current component].
    by destruct (start_all_frame (refreshPromises (filters (component (current p))))
                   (component (current p))) as (_ & _ & -> & _).
  - destruct (inflight p !! i) as [r|]; [|done]. injection Hstep as <-.
    by destruct o as [result []|].
  - by injection Hstep as <-.
Qed.

Lemma run_metrics tr : ∀ p p',
  run tr p = Some p' →
  let m := metrics (component (current p)) in
  let m' := metrics (component (current p')) in
  apiCalls m' = (count is_resolved tr + apiCalls m)%nat ∧
  cacheHits m' = (count is_cache_hit tr + cacheHits m)%nat ∧
  filterChanges m' = (count is_update tr + filterChanges m)%nat.
Proof.
  induction tr as [|e tr IH]; intros p p' Hrun; simpl in Hrun.
  - by injection Hrun as <-.
  - destruct (step p e) as [p1|] eqn:Hstep; [|done].
    destruct (step_metrics _ _ _ Hstep) as (Ha & Hc & Hf).
    destruct (IH _ _ Hrun) as (Ha' & Hc' & Hf'). cbv zeta in *.
    rewrite !event_count_cons. lia.
Qed.

Lemma hits_le_resolved tr : (count is_cache_hit tr ≤ count is_resolved tr)%nat.
Proof.
  induction tr as [|e tr IH]; [done|]. rewrite !event_count_cons.
  destruct e as [| | |i [result []|]|]; simpl; lia.
Qed.

End ComponentRunFacts.

(** X20.  The component: whatever the page does (initial loads, filter
    choices, refreshes, replies that resolve or reject, in any order), the
    lists its selects read ([data.vertical], [data.business], [data.site],
    [data.years], [data.months]) stay empty, and the matching [loading] and
    [cached] flags stay false: [fetchData] writes its results and flags under
    the names it is called with ([getVertical], ...), never under these. *)
Theorem fetched_data_never_reaches_selects (tr : list ComponentRun.event)
    (p' : ComponentRun.page) (k : string) :
  ComponentRun.run tr ComponentRun.mount = Some p' →
  k ∈ ComponentRun.ui_keys →
  let st := IndexChairmanDaily.component (ComponentRun.current p') in
  IndexChairmanDaily.data st !! k = Some [] ∧
  IndexChairmanDaily.loading st !! k = Some false ∧
  IndexChairmanDaily.cached st !! k = Some false.
Proof.
  intros Hrun Hk.
  by apply (ComponentRunFacts.run_inv tr _ _ ComponentRunFacts.mount_inv Hrun).
Qed.

(** X20 at work: after [ComponentRun.sample_run], in which two fetches
    resolved with a row, [data.vertical] is still empty. *)
Lemma fetched_data_never_reaches_selects_witness :
  ∃ p', ComponentRun.run ComponentRun.sample_run ComponentRun.mount = Some p' ∧
    let st := IndexChairmanDaily.component (ComponentRun.current p') in
    IndexChairmanDaily.data st !! "vertical" = Some [] ∧
    IndexChairmanDaily.loading st !! "vertical" = Some false ∧
    IndexChairmanDaily.cached st !! "vertical" = Some false.
Proof.
  eexists. split; [vm_compute; reflexivity|].
  eapply (fetched_data_never_reaches_selects ComponentRun.sample_run _ "vertical").
  - vm_compute. reflexivity.
  - refine (bool_decide_unpack _ _). by vm_compute.
Defined.

(** X21.  The component's metrics over any history: [apiCalls] grows by the
    number of fetches that resolved, [cacheHits] by the number of those that
    resolved with [fromCache], [filterChanges] by the number of debounced
    updates that ran; a rejected fetch counts as neither, and [cacheHits]
    never overtakes [apiCalls]. *)
Theorem component_metrics_accounting (tr : list ComponentRun.event)
    (p p' : ComponentRun.page) :
  ComponentRun.run tr p = Some p' →
  let m := IndexChairmanDaily.metrics (IndexChairmanDaily.component (ComponentRun.current p)) in
  let m' := IndexChairmanDaily.metrics (IndexChairmanDaily.component (ComponentRun.current p')) in
  IndexChairmanDaily.apiCalls m'
  = (ComponentRun.count ComponentRun.is_resolved tr + IndexChairmanDaily.apiCalls m)%nat ∧
  IndexChairmanDaily.cacheHits m'
  = (ComponentRun.count ComponentRun.is_cache_hit tr + IndexChairmanDaily.cacheHits m)%nat ∧
  IndexChairmanDaily.filterChanges m'
  = (ComponentRun.count ComponentRun.is_update tr + IndexChairmanDaily.filterChanges m)%nat ∧
  ((IndexChairmanDaily.cacheHits m ≤ IndexChairmanDaily.apiCalls m)%nat →
   (IndexChairmanDaily.cacheHits m' ≤ IndexChairmanDaily.apiCalls m')%nat).
Proof.
  intros Hrun. destruct (ComponentRunFacts.run_metrics tr p p' Hrun) as (Ha & Hc & Hf).
  cbv zeta in *. split_and!; [done..|].
  pose proof (ComponentRunFacts.hits_le_resolved tr). lia.
Qed.

(** X21 at work on [ComponentRun.sample_run]: two resolved fetches, one of
    them from the cache, one rejected, one filter change. *)
Lemma component_metrics_accounting_witness :
  ∃ p', ComponentRun.run ComponentRun.sample_run ComponentRun.mount = Some p' ∧
    let m' := IndexChairmanDaily.metrics (IndexChairmanDaily.component (ComponentRun.current p')) in
    IndexChairmanDaily.apiCalls m' = 2%nat ∧
    IndexChairmanDaily.cacheHits m' = 1%nat ∧
    IndexChairmanDaily.filterChanges m' = 1%nat.
Proof.
  eexists. split; [vm_compute; reflexivity|].
  edestruct (component_metrics_accounting ComponentRun.sample_run ComponentRun.mount)
    as (Ha & Hc & Hf & _); [vm_compute; reflexivity|].
  cbv zeta. rewrite Ha, Hc, Hf. by vm_compute.
Defined.

(** X22.  The hook: the three debounced updates compare the chosen value
    with the filters of the first render, which are empty.  So once the timer
    of a choice has run, a value that is not empty is always applied and
    always resets the filters below it, also when it is the value already
    selected; and the empty value is never applied. *)
Theorem hook_choice_compares_with_first_render {T D : Type}
    (st : UseDashboardData.state T D) (v : string) (now now' : Z) :
  now + 300 ≤ now' →
  let f := UseDashboardData.filters st in
  (∃ st',
     UseDashboardData.fireBusiness (Debounce.next_handle (UseDashboardData.dBusiness st)) now'
       (UseDashboardData.updateFilter UseDashboardData.KVertical v now st) = Some st' ∧
     UseDashboardData.filters st'
     = if decide (v = "") then f
       else UseDashboardData.mkFilters v "" "" (UseDashboardData.year f)
              (UseDashboardData.month f) (UseDashboardData.date f)) ∧
  (∃ st',
     HookTimers.fireSite (Debounce.next_handle (UseDashboardData.dSite st)) now'
       (UseDashboardData.updateFilter UseDashboardData.KBusiness v now st) = Some st' ∧
     UseDashboardData.filters st'
     = if decide (v = "") then f
       else UseDashboardData.mkFilters (UseDashboardData.vertical f) v ""
              (UseDashboardData.year f) (UseDashboardData.month f)
              (UseDashboardData.date f)) ∧
  (∃ st',
     HookTimers.fireMonth (Debounce.next_handle (UseDashboardData.dMonth st)) now'
       (UseDashboardData.updateFilter UseDashboardData.KYear v now st) = Some st' ∧
     UseDashboardData.filters st'
     = if decide (v = "") then f
       else UseDashboardData.mkFilters (UseDashboardData.vertical f)
              (UseDashboardData.business f) (UseDashboardData.site f) v "" "").
Proof.
  intros Hnow. cbv zeta. split_and!.
  - unfold UseDashboardData.fireBusiness, UseDashboardData.updateFilter. simpl.
    unfold Debounce.fire. simpl. rewrite lookup_insert_eq. simpl.
    rewrite bool_decide_eq_true_2 by lia. simpl.
    eexists. split; [done|]. simpl.
    unfold UseDashboardData.debouncedUpdateBusiness_body. simpl.
    destruct (decide (v = "")) as [->|Hv];
      [by rewrite decide_False by (by intros ?) | by rewrite decide_True].
  - unfold HookTimers.fireSite, UseDashboardData.updateFilter. simpl.
    unfold Debounce.fire. simpl. rewrite lookup_insert_eq. simpl.
    rewrite bool_decide_eq_true_2 by lia. simpl.
    eexists. split; [done|]. simpl.
    unfold UseDashboardData.debouncedUpdateSite_body. simpl.
    destruct (decide (v = "")) as [->|Hv];
      [by rewrite decide_False by (by intros ?) | by rewrite decide_True].
  - unfold HookTimers.fireMonth, UseDashboardData.updateFilter. simpl.
    unfold Debounce.fire. simpl. rewrite lookup_insert_eq. simpl.
    rewrite bool_decide_eq_true_2 by lia. simpl.
    eexists. split; [done|]. simpl.
    unfold UseDashboardData.debouncedUpdateMonth_body. simpl.
    destruct (decide (v = "")) as [->|Hv];
      [by rewrite decide_False by (by intros ?) | by rewrite decide_True].
Qed.

(** X22 at work: with "Energy" and business "X" selected, "Energy" is
    chosen again and the business is gone. *)
Lemma hook_choice_compares_with_first_render_witness :
  let st : UseDashboardData.state nat nat :=
    UseDashboardData.mk (UseDashboardData.mkFilters "Energy" "X" "S" "2024" "1" "")
      1 1 FrontendCache.constructor (λ _, None)
      Debounce.init Debounce.init Debounce.init in
  ∃ st',
    UseDashboardData.fireBusiness 1 300
      (UseDashboardData.updateFilter UseDashboardData.KVertical "Energy" 0 st) = Some st' ∧
    UseDashboardData.filters st' = UseDashboardData.mkFilters "Energy" "" "" "2024" "1" "".
Proof.
  destruct (hook_choice_compares_with_first_render (T := nat) (D := nat)
              (UseDashboardData.mk (UseDashboardData.mkFilters "Energy" "X" "S" "2024" "1" "")
                 1 1 FrontendCache.constructor (λ _, None)
                 Debounce.init Debounce.init Debounce.init)
              "Energy" 0 300) as [H _]; [lia|exact H].
Defined.
